(** * server_cloud.py: device registry, command queue and WebSocket handler

    A shallow embedding of the relay in [server_cloud.py]: the two module-level
    dictionaries [connected_clients] and [device_commands], the HTTP handler
    [send_command], and the coroutine [websocket_handler].

    The server runs on a single asyncio event loop, so the code between two
    [await]s is executed without interruption.  Each such block is a function
    on the server state; [step] chooses the block to run from an [action] of
    the environment (a connection is accepted, a frame arrives, a suspended
    send completes, an operator posts a command). *)

From Stdlib Require Import String List ZArith Bool Arith Lia DecimalString DecimalNat
  Permutation.
Import ListNotations.
Open Scope string_scope.
Open Scope list_scope.
Set Warnings "-register-all".

(** ** Values decoded by [json.loads] *)

(** A decoded JSON document.  Numbers are the integer literals of JSON (a
    Python [int]); a [dict] is the list of its items in insertion order. *)
Inductive json : Type :=
| JNull
| JBool (b : bool)
| JInt (z : Z)
| JStr (s : string)
| JArr (items : list json)
| JObj (items : list (string * json)).

(** Python exceptions the handlers can meet. *)
Inductive exn : Type :=
| AttributeError      (* [.get] on a value that is not a dict *)
| TypeError           (* unhashable dictionary key, wrong argument type *)
| KeyError            (* [del d[k]] on a missing key *)
| JSONDecodeError     (* [json.loads] / [request.json()] on malformed text *)
| Base64Error         (* [binascii.Error] from [base64.b64decode] *)
| OSError             (* the upload file cannot be written *)
| TransportError.     (* [send_str] on a broken connection *)

(** Result of a computation that may raise. *)
Inductive result (A : Type) : Type :=
| Ok (a : A)
| Raise (e : exn).
Arguments Ok {A} a.
Arguments Raise {A} e.

Definition bind {A B : Type} (r : result A) (k : A -> result B) : result B :=
  match r with
  | Ok a => k a
  | Raise e => Raise e
  end.

Notation "x <- r ;; k" := (bind r (fun x => k))
  (at level 61, r at next level, right associativity).

(** Items of a dict with [str] keys: first binding of [key]. *)
Fixpoint items_get {A : Type} (key : string) (items : list (string * A)) : option A :=
  match items with
  | [] => None
  | (k, v) :: rest => if String.eqb k key then Some v else items_get key rest
  end.

(** [d.get(key, default)] on a dict. *)
Definition dict_get (items : list (string * json)) (key : string) (default : json) : json :=
  match items_get key items with
  | Some v => v
  | None => default
  end.

(** [data.get(key, default)] on an arbitrary decoded value: only a dict has
    the method. *)
Definition py_get (data : json) (key : string) (default : json) : result json :=
  match data with
  | JObj items => Ok (dict_get items key default)
  | _ => Raise AttributeError
  end.

(** Python's [==] on decoded values: [True == 1], lists are compared
    element by element, dicts as mappings. *)
Fixpoint py_eq (a b : json) {struct a} : bool :=
  match a, b with
  | JNull, JNull => true
  | JBool x, JBool y => Bool.eqb x y
  | JBool x, JInt z => Z.eqb (Z.b2z x) z
  | JInt z, JBool y => Z.eqb z (Z.b2z y)
  | JInt x, JInt y => Z.eqb x y
  | JStr x, JStr y => String.eqb x y
  | JArr xs, JArr ys =>
      (fix all2 (xs ys : list json) {struct xs} : bool :=
         match xs, ys with
         | [], [] => true
         | x :: xs', y :: ys' => py_eq x y && all2 xs' ys'
         | _, _ => false
         end) xs ys
  | JObj xs, JObj ys =>
      Nat.eqb (length xs) (length ys) &&
      (fix sub (xs : list (string * json)) {struct xs} : bool :=
         match xs with
         | [] => true
         | (k, v) :: xs' =>
             match items_get k ys with
             | Some w => py_eq v w
             | None => false
             end && sub xs'
         end) xs
  | _, _ => false
  end.

(** Values usable as dictionary keys: everything but lists and dicts. *)
Definition hashable (v : json) : bool :=
  match v with
  | JArr _ | JObj _ => false
  | _ => true
  end.

(** Truth value of a decoded value, as tested by [if]. *)
Definition truthy (v : json) : bool :=
  match v with
  | JNull => false
  | JBool b => b
  | JInt z => negb (Z.eqb z 0)
  | JStr s => negb (String.eqb s EmptyString)
  | JArr items => negb (Nat.eqb (length items) 0)
  | JObj items => negb (Nat.eqb (length items) 0)
  end.

(** [str(n)] for a length. *)
Definition str_nat (n : nat) : string := NilEmpty.string_of_uint (Nat.to_uint n).

(** ** Dictionaries *)

(** [connected_clients]: keyed by the WebSocket object (here its handle, a
    number); iteration follows insertion order. *)
Section Dict.
Context {V : Type}.

Fixpoint dict_contains (key : nat) (d : list (nat * V)) : bool :=
  match d with
  | [] => false
  | (k, _) :: rest => Nat.eqb k key || dict_contains key rest
  end.

(** [d[key] = v]: an existing key keeps its place, a new one goes last. *)
Fixpoint dict_set (key : nat) (v : V) (d : list (nat * V)) : list (nat * V) :=
  match d with
  | [] => [(key, v)]
  | (k, w) :: rest =>
      if Nat.eqb k key then (k, v) :: rest else (k, w) :: dict_set key v rest
  end.

(** [del d[key]] for a key known to be present (absent: no change). *)
Fixpoint dict_del (key : nat) (d : list (nat * V)) : list (nat * V) :=
  match d with
  | [] => []
  | (k, w) :: rest =>
      if Nat.eqb k key then rest else (k, w) :: dict_del key rest
  end.
End Dict.

(** [device_commands]: keyed by whatever value the device id is; keys are
    found by hash and [==]. *)
Section Backlog.
Context {V : Type}.

Fixpoint backlog_find (key : json) (d : list (json * V)) : option V :=
  match d with
  | [] => None
  | (k, v) :: rest => if py_eq k key then Some v else backlog_find key rest
  end.

(** [key in d]; hashing an unhashable key raises. *)
Definition backlog_contains (key : json) (d : list (json * V)) : result bool :=
  if hashable key
  then Ok (match backlog_find key d with Some _ => true | None => false end)
  else Raise TypeError.

Fixpoint backlog_set (key : json) (v : V) (d : list (json * V)) : list (json * V) :=
  match d with
  | [] => [(key, v)]
  | (k, w) :: rest =>
      if py_eq k key then (k, v) :: rest else (k, w) :: backlog_set key v rest
  end.

Fixpoint backlog_remove (key : json) (d : list (json * V)) : list (json * V) :=
  match d with
  | [] => []
  | (k, w) :: rest =>
      if py_eq k key then rest else (k, w) :: backlog_remove key rest
  end.

(** [del d[key]]. *)
Definition backlog_del (key : json) (d : list (json * V)) : result (list (json * V)) :=
  if hashable key
  then match backlog_find key d with
       | Some _ => Ok (backlog_remove key d)
       | None => Raise KeyError
       end
  else Raise TypeError.
End Backlog.

(** ** Server state *)

(** A value of [connected_clients]:
    [{'device_id': ..., 'connected_at': ..., 'address': ...}]. *)
Record info : Type := {
  device_id : json;
  connected_at : string;
  address : string
}.

(** An element of a list in [device_commands]:
    [{'command': ..., 'params': ..., 'timestamp': ...}]. *)
Record queued : Type := {
  command : json;
  params : json;
  timestamp : string
}.

(** [WSMsgType] of a frame that comes in on a socket; a TEXT message is
    given by what [json.loads(msg.data)] makes of it ([None]:
    [JSONDecodeError]).  PING and PONG are dealt with inside [ws.receive()]
    (the response is created with the default [autoping]): a ping is
    answered, a pong dropped, and [receive] goes on waiting, so that the
    handler never sees either. *)
Inductive ws_msg : Type :=
| TEXT (data : option json)
| BINARY
| PING
| PONG
| CLOSE
| CLOSING
| CLOSED
| ERROR.

(** Where a [websocket_handler] coroutine is suspended. *)
Inductive stage : Type :=
| AwaitingRegistration
    (* line 171: [await asyncio.wait_for(ws.receive(), timeout=10.0)] *)
| AwaitingClose
    (* line 173: inside [await ws.close()] *)
| SendingQueued (device : json) (queued_count : nat) (rest : list queued)
    (* line 197: inside [await ws.send_str(...)] of the replay loop; [rest]
       is what the [for] has not reached yet *)
| Listening (device : json)
    (* line 202: [async for msg in ws] *)
| Returned.
    (* the [finally] block has run and the handler has returned [ws] *)

(** One [web.WebSocketResponse] and the coroutine serving it. *)
Record socket : Type := {
  remote : string;          (* [request.remote] *)
  at_line : stage;
  sent : list json;         (* objects passed to [send_str(json.dumps(...))] *)
  close_called : bool       (* the handler has called [ws.close()] *)
}.

(** What the process prints or writes. *)
Inductive event : Type :=
| print_connected (device : json) (addr : string)
| print_queued_sent (queued_count : nat) (device : json)
| write_screen (device ts : json) (image_data : list Byte.byte)
| print_screen (device ts : json) (size : nat)
| print_notification (device package title text : json)
| print_flashlight (device : json) (on : bool)
| print_command_response (device cmd status : json)
| print_invalid_json
| print_error (e : exn)
| print_ws_error
| print_timeout (addr : string)
| print_ws_exception (e : exn)
| print_disconnected (ws : nat) (device : json) (addr : string)
| print_command_sent (device cmd : json)
| print_command_error (e : exn).


Record server : Type := {
  connected_clients : list (nat * info);
  device_commands : list (json * list queued);
  sockets : list socket;
  console : list event
}.

Definition startup : server :=
  {| connected_clients := []; device_commands := []; sockets := []; console := [] |}.

(** [web.json_response(data, status=...)]. *)
Record response : Type := json_response {
  body : json;
  status : nat
}.

(** *** Elementary updates *)

Definition with_clients (c : list (nat * info)) (st : server) : server :=
  {| connected_clients := c; device_commands := device_commands st;
     sockets := sockets st; console := console st |}.

Definition with_commands (q : list (json * list queued)) (st : server) : server :=
  {| connected_clients := connected_clients st; device_commands := q;
     sockets := sockets st; console := console st |}.

Definition with_sockets (s : list socket) (st : server) : server :=
  {| connected_clients := connected_clients st; device_commands := device_commands st;
     sockets := s; console := console st |}.

Definition print (e : event) (st : server) : server :=
  {| connected_clients := connected_clients st; device_commands := device_commands st;
     sockets := sockets st; console := console st ++ [e] |}.

Fixpoint update_nth {A : Type} (n : nat) (f : A -> A) (l : list A) : list A :=
  match l, n with
  | [], _ => []
  | x :: rest, O => f x :: rest
  | x :: rest, S n' => x :: update_nth n' f rest
  end.

Definition with_stage (s : stage) (k : socket) : socket :=
  {| remote := remote k; at_line := s; sent := sent k; close_called := close_called k |}.

Definition with_sent (m : json) (k : socket) : socket :=
  {| remote := remote k; at_line := at_line k; sent := sent k ++ [m];
     close_called := close_called k |}.

Definition with_close (k : socket) : socket :=
  {| remote := remote k; at_line := at_line k; sent := sent k; close_called := true |}.

Definition suspend (ws : nat) (s : stage) (st : server) : server :=
  with_sockets (update_nth ws (with_stage s) (sockets st)) st.

(** A successful [ws.send_str(json.dumps(m))]. *)
Definition send_str (ws : nat) (m : json) (st : server) : server :=
  with_sockets (update_nth ws (with_sent m) (sockets st)) st.

Definition close (ws : nat) (st : server) : server :=
  with_sockets (update_nth ws with_close (sockets st)) st.

Definition stage_of (st : server) (ws : nat) : option stage :=
  option_map at_line (nth_error (sockets st) ws).

Definition sent_to (st : server) (ws : nat) : list json :=
  match nth_error (sockets st) ws with
  | Some k => sent k
  | None => []
  end.

Definition remote_of (st : server) (ws : nat) : string :=
  match nth_error (sockets st) ws with
  | Some k => remote k
  | None => EmptyString
  end.

(** Simple stand-ins for the two library functions the server is
    parameterised by, for the examples at the end of the file. *)
Definition no_image (data : json) : result (list Byte.byte) :=
  match data with
  | JStr _ => Ok []
  | _ => Raise TypeError
  end.

Definition exn_text (e : exn) : string :=
  match e with
  | AttributeError => "AttributeError"
  | TypeError => "TypeError"
  | KeyError => "KeyError"
  | JSONDecodeError => "JSONDecodeError"
  | Base64Error => "Error"
  | OSError => "OSError"
  | TransportError => "ConnectionResetError"
  end.

(** Splits a conjunction into its parts, and nothing else. *)
Ltac split_and := repeat match goal with |- _ /\ _ => split end.

Section Server.

(** [base64.b64decode(data.get('data'))], and the text [str(e)] of an
    exception: both are the interpreter's. *)
Variable b64decode : json -> result (list Byte.byte).
Variable str_exn : exn -> string.

(** ** [list_devices] *)

Definition list_devices (st : server) : response :=
  let devices :=
    map (fun entry : nat * info =>
           JObj [("device_id", device_id (snd entry));
                 ("connected_at", JStr (connected_at (snd entry)))])
        (connected_clients st) in
  json_response
    (JObj [("devices", JArr devices); ("count", JInt (Z.of_nat (length devices)))])
    200.

(** ** [send_command] *)

(** Lines 68-72: the first socket, in insertion order, whose info carries
    the device id. *)
Fixpoint find_target (clients : list (nat * info)) (device : json) : option nat :=
  match clients with
  | [] => None
  | (ws, i) :: rest =>
      if py_eq (device_id i) device then Some ws else find_target rest device
  end.

(** The [command_msg] dict of lines 89-94 and 191-196. *)
Definition command_msg (cmd prm : json) (ts : string) : json :=
  JObj [("type", JStr "remote_command"); ("command", cmd);
        ("params", prm); ("timestamp", JStr ts)].

(** Lines 76-82. *)
Definition enqueue (device : json) (q : queued) (cmds : list (json * list queued))
  : result (list (json * list queued)) :=
  present <- backlog_contains device cmds ;;
  let cmds1 := if present then cmds else backlog_set device [] cmds in
  match backlog_find device cmds1 with
  | Some backlog => Ok (backlog_set device (backlog ++ [q]) cmds1)
  | None => Raise KeyError
  end.

Definition queued_response : response :=
  json_response
    (JObj [("status", JStr "queued");
           ("message", JStr "Device not connected, command queued")])
    200.

Definition sent_response (cmd : json) : response :=
  json_response (JObj [("status", JStr "sent"); ("command", cmd)]) 200.

Definition error_response (e : exn) : response :=
  json_response (JObj [("error", JStr (str_exn e))]) 500.

(** The [try] block of [send_command].  [request] is what [request.json()]
    returns ([None]: it raises), [now] is [datetime.now().isoformat()], [io]
    tells whether [target_ws.send_str] raises. *)
Definition send_command_try (request : option json) (now : string) (io : option exn)
    (st : server) : result (server * response) :=
  data <- match request with Some d => Ok d | None => Raise JSONDecodeError end ;;
  device <- py_get data "device_id" (JStr "default") ;;
  cmd <- py_get data "command" JNull ;;
  prm <- py_get data "params" (JObj []) ;;
  match find_target (connected_clients st) device with
  | None =>
      cmds <- enqueue device {| command := cmd; params := prm; timestamp := now |}
                (device_commands st) ;;
      Ok (with_commands cmds st, queued_response)
  | Some target_ws =>
      match io with
      | Some e => Raise e
      | None =>
          Ok (print (print_command_sent device cmd)
                (send_str target_ws (command_msg cmd prm now) st),
              sent_response cmd)
      end
  end.

Definition send_command (request : option json) (now : string) (io : option exn)
    (st : server) : server * response :=
  match send_command_try request now io st with
  | Ok r => r
  | Raise e => (print (print_command_error e) st, error_response e)
  end.

(** ** [websocket_handler] *)

(** What the coroutine's pending [await] yields when it is resumed. *)
Inductive awaited : Type :=
| FirstFrame (arrival : option (N * ws_msg)) (now : string) (io : option exn)
    (* line 171: a message arriving [t] milliseconds after the wait began, or
       none at all; [now] and [io] serve the rest of the block, which runs
       up to the first replayed command *)
| CloseDone (io : option exn)
    (* line 173: [ws.close()] is through; [io] tells whether it raised *)
| SendDone (io : option exn)
    (* line 197: the previous [send_str] is through; [io] tells whether the
       next one raises *)
| Incoming (m : ws_msg) (disk_ok : bool).
    (* line 202: the next message; [disk_ok] tells whether the upload file
       can be written *)

(** [asyncio.wait_for(ws.receive(), timeout)], in milliseconds. *)
Definition wait_for (timeout : N) (arrival : option (N * ws_msg)) : option ws_msg :=
  match arrival with
  | Some (t, m) => if N.ltb t timeout then Some m else None
  | None => None
  end.

(** Lines 242-245, then [return ws]. *)
Definition finally_block (ws : nat) (device : json) (st : server) : server :=
  let st1 :=
    if dict_contains ws (connected_clients st)
    then with_clients (dict_del ws (connected_clients st)) st
    else st in
  suspend ws Returned (print (print_disconnected ws device (remote_of st ws)) st1).

(** Lines 240-241, followed by the [finally] block. *)
Definition except_block (ws : nat) (device : json) (e : exn) (st : server) : server :=
  finally_block ws device (print (print_ws_exception e) st).

(** Lines 190-199, from the next iteration of the [for] on.  The list being
    iterated is the one found under the key at line 190: while this socket
    is registered no command is appended to it. *)
Definition replay (ws : nat) (device : json) (queued_count : nat) (rest : list queued)
    (io : option exn) (st : server) : server :=
  match rest with
  | cmd :: rest' =>
      match io with
      | None =>
          suspend ws (SendingQueued device queued_count rest')
            (send_str ws (command_msg (command cmd) (params cmd) (timestamp cmd)) st)
      | Some e => except_block ws device e st
      end
  | [] =>
      match backlog_del device (device_commands st) with
      | Ok cmds =>
          suspend ws (Listening device)
            (print (print_queued_sent queued_count device) (with_commands cmds st))
      | Raise e => except_block ws device e st
      end
  end.

(** Line 174 and what follows it, once the [await] of line 173 is over. *)
Definition after_close (ws : nat) (io : option exn) (st : server) : server :=
  match io with
  | None => finally_block ws (JStr "unknown") st
  | Some e => except_block ws (JStr "unknown") e st
  end.

(** Lines 171-199, up to the first suspension.  A ping or a pong that comes
    in before the timeout leaves the coroutine inside [ws.receive()]: the
    wait goes on, with the same deadline. *)
Definition registration (ws : nat) (arrival : option (N * ws_msg)) (now : string)
    (io : option exn) (st : server) : server :=
  match wait_for 10000%N arrival with
  | None =>
      finally_block ws (JStr "unknown") (print (print_timeout (remote_of st ws)) st)
  | Some (TEXT data) =>
      let fallback := JStr ("device_" ++ str_nat (length (connected_clients st))) in
      match (reg_data <- match data with Some v => Ok v | None => Raise JSONDecodeError end ;;
             py_get reg_data "device_id" fallback) with
      | Raise e => except_block ws (JStr "unknown") e st
      | Ok device =>
          let entry := {| device_id := device; connected_at := now;
                          address := remote_of st ws |} in
          let st1 := print (print_connected device (remote_of st ws))
                       (with_clients (dict_set ws entry (connected_clients st)) st) in
          match backlog_contains device (device_commands st1) with
          | Raise e => except_block ws device e st1
          | Ok false => suspend ws (Listening device) st1
          | Ok true =>
              match backlog_find device (device_commands st1) with
              | Some cmds => replay ws device (length cmds) cmds io st1
              | None => except_block ws device KeyError st1
              end
          end
      end
  | Some (PING | PONG) => st
  | Some _ =>
      (* line 173 *)
      suspend ws AwaitingClose (close ws st)
  end.

(** Lines 203-233: what one TEXT message makes the server print or write. *)
Definition route (device : json) (data : option json) (disk_ok : bool) : list event :=
  match data with
  | None => [print_invalid_json]
  | Some (JObj items) =>
      let msg_type := dict_get items "type" JNull in
      if py_eq msg_type (JStr "screen_capture") then
        match b64decode (dict_get items "data" JNull) with
        | Raise e => [print_error e]
        | Ok image_data =>
            let ts := dict_get items "timestamp" JNull in
            if disk_ok
            then [write_screen device ts image_data;
                  print_screen device ts (length image_data)]
            else [print_error OSError]
        end
      else if py_eq msg_type (JStr "notification") then
        [print_notification device (dict_get items "package" JNull)
           (dict_get items "title" JNull) (dict_get items "text" JNull)]
      else if py_eq msg_type (JStr "flashlight") then
        [print_flashlight device (truthy (dict_get items "status" JNull))]
      else if py_eq msg_type (JStr "command_response") then
        [print_command_response device (dict_get items "command" JNull)
           (dict_get items "status" JNull)]
      else []
  | Some _ => [print_error AttributeError]
  end.

Definition print_all (es : list event) (st : server) : server :=
  fold_left (fun s e => print e s) es st.

(** Lines 202-236: one turn of the [async for].  A ping or a pong is dealt
    with inside the iteration and a binary message is skipped by the body:
    in both cases the coroutine is back in the loop, with nothing changed. *)
Definition on_message (ws : nat) (device : json) (m : ws_msg) (disk_ok : bool)
    (st : server) : server :=
  match m with
  | TEXT data => print_all (route device data disk_ok) st
  | ERROR => finally_block ws device (print print_ws_error st)
  | CLOSE | CLOSING | CLOSED => finally_block ws device st
  | BINARY | PING | PONG => st
  end.

(** Lines 163-167: a new socket, suspended in the wait for its first frame. *)
Definition accept (addr : string) (st : server) : server :=
  with_sockets
    (sockets st ++ [{| remote := addr; at_line := AwaitingRegistration;
                       sent := []; close_called := false |}]) st.

(** Resuming the coroutine of socket [ws] with the result [r] of its pending
    [await]. *)
Definition websocket_handler (ws : nat) (r : awaited) (st : server) : server :=
  match stage_of st ws, r with
  | Some AwaitingRegistration, FirstFrame arrival now io => registration ws arrival now io st
  | Some AwaitingClose, CloseDone io => after_close ws io st
  | Some (SendingQueued device queued_count rest), SendDone io =>
      replay ws device queued_count rest io st
  | Some (Listening device), Incoming m disk_ok => on_message ws device m disk_ok st
  | _, _ => st
  end.

(** ** The event loop *)

Inductive action : Type :=
| Connect (addr : string)
| Resume (ws : nat) (r : awaited)
| PostCommand (request : option json) (now : string) (io : option exn).

Definition step (a : action) (st : server) : server :=
  match a with
  | Connect addr => accept addr st
  | Resume ws r => websocket_handler ws r st
  | PostCommand request now io => fst (send_command request now io st)
  end.

Definition run (actions : list action) (st : server) : server :=
  fold_left (fun s a => step a s) actions st.

(** ** [index] *)

(** An info dict as [json_response] serialises it. *)
Definition info_json (i : info) : json :=
  JObj [("device_id", device_id i); ("connected_at", JStr (connected_at i));
        ("address", JStr (address i))].

(** Lines 40-47; [now] is [datetime.now().isoformat()]. *)
Definition index (now : string) (st : server) : response :=
  json_response
    (JObj [("status", JStr "online");
           ("clients", JInt (Z.of_nat (length (connected_clients st))));
           ("devices", JArr (map (fun entry : nat * info => info_json (snd entry))
                               (connected_clients st)));
           ("timestamp", JStr now)])
    200.

(** ** [upload_video] *)

(** One field of the multipart body, as the handler can use it: its name,
    what [(await field.read()).decode('utf-8')] gives (the text, or the
    message of the exception raised), and the chunks that are left to read
    from it: those that successive [await field.read_chunk()] return (none
    left: the empty chunk). *)
Record part : Type := {
  part_name : string;
  part_text : string + string;
  part_chunks : list (list Byte.byte)
}.

(** What [upload_video] writes and prints. *)
Inductive upload_event : Type :=
| write_file (filepath : string) (content : list Byte.byte)
| print_upload (camera_type filename : string) (size : nat)
| print_upload_error (message : string).

(** [os.path.join(a, b)] on a POSIX system. *)
Fixpoint ends_with_sep (s : string) : bool :=
  match s with
  | EmptyString => false
  | String c EmptyString => Ascii.eqb c (Ascii.ascii_of_nat 47) (* '/' *)
  | String _ rest => ends_with_sep rest
  end.

Definition path_join (a b : string) : string :=
  if String.prefix "/" b then b
  else if orb (String.eqb a EmptyString) (ends_with_sep a) then (a ++ b)%string
  else (a ++ "/" ++ b)%string.

Definition UPLOAD_FOLDER : string := "uploads".

(** [reader.next()] first releases the part it returned before: what is
    left of that part is read and dropped, and [read_chunk()] on it returns
    the empty chunk from then on. *)
Definition release (field : part) : part :=
  {| part_name := part_name field; part_text := part_text field; part_chunks := [] |}.

(** Lines 125-136: the loop over the fields, with the three local
    variables it assigns.  The result is [inl] the message of the exception
    that ends it.  The loop ends only when [reader.next()] returns [None],
    so that [reader.next()] is called again after every field: the part
    [video_file] refers to has been released when the loop is left. *)
Fixpoint read_fields (fields : list part) (video_file : option part)
    (camera_type timestamp : string) : string + (option part * string * string) :=
  match fields with
  | [] => inr (video_file, camera_type, timestamp)
  | field :: rest =>
      if String.eqb (part_name field) "video" then
        read_fields rest (Some (release field)) camera_type timestamp
      else if String.eqb (part_name field) "camera_type" then
        match part_text field with
        | inl message => inl message
        | inr text => read_fields rest video_file text timestamp
        end
      else if String.eqb (part_name field) "timestamp" then
        match part_text field with
        | inl message => inl message
        | inr text => read_fields rest video_file camera_type text
        end
      else read_fields rest video_file camera_type timestamp
  end.

(** Lines 145-149: the chunks written, up to the first empty one. *)
Fixpoint read_chunks (chunks : list (list Byte.byte)) : list Byte.byte :=
  match chunks with
  | [] => []
  | [] :: _ => []
  | chunk :: rest => chunk ++ read_chunks rest
  end.

Definition upload_error (message : string) : list upload_event * response :=
  ([print_upload_error message], json_response (JObj [("error", JStr message)]) 500).

(** [upload_video].  [request] is what [request.multipart()] and the
    reader give: the fields in order, or the message of the exception it
    raises; [disk] is the message of the exception [open] raises, if any.
    Once the file is open, [read_chunk], [write] and [os.path.getsize] are
    taken not to raise: the content is what the chunks left in [video_file]
    give, and the size printed is its length. *)
Definition upload_video (request : string + list part) (disk : option string)
  : list upload_event * response :=
  match request with
  | inl message => upload_error message
  | inr fields =>
      match read_fields fields None "unknown" EmptyString with
      | inl message => upload_error message
      | inr (None, _, _) =>
          ([], json_response (JObj [("error", JStr "No video file")]) 400)
      | inr (Some video_file, camera_type, timestamp) =>
          let filename := ("video_" ++ camera_type ++ "_" ++ timestamp ++ ".mp4")%string in
          let filepath := path_join UPLOAD_FOLDER filename in
          match disk with
          | Some message => upload_error message
          | None =>
              let content := read_chunks (part_chunks video_file) in
              ([write_file filepath content;
                print_upload camera_type filename (length content)],
               json_response (JObj [("status", JStr "uploaded");
                                    ("filename", JStr filename)]) 200)
          end
      end
  end.

(** ** Notions used by the statements *)

(** States the server can be in: [startup] followed by any actions. *)
Inductive reachable : server -> Prop :=
| reachable_startup : reachable startup
| reachable_step (a : action) (st : server) : reachable st -> reachable (step a st).

(** Handles with an entry in [connected_clients]. *)
Definition registered (st : server) : list nat := map fst (connected_clients st).

(** Handles registered under a device id, in the order [list_devices] shows. *)
Definition sessions_of (device : json) (st : server) : list nat :=
  map fst (filter (fun entry => py_eq (device_id (snd entry)) device) (connected_clients st)).

(** The coroutine is past its registration and has not returned. *)
Definition live (s : option stage) : bool :=
  match s with
  | Some (SendingQueued _ _ _) | Some (Listening _) => true
  | _ => false
  end.

(** Progress of a coroutine: not started, waiting, registered, closing the
    socket it has refused, returned. *)
Definition rank (s : option stage) : nat :=
  match s with
  | None => 0
  | Some AwaitingRegistration => 1
  | Some (SendingQueued _ _ _) | Some (Listening _) => 2
  | Some AwaitingClose => 3
  | Some Returned => 4
  end.

(** The device id a registered coroutine works for. *)
Definition serves (s : option stage) (device : json) : Prop :=
  match s with
  | Some (SendingQueued d _ _) | Some (Listening d) => d = device
  | _ => False
  end.

(** Number of times the [finally] block of socket [ws] has run. *)
Definition is_teardown (ws : nat) (e : event) : bool :=
  match e with
  | print_disconnected w _ _ => Nat.eqb w ws
  | _ => false
  end.

Definition teardowns (ws : nat) (out : list event) : nat :=
  length (filter (is_teardown ws) out).

(** The wait of line 171 ends without a registration: nothing within 10
    seconds, or a message that is not a TEXT frame holding a JSON object.  A
    ping or a pong does not end the wait. *)
Definition handshake_fails (arrival : option (N * ws_msg)) : bool :=
  match wait_for 10000%N arrival with
  | Some (TEXT (Some (JObj _))) | Some PING | Some PONG => false
  | _ => true
  end.

(** The message that ends the wait is not a TEXT frame: the test of line
    172 holds and the handler calls [ws.close()]. *)
Definition refused (arrival : option (N * ws_msg)) : bool :=
  match wait_for 10000%N arrival with
  | Some (BINARY | CLOSE | CLOSING | CLOSED | ERROR) => true
  | _ => false
  end.

(** The replayed form of a queued command (lines 191-196). *)
Definition replayed (q : queued) : json :=
  command_msg (command q) (params q) (timestamp q).

Definition backlog_of (device : json) (st : server) : list queued :=
  match backlog_find device (device_commands st) with
  | Some cmds => cmds
  | None => []
  end.


(** Every registered socket is served by a coroutine that is past its
    registration and works for the device id of the entry; no socket has two
    entries. *)
Definition registry_ok (st : server) : Prop :=
  NoDup (registered st) /\
  forall ws i, In (ws, i) (connected_clients st) -> serves (stage_of st ws) (device_id i).

(** The same, inside a block run by the coroutine of socket [ws]. *)
Definition registry_ok_but (ws : nat) (st : server) : Prop :=
  NoDup (registered st) /\
  forall ws' i, In (ws', i) (connected_clients st) -> ws' <> ws ->
                serves (stage_of st ws') (device_id i).

(** Sockets other than [ws] are where they were and have been sent nothing. *)
Definition untouched_but (ws : nat) (st st' : server) : Prop :=
  forall w, w <> ws -> stage_of st' w = stage_of st w /\ sent_to st' w = sent_to st w.

(** For each socket, whether the server has called [ws.close()] on it. *)
Definition close_calls (st : server) : list bool := map close_called (sockets st).

(** [device_commands] is a dictionary: its keys are hashable and no two of
    them are equal. *)
Fixpoint keys_ok (cmds : list (json * list queued)) : Prop :=
  match cmds with
  | [] => True
  | (k, _) :: rest => hashable k = true /\ backlog_find k rest = None /\ keys_ok rest
  end.

(** Registered device ids are hashable, and a device whose socket has
    finished the replay has no backlog. *)
Definition queue_ok (st : server) : Prop :=
  forall ws i, In (ws, i) (connected_clients st) ->
    hashable (device_id i) = true /\
    (forall d, stage_of st ws = Some (Listening d) ->
               backlog_find (device_id i) (device_commands st) = None).

(** The results of an [await] that make the handler return whatever the
    state of the dictionaries: a failed handshake (for a frame that is not
    TEXT, once [ws.close()] is through), a replayed command that cannot be
    sent, a close or an error frame in the listening loop. *)
Definition closes (s : stage) (r : awaited) : bool :=
  match s, r with
  | AwaitingRegistration, FirstFrame arrival _ _ =>
      handshake_fails arrival && negb (refused arrival)
  | AwaitingClose, CloseDone _ => true
  | SendingQueued _ _ (_ :: _), SendDone (Some _) => true
  | Listening _, Incoming (CLOSE | CLOSING | CLOSED | ERROR) _ => true
  | _, _ => false
  end.

(** An operator request for a device: command, params and the time of the
    call; and the entry it leaves in the backlog when it is queued. *)
Definition post (device : json) (c : json * json * string) : action :=
  PostCommand
    (Some (JObj [("device_id", device); ("command", fst (fst c)); ("params", snd (fst c))]))
    (snd c) None.


(** Runs used as examples: a registration frame naming a device, an
    operator request, one, two and ten sockets under the id ["X"], and a
    socket that registers while two commands wait for it. *)
Definition registers (device now : string) : awaited :=
  FirstFrame (Some (5%N, TEXT (Some (JObj [("device_id", JStr device)])))) now None.

Definition request_for (device cmd : string) : option json :=
  Some (JObj [("device_id", JStr device); ("command", JStr cmd); ("params", JObj [])]).

Definition one_socket : list action :=
  [Connect "10.0.0.1"; Resume 0 (registers "X" "t1")].

Definition two_sockets_one_id : list action :=
  one_socket ++ [Connect "10.0.0.2"; Resume 1 (registers "X" "t2")].

Definition ten_sockets : list action :=
  flat_map (fun ws => [Connect "10.0.0.1"; Resume ws (registers "X" "t1")]) (seq 0 10).

Definition mid_replay : list action :=
  [PostCommand (request_for "X" "c1") "t1" None;
   PostCommand (request_for "X" "c2") "t2" None;
   Connect "10.0.0.1";
   Resume 0 (registers "X" "t3")].

(** What one action may do to the coroutine of a socket, and to the number
    of times its [finally] block has run: nothing; an advance that is not a
    return; or the return, with one more run of the block. *)
Definition step_effect (s s' : option stage) (n n' : nat) : Prop :=
  (s' = s /\ n' = n) \/
  (rank s <= rank s' /\ rank s' <= 3 /\ n' = n) \/
  (1 <= rank s /\ rank s <= 3 /\ s' = Some Returned /\ n' = S n).

(** The [finally] block of a socket has run once if its coroutine has
    returned, and not at all otherwise. *)
Definition teardown_once (st : server) : Prop :=
  forall ws, teardowns ws (console st) = if Nat.eqb (rank (stage_of st ws)) 4 then 1 else 0.

(** A message of the shape sent to devices (lines 89-94, 191-196). *)
Definition remote_command (m : json) : Prop :=
  exists cmd prm ts, m = command_msg cmd prm ts.

(** What holds of every socket: it has been sent nothing but command
    messages; nothing at all while it waits for its registration; [close]
    has been called on it only if its handler is waiting for that call to
    end, or has returned, without having sent it anything; and the handler
    waits inside [close] only after having called it. *)
Definition socket_ok (k : socket) : Prop :=
  Forall remote_command (sent k) /\
  (at_line k = AwaitingRegistration -> sent k = [] /\ close_called k = false) /\
  (close_called k = true ->
   (at_line k = AwaitingClose \/ at_line k = Returned) /\ sent k = []) /\
  (at_line k = AwaitingClose -> close_called k = true).

(** The sockets after a block of the coroutine of [ws], which was at [s0]. *)
Definition socket_change (s0 : stage) (ws : nat) (st st' : server) : Prop :=
  exists f, sockets st' = update_nth ws f (sockets st) /\
            forall k, socket_ok k -> at_line k = s0 -> socket_ok (f k).

(** The sockets whose coroutine is past its registration and has not
    returned. *)
Definition live_sockets (st : server) : list nat :=
  filter (fun ws => live (stage_of st ws)) (seq 0 (length (sockets st))).

(** Whether [close] has been called on a socket. *)
Definition closed_by_server (st : server) (ws : nat) : bool :=
  match nth_error (sockets st) ws with
  | Some k => close_called k
  | None => false
  end.

(** An item of the JSON object a handler answers with. *)
Definition answer (r : response) (key : string) : option json :=
  match body r with
  | JObj items => items_get key items
  | _ => None
  end.

(** No key of [device_commands] holds an empty list. *)
Definition no_empty_backlog (cmds : list (json * list queued)) : Prop :=
  Forall (fun entry => snd entry <> []) cmds.

(** While a socket is in the replay loop, the list still stored under its
    device id, if any, ends with the commands the loop has not reached. *)
Definition replaying_ok (st : server) : Prop :=
  forall ws d n rest l,
    stage_of st ws = Some (SendingQueued d n rest) ->
    backlog_find d (device_commands st) = Some l ->
    exists done, l = done ++ rest.

(** The last field named ['video'], released, and the last text read from
    the fields of a given name. *)
Definition last_video (fields : list part) (before : option part) : option part :=
  fold_left (fun acc field =>
               if String.eqb (part_name field) "video" then Some (release field) else acc)
    fields before.

Definition last_text (name : string) (fields : list part) (before : string) : string :=
  fold_left (fun acc field =>
               if String.eqb (part_name field) name
               then match part_text field with inr text => text | inl _ => acc end
               else acc)
    fields before.

(** A ['camera_type'] or ['timestamp'] field whose content is not UTF-8. *)
Definition undecodable (field : part) : bool :=
  (String.eqb (part_name field) "camera_type" || String.eqb (part_name field) "timestamp")
  && match part_text field with inl _ => true | inr _ => false end.

Definition has_video (fields : list part) : bool :=
  existsb (fun field => String.eqb (part_name field) "video") fields.

(** ** Elementary facts *)

Lemma nth_error_update_nth {A : Type} (f : A -> A) (l : list A) (n m : nat) :
  nth_error (update_nth n f l) m =
  if Nat.eqb n m then option_map f (nth_error l m) else nth_error l m.
Proof.
  revert n m; induction l as [|x l IH]; intros [|n] [|m]; simpl; auto.
  - destruct (Nat.eqb n m); reflexivity.
Qed.

Lemma stage_of_suspend ws s st ws' :
  stage_of (suspend ws s st) ws' =
  if Nat.eqb ws ws'
  then match stage_of st ws' with Some _ => Some s | None => None end
  else stage_of st ws'.
Proof.
  unfold stage_of, suspend; simpl. rewrite nth_error_update_nth.
  destruct (Nat.eqb ws ws'); [destruct (nth_error (sockets st) ws')|]; reflexivity.
Qed.

Lemma stage_of_send_str ws m st ws' : stage_of (send_str ws m st) ws' = stage_of st ws'.
Proof.
  unfold stage_of, send_str; simpl. rewrite nth_error_update_nth.
  destruct (Nat.eqb ws ws'); [destruct (nth_error (sockets st) ws')|]; reflexivity.
Qed.

Lemma stage_of_close ws st ws' : stage_of (close ws st) ws' = stage_of st ws'.
Proof.
  unfold stage_of, close; simpl. rewrite nth_error_update_nth.
  destruct (Nat.eqb ws ws'); [destruct (nth_error (sockets st) ws')|]; reflexivity.
Qed.

Lemma sent_to_suspend ws s st ws' : sent_to (suspend ws s st) ws' = sent_to st ws'.
Proof.
  unfold sent_to, suspend; simpl. rewrite nth_error_update_nth.
  destruct (Nat.eqb ws ws'); [destruct (nth_error (sockets st) ws')|]; reflexivity.
Qed.


Lemma sent_to_send_str ws m st ws' :
  sent_to (send_str ws m st) ws' =
  if Nat.eqb ws ws'
  then match stage_of st ws' with Some _ => sent_to st ws' ++ [m] | None => [] end
  else sent_to st ws'.
Proof.
  unfold sent_to, stage_of, send_str; simpl. rewrite nth_error_update_nth.
  destruct (Nat.eqb ws ws'); [destruct (nth_error (sockets st) ws')|]; reflexivity.
Qed.

Lemma print_all_console es st : console (print_all es st) = console st ++ es.
Proof.
  revert st; induction es as [|e es IH]; intros st; simpl.
  - now rewrite app_nil_r.
  - rewrite IH. simpl. now rewrite <- app_assoc.
Qed.

Lemma print_all_rest es st :
  connected_clients (print_all es st) = connected_clients st /\
  device_commands (print_all es st) = device_commands st /\
  sockets (print_all es st) = sockets st.
Proof.
  revert st; induction es as [|e es IH]; intros st; simpl; auto.
  destruct (IH (print e st)) as (-> & -> & ->). auto.
Qed.

Lemma run_app (l1 l2 : list action) (st : server) : run (l1 ++ l2) st = run l2 (run l1 st).
Proof. unfold run. apply fold_left_app. Qed.

Lemma run_cons (a : action) (l : list action) (st : server) :
  run (a :: l) st = run l (step a st).
Proof. reflexivity. Qed.

Lemma reachable_run (l : list action) (st : server) : reachable st -> reachable (run l st).
Proof.
  revert st; induction l as [|a l IH]; intros st H; simpl; auto.
  apply IH. now constructor.
Qed.

(** *** [connected_clients] as a dictionary *)

Lemma dict_contains_In {V : Type} (key : nat) (d : list (nat * V)) :
  dict_contains key d = true <-> In key (map fst d).
Proof.
  induction d as [|[k v] d IH]; simpl.
  - split; [discriminate | tauto].
  - rewrite orb_true_iff, Nat.eqb_eq, IH. tauto.
Qed.

Lemma dict_set_fresh {V : Type} (key : nat) (v : V) (d : list (nat * V)) :
  ~ In key (map fst d) -> dict_set key v d = d ++ [(key, v)].
Proof.
  induction d as [|[k w] d IH]; simpl; intros H; auto.
  destruct (Nat.eqb_spec k key) as [->|_]; [tauto|].
  rewrite IH; tauto.
Qed.

Lemma dict_del_fresh {V : Type} (key : nat) (d : list (nat * V)) :
  ~ In key (map fst d) -> dict_del key d = d.
Proof.
  induction d as [|[k w] d IH]; simpl; intros H; auto.
  destruct (Nat.eqb_spec k key) as [->|_]; [tauto|].
  rewrite IH; tauto.
Qed.

Lemma dict_del_last {V : Type} (key : nat) (v : V) (d : list (nat * V)) :
  ~ In key (map fst d) -> dict_del key (d ++ [(key, v)]) = d.
Proof.
  induction d as [|[k w] d IH]; simpl; intros H.
  - now rewrite Nat.eqb_refl.
  - destruct (Nat.eqb_spec k key) as [->|_]; [tauto|].
    rewrite IH; tauto.
Qed.

Lemma dict_del_In {V : Type} (key : nat) (d : list (nat * V)) (e : nat * V) :
  In e (dict_del key d) -> In e d.
Proof.
  induction d as [|[k w] d IH]; simpl; auto.
  destruct (Nat.eqb k key); simpl; tauto.
Qed.

Lemma dict_del_keys {V : Type} (key k : nat) (d : list (nat * V)) :
  In k (map fst (dict_del key d)) -> In k (map fst d).
Proof.
  induction d as [|[k' w] d IH]; simpl; auto.
  destruct (Nat.eqb k' key); simpl; tauto.
Qed.

Lemma dict_del_NoDup {V : Type} (key : nat) (d : list (nat * V)) :
  NoDup (map fst d) -> NoDup (map fst (dict_del key d)).
Proof.
  induction d as [|[k w] d IH]; simpl; intros H; auto.
  inversion H as [|? ? Hk Hd]; subst.
  destruct (Nat.eqb k key); simpl; auto.
  constructor; auto. intros Hin. apply Hk. eapply dict_del_keys; eauto.
Qed.

Lemma dict_del_gone {V : Type} (key : nat) (d : list (nat * V)) :
  NoDup (map fst d) -> ~ In key (map fst (dict_del key d)).
Proof.
  induction d as [|[k w] d IH]; simpl; intros H; auto.
  inversion H as [|? ? Hk Hd]; subst.
  destruct (Nat.eqb_spec k key) as [->|Hne]; simpl; auto.
  intros [Heq|Hin]; [congruence | now apply IH].
Qed.

Lemma dict_del_other {V : Type} (key : nat) (d : list (nat * V)) (e : nat * V) :
  In e d -> fst e <> key -> In e (dict_del key d).
Proof.
  induction d as [|[k w] d IH]; simpl; auto.
  intros [<-|Hin] Hne; simpl in *.
  - destruct (Nat.eqb_spec k key); [congruence | now left].
  - destruct (Nat.eqb k key); simpl; auto.
Qed.

(** *** The [finally] block *)

Lemma finally_block_clients ws d st :
  connected_clients (finally_block ws d st) = dict_del ws (connected_clients st).
Proof.
  unfold finally_block.
  destruct (dict_contains ws (connected_clients st)) eqn:E; simpl; auto.
  symmetry. apply dict_del_fresh. rewrite <- dict_contains_In. congruence.
Qed.

Lemma finally_block_commands ws d st :
  device_commands (finally_block ws d st) = device_commands st.
Proof.
  unfold finally_block. destruct (dict_contains ws (connected_clients st)); reflexivity.
Qed.

Lemma finally_block_console ws d st :
  console (finally_block ws d st) = console st ++ [print_disconnected ws d (remote_of st ws)].
Proof.
  unfold finally_block. destruct (dict_contains ws (connected_clients st)); reflexivity.
Qed.

Lemma finally_block_stage ws d st ws' :
  stage_of (finally_block ws d st) ws' =
  if Nat.eqb ws ws'
  then match stage_of st ws' with Some _ => Some Returned | None => None end
  else stage_of st ws'.
Proof.
  unfold finally_block. rewrite stage_of_suspend.
  destruct (dict_contains ws (connected_clients st)); reflexivity.
Qed.

Lemma finally_block_sent ws d st ws' : sent_to (finally_block ws d st) ws' = sent_to st ws'.
Proof.
  unfold finally_block. rewrite sent_to_suspend.
  destruct (dict_contains ws (connected_clients st)); reflexivity.
Qed.

Lemma after_close_clients ws io st :
  connected_clients (after_close ws io st) = dict_del ws (connected_clients st).
Proof. unfold after_close, except_block. destruct io; now rewrite finally_block_clients. Qed.

Lemma after_close_commands ws io st :
  device_commands (after_close ws io st) = device_commands st.
Proof. unfold after_close, except_block. destruct io; now rewrite finally_block_commands. Qed.

Lemma after_close_stage ws io st ws' :
  stage_of (after_close ws io st) ws' =
  if Nat.eqb ws ws'
  then match stage_of st ws' with Some _ => Some Returned | None => None end
  else stage_of st ws'.
Proof. unfold after_close, except_block. destruct io; now rewrite finally_block_stage. Qed.


(** *** The registry invariant *)

Lemma registry_ok_weaken ws st : registry_ok st -> registry_ok_but ws st.
Proof. intros [H1 H2]; split; auto. Qed.

Lemma registry_ok_frame st st' :
  connected_clients st' = connected_clients st ->
  (forall w, stage_of st' w = stage_of st w) ->
  registry_ok st -> registry_ok st'.
Proof.
  intros Hc Hs [H1 H2]; unfold registry_ok, registered. rewrite Hc. split; auto.
  intros w i Hin. rewrite Hs. auto.
Qed.

Lemma registry_ok_but_frame ws st st' :
  connected_clients st' = connected_clients st ->
  (forall w, stage_of st' w = stage_of st w) ->
  registry_ok_but ws st -> registry_ok_but ws st'.
Proof.
  intros Hc Hs [H1 H2]; unfold registry_ok_but, registered. rewrite Hc. split; auto.
  intros w i Hin Hne. rewrite Hs. auto.
Qed.

Lemma registry_ok_finally ws d st : registry_ok_but ws st -> registry_ok (finally_block ws d st).
Proof.
  intros [H1 H2]; unfold registry_ok, registered.
  rewrite finally_block_clients. split.
  - now apply dict_del_NoDup.
  - intros w i Hin.
    assert (Hne : w <> ws).
    { intros ->. apply (dict_del_gone ws (connected_clients st) H1).
      change ws with (fst (ws, i)). now apply in_map. }
    rewrite finally_block_stage.
    destruct (Nat.eqb_spec ws w) as [->|_]; [congruence|].
    apply H2; auto. eapply dict_del_In; eauto.
Qed.

Lemma registry_ok_except ws d e st : registry_ok_but ws st -> registry_ok (except_block ws d e st).
Proof.
  intros H. unfold except_block. apply registry_ok_finally.
  revert H. now apply registry_ok_but_frame.
Qed.

Lemma registry_ok_suspend ws s d st :
  registry_ok_but ws st ->
  (forall i, In (ws, i) (connected_clients st) -> device_id i = d) ->
  serves (Some s) d ->
  stage_of st ws <> None ->
  registry_ok (suspend ws s st).
Proof.
  intros [H1 H2] Hd Hs Hsome. split; [exact H1|].
  intros w i Hin. simpl in Hin. rewrite stage_of_suspend.
  destruct (Nat.eqb_spec ws w) as [<-|Hne].
  - destruct (stage_of st ws); [|congruence].
    rewrite (Hd i Hin). exact Hs.
  - apply H2; auto.
Qed.

Lemma registry_ok_register ws entry st :
  registry_ok_but ws st -> ~ In ws (registered st) ->
  registry_ok_but ws (with_clients (dict_set ws entry (connected_clients st)) st).
Proof.
  intros [H1 H2] Hfresh. unfold registry_ok_but, registered; simpl.
  rewrite dict_set_fresh by exact Hfresh. split.
  - rewrite map_app; simpl. apply NoDup_app; auto.
    + repeat constructor; simpl; tauto.
    + intros x Hx [<-|[]]. now apply Hfresh.
  - intros w i Hin Hne. apply in_app_or in Hin as [Hin|[Heq|[]]].
    + now apply H2.
    + congruence.
Qed.

Lemma registry_ok_replay ws d n rest io st :
  registry_ok_but ws st ->
  (forall i, In (ws, i) (connected_clients st) -> device_id i = d) ->
  stage_of st ws <> None ->
  registry_ok (replay ws d n rest io st).
Proof.
  intros H Hd Hsome. unfold replay.
  destruct rest as [|cmd rest'].
  - destruct (backlog_del d (device_commands st)) as [cmds|e].
    + apply registry_ok_suspend with (d := d); simpl; auto.
    + now apply registry_ok_except.
  - destruct io as [e|].
    + now apply registry_ok_except.
    + apply registry_ok_suspend with (d := d); simpl; auto.
      * revert H. apply registry_ok_but_frame; auto.
        intros w. apply stage_of_send_str.
      * now rewrite stage_of_send_str.
Qed.

Lemma registry_ok_unregistered ws st :
  registry_ok st -> live (stage_of st ws) = false -> ~ In ws (registered st).
Proof.
  intros [_ H2] Hl Hin. unfold registered in Hin.
  apply in_map_iff in Hin as ([w i] & Hw & Hin); simpl in Hw; subst w.
  specialize (H2 _ _ Hin). destruct (stage_of st ws) as [[]|]; simpl in *; auto; discriminate.
Qed.

Lemma registry_ok_refuse ws s st :
  registry_ok st -> ~ In ws (registered st) ->
  registry_ok (suspend ws s (close ws st)).
Proof.
  intros [H1 H2] Hfresh. split; [exact H1|].
  intros w i Hin. simpl in Hin. rewrite stage_of_suspend, stage_of_close.
  destruct (Nat.eqb_spec ws w) as [<-|Hne]; [|now apply H2].
  exfalso. apply Hfresh. change ws with (fst (ws, i)). now apply in_map.
Qed.

Lemma registry_ok_registration ws arrival now io st :
  registry_ok st -> stage_of st ws = Some AwaitingRegistration ->
  registry_ok (registration ws arrival now io st).
Proof.
  intros Hok Hstage.
  assert (Hfresh : ~ In ws (registered st)).
  { apply registry_ok_unregistered; auto. now rewrite Hstage. }
  pose proof (registry_ok_weaken ws st Hok) as Hbut.
  unfold registration.
  destruct (wait_for 10000%N arrival) as [m|].
  2:{ apply registry_ok_finally. revert Hbut. now apply registry_ok_but_frame. }
  destruct m as [data| | | | | | |];
    try exact Hok; try (now apply registry_ok_refuse).
  destruct data as [reg_data|]; cbn [bind]; [|now apply registry_ok_except].
  destruct reg_data as [| | | | |items]; cbn [bind py_get]; try now apply registry_ok_except.
  set (device := dict_get items "device_id" _).
  set (entry := {| device_id := device; connected_at := now; address := remote_of st ws |}).
  set (st1 := print _ (with_clients _ st)).
  assert (Hbut1 : registry_ok_but ws st1).
  { apply registry_ok_but_frame with (st := with_clients (dict_set ws entry (connected_clients st)) st);
      auto. now apply registry_ok_register. }
  assert (Hd1 : forall i, In (ws, i) (connected_clients st1) -> device_id i = device).
  { intros i Hin. simpl in Hin. rewrite dict_set_fresh in Hin by exact Hfresh.
    apply in_app_or in Hin as [Hin|[Heq|[]]].
    - exfalso. apply Hfresh. change ws with (fst (ws, i)). now apply in_map.
    - now inversion Heq. }
  assert (Hs1 : stage_of st1 ws <> None).
  { change (stage_of st1 ws) with (stage_of st ws). congruence. }
  destruct (backlog_contains device (device_commands st1)) as [[|]|e].
  - destruct (backlog_find device (device_commands st1)) as [cmds|].
    + now apply registry_ok_replay.
    + now apply registry_ok_except.
  - apply registry_ok_suspend with (d := device); simpl; auto.
  - now apply registry_ok_except.
Qed.

Lemma registry_ok_after_close ws io st : registry_ok st -> registry_ok (after_close ws io st).
Proof.
  intros Hok. pose proof (registry_ok_weaken ws st Hok) as Hbut.
  unfold after_close. destruct io as [e|].
  - now apply registry_ok_except.
  - now apply registry_ok_finally.
Qed.

Lemma registry_ok_on_message ws d m disk_ok st :
  registry_ok st -> registry_ok (on_message ws d m disk_ok st).
Proof.
  intros Hok. pose proof (registry_ok_weaken ws st Hok) as Hbut.
  destruct m as [data| | | | | | |]; simpl; auto;
    try (now apply registry_ok_finally).
  - destruct (print_all_rest (route d data disk_ok) st) as (Hc & _ & Hs).
    revert Hok. apply registry_ok_frame; auto.
    intros w. unfold stage_of. now rewrite Hs.
Qed.

Lemma send_command_clients request now io st :
  connected_clients (fst (send_command request now io st)) = connected_clients st.
Proof.
  unfold send_command, send_command_try.
  destruct request as [data|]; simpl; auto.
  destruct data as [| | | | |items]; simpl; auto.
  destruct (find_target _ _) as [target_ws|].
  - destruct io; reflexivity.
  - destruct (enqueue _ _ _); reflexivity.
Qed.

Lemma send_command_stage request now io st w :
  stage_of (fst (send_command request now io st)) w = stage_of st w.
Proof.
  unfold send_command, send_command_try.
  destruct request as [data|]; simpl; auto.
  destruct data as [| | | | |items]; simpl; auto.
  destruct (find_target _ _) as [target_ws|].
  - destruct io; simpl; auto.
    change (stage_of (print ?e ?s) w) with (stage_of s w). apply stage_of_send_str.
  - destruct (enqueue _ _ _); reflexivity.
Qed.

Lemma stage_of_accept addr st w :
  stage_of (accept addr st) w =
  if Nat.ltb w (length (sockets st)) then stage_of st w
  else if Nat.eqb w (length (sockets st)) then Some AwaitingRegistration
  else None.
Proof.
  unfold stage_of, accept; simpl.
  destruct (Nat.ltb_spec w (length (sockets st))) as [Hlt|Hge].
  - now rewrite nth_error_app1.
  - rewrite nth_error_app2 by exact Hge.
    destruct (Nat.eqb_spec w (length (sockets st))) as [->|Hne].
    + now rewrite Nat.sub_diag.
    + destruct (w - length (sockets st)) as [|k] eqn:E; [lia|].
      simpl. now destruct k.
Qed.

Lemma stage_of_bound st w : stage_of st w <> None -> w < length (sockets st).
Proof.
  unfold stage_of. intros H. apply nth_error_Some.
  destruct (nth_error (sockets st) w); [discriminate | now elim H].
Qed.

Lemma stage_of_accept_old addr st w :
  stage_of st w <> None -> stage_of (accept addr st) w = stage_of st w.
Proof.
  intros H. rewrite stage_of_accept.
  apply stage_of_bound in H. apply Nat.ltb_lt in H. now rewrite H.
Qed.

Lemma registry_ok_step a st : registry_ok st -> registry_ok (step a st).
Proof.
  intros Hok. destruct a as [addr|ws r|request now io]; simpl.
  - destruct Hok as [H1 H2]. split; [exact H1|].
    intros w i Hin. simpl in Hin. specialize (H2 w i Hin).
    rewrite stage_of_accept_old; auto.
    destruct (stage_of st w); [discriminate | elim H2].
  - unfold websocket_handler.
    destruct (stage_of st ws) as [[| |d n rest|d|]|] eqn:Hs; destruct r; auto.
    + now apply registry_ok_registration.
    + now apply registry_ok_after_close.
    + apply registry_ok_replay.
      * now apply registry_ok_weaken.
      * intros i Hin. destruct Hok as [_ H2]. specialize (H2 _ _ Hin).
        rewrite Hs in H2. now simpl in H2.
      * congruence.
    + now apply registry_ok_on_message.
  - revert Hok. apply registry_ok_frame.
    + apply send_command_clients.
    + apply send_command_stage.
Qed.

Lemma reachable_registry_ok st : reachable st -> registry_ok st.
Proof.
  induction 1 as [|a st _ IH].
  - split; [constructor | intros ? ? []].
  - now apply registry_ok_step.
Qed.

(** *** Progress of the coroutines *)

Lemma teardowns_app ws out e :
  teardowns ws (out ++ [e]) = teardowns ws out + (if is_teardown ws e then 1 else 0).
Proof.
  unfold teardowns. rewrite filter_app, length_app. simpl.
  destruct (is_teardown ws e); reflexivity.
Qed.

Lemma teardowns_quiet ws out es :
  forallb (fun e => negb (is_teardown ws e)) es = true ->
  teardowns ws (out ++ es) = teardowns ws out.
Proof.
  intros H. unfold teardowns. rewrite filter_app, length_app.
  replace (filter (is_teardown ws) es) with (@nil event); [simpl; lia|].
  induction es as [|e es IH]; simpl in *; auto.
  apply andb_true_iff in H as [He Hes].
  destruct (is_teardown ws e); [discriminate | auto].
Qed.

Lemma route_quiet ws d data disk_ok :
  forallb (fun e => negb (is_teardown ws e)) (route d data disk_ok) = true.
Proof.
  unfold route. destruct data as [[| | | | |items]|]; try reflexivity.
  cbv zeta.
  repeat match goal with
         | |- context [if ?c then _ else _] => destruct c
         | |- context [match b64decode ?x with _ => _ end] => destruct (b64decode x)
         end; reflexivity.
Qed.

Lemma effect_finally ws d st st1 w s0 :
  (forall w, stage_of st1 w = stage_of st w) ->
  (forall w, teardowns w (console st1) = teardowns w (console st)) ->
  stage_of st ws = Some s0 -> 1 <= rank (Some s0) -> rank (Some s0) <= 3 ->
  step_effect (stage_of st w) (stage_of (finally_block ws d st1) w)
    (teardowns w (console st)) (teardowns w (console (finally_block ws d st1))).
Proof.
  intros Hs Ht H0 Hlo Hhi. unfold step_effect.
  rewrite finally_block_stage, finally_block_console, teardowns_app, Hs, Ht. simpl.
  destruct (Nat.eqb_spec ws w) as [<-|Hne].
  - rewrite H0. right; right. repeat split; auto; lia.
  - left. split; auto; lia.
Qed.

Lemma effect_suspend ws s st st1 w s0 :
  (forall w, stage_of st1 w = stage_of st w) ->
  (forall w, teardowns w (console st1) = teardowns w (console st)) ->
  stage_of st ws = Some s0 -> rank (Some s0) <= rank (Some s) -> rank (Some s) <= 3 ->
  step_effect (stage_of st w) (stage_of (suspend ws s st1) w)
    (teardowns w (console st)) (teardowns w (console (suspend ws s st1))).
Proof.
  intros Hs Ht H0 Hhi Hr. unfold step_effect.
  rewrite stage_of_suspend, Hs.
  change (console (suspend ws s st1)) with (console st1). rewrite Ht.
  destruct (Nat.eqb_spec ws w) as [<-|Hne]; [|now left].
  rewrite H0. right; left. repeat split; auto; lia.
Qed.

Lemma effect_replay ws d n rest io st st1 w s0 :
  (forall w, stage_of st1 w = stage_of st w) ->
  (forall w, teardowns w (console st1) = teardowns w (console st)) ->
  stage_of st ws = Some s0 -> 1 <= rank (Some s0) -> rank (Some s0) <= 2 ->
  step_effect (stage_of st w) (stage_of (replay ws d n rest io st1) w)
    (teardowns w (console st)) (teardowns w (console (replay ws d n rest io st1))).
Proof.
  intros Hs Ht H0 Hlo Hhi. unfold replay, except_block.
  destruct rest as [|cmd rest'].
  - destruct (backlog_del d (device_commands st1)) as [cmds|e].
    + eapply effect_suspend; eauto; simpl; auto.
      intros w'. simpl. rewrite teardowns_app. simpl. rewrite Ht. lia.
    + eapply effect_finally; eauto.
      intros w'. simpl. rewrite teardowns_app. simpl. rewrite Ht. lia.
  - destruct io as [e|].
    + eapply effect_finally; eauto.
      intros w'. simpl. rewrite teardowns_app. simpl. rewrite Ht. lia.
    + eapply effect_suspend; eauto; simpl; auto.
      intros w'. rewrite stage_of_send_str. apply Hs.
Qed.

Lemma effect_registration ws arrival now io st w :
  stage_of st ws = Some AwaitingRegistration ->
  step_effect (stage_of st w) (stage_of (registration ws arrival now io st) w)
    (teardowns w (console st)) (teardowns w (console (registration ws arrival now io st))).
Proof.
  intros H0. unfold registration, except_block.
  assert (Hq : forall e st1, (forall w, teardowns w (console st1) = teardowns w (console st)) ->
                 is_teardown w e = false ->
                 teardowns w (console (print e st1)) = teardowns w (console st)).
  { intros e st1 Ht He. simpl. now rewrite teardowns_app, He, Ht, Nat.add_0_r. }
  destruct (wait_for 10000%N arrival) as [m|].
  2:{ eapply effect_finally; eauto. intros w'. simpl. rewrite teardowns_app. simpl. lia. }
  destruct m as [data| | | | | | |];
    try (now left);
    try (apply effect_suspend with (s0 := AwaitingRegistration); simpl; auto;
         intros w'; apply stage_of_close).
  assert (Hexc : forall e d st1,
             (forall w, stage_of st1 w = stage_of st w) ->
             (forall w, teardowns w (console st1) = teardowns w (console st)) ->
             step_effect (stage_of st w)
               (stage_of (finally_block ws d (print (print_ws_exception e) st1)) w)
               (teardowns w (console st))
               (teardowns w (console (finally_block ws d (print (print_ws_exception e) st1))))).
  { intros e d st1 Hs Ht. eapply effect_finally; eauto.
    intros w'. simpl. rewrite teardowns_app. simpl. rewrite Ht. lia. }
  destruct data as [reg_data|]; cbn [bind]; [|now apply Hexc].
  destruct reg_data as [| | | | |items]; cbn [bind py_get]; try now apply Hexc.
  set (device := dict_get items "device_id" _).
  set (st1 := print _ (with_clients _ st)).
  assert (Hs1 : forall w, stage_of st1 w = stage_of st w) by reflexivity.
  assert (Ht1 : forall w, teardowns w (console st1) = teardowns w (console st)).
  { intros w'. unfold st1. simpl. rewrite teardowns_app. simpl. lia. }
  destruct (backlog_contains device (device_commands st1)) as [[|]|e].
  - destruct (backlog_find device (device_commands st1)) as [cmds|].
    + eapply effect_replay; eauto.
    + now apply Hexc.
  - apply effect_suspend with (s0 := AwaitingRegistration); simpl; auto.
  - now apply Hexc.
Qed.

Lemma effect_after_close ws io st w :
  stage_of st ws = Some AwaitingClose ->
  step_effect (stage_of st w) (stage_of (after_close ws io st) w)
    (teardowns w (console st)) (teardowns w (console (after_close ws io st))).
Proof.
  intros H0. unfold after_close, except_block. destruct io as [e|].
  - apply effect_finally with (s0 := AwaitingClose); simpl; auto.
    intros w'. rewrite teardowns_app. simpl. lia.
  - apply effect_finally with (s0 := AwaitingClose); simpl; auto.
Qed.

Lemma effect_on_message ws d m disk_ok st w :
  stage_of st ws = Some (Listening d) ->
  step_effect (stage_of st w) (stage_of (on_message ws d m disk_ok st) w)
    (teardowns w (console st)) (teardowns w (console (on_message ws d m disk_ok st))).
Proof.
  intros H0.
  destruct m as [data| | | | | | |]; simpl;
    try (now left);
    try (apply effect_finally with (s0 := Listening d); simpl; auto; fail).
  - left. destruct (print_all_rest (route d data disk_ok) st) as (_ & _ & Hs).
    unfold stage_of. rewrite Hs, print_all_console. split; auto.
    apply teardowns_quiet, route_quiet.
  - apply effect_finally with (s0 := Listening d); simpl; auto.
    intros w'. rewrite teardowns_app. simpl. lia.
Qed.

Lemma send_command_console_quiet request now io st w :
  teardowns w (console (fst (send_command request now io st))) = teardowns w (console st).
Proof.
  unfold send_command, send_command_try.
  assert (He : forall e, teardowns w (console st ++ [print_command_error e]) =
                         teardowns w (console st)).
  { intros e. rewrite teardowns_app. simpl. lia. }
  destruct request as [data|]; simpl; auto.
  destruct data as [| | | | |items]; simpl; auto.
  destruct (find_target _ _) as [target_ws|].
  - destruct io; simpl; auto. rewrite teardowns_app. simpl. lia.
  - destruct (enqueue _ _ _); simpl; auto.
Qed.

Lemma step_effect_holds a st w :
  teardown_once st ->
  step_effect (stage_of st w) (stage_of (step a st) w)
    (teardowns w (console st)) (teardowns w (console (step a st))).
Proof.
  intros Honce. destruct a as [addr|ws r|request now io]; simpl.
  - change (console (accept addr st)) with (console st).
    rewrite stage_of_accept.
    destruct (Nat.ltb_spec w (length (sockets st))) as [Hlt|Hge]; [now left|].
    assert (Hnone : stage_of st w = None).
    { unfold stage_of. replace (nth_error (sockets st) w) with (@None socket); auto.
      symmetry. now apply nth_error_None. }
    rewrite Hnone. destruct (Nat.eqb w (length (sockets st))); [|now left].
    right; left. simpl. repeat split; lia.
  - unfold websocket_handler.
    destruct (stage_of st ws) as [[| |d n rest|d|]|] eqn:Hs; destruct r; try (now left).
    + now apply effect_registration.
    + now apply effect_after_close.
    + eapply effect_replay; eauto; simpl; lia.
    + now apply effect_on_message.
  - left. split.
    + apply send_command_stage.
    + apply send_command_console_quiet.
Qed.

Lemma teardown_once_step a st : teardown_once st -> teardown_once (step a st).
Proof.
  intros Honce w. specialize (Honce w) as Hw.
  destruct (step_effect_holds a st w Honce) as [[-> ->]|[(Hlo & Hhi & ->)|(Hlo & Hhi & -> & ->)]]; auto.
  - rewrite Hw.
    destruct (Nat.eqb_spec (rank (stage_of st w)) 4); [lia|].
    destruct (Nat.eqb_spec (rank (stage_of (step a st) w)) 4); [lia|]. reflexivity.
  - rewrite Hw. destruct (Nat.eqb_spec (rank (stage_of st w)) 4); [lia|]. reflexivity.
Qed.

Lemma reachable_teardown_once st : reachable st -> teardown_once st.
Proof.
  induction 1 as [|a st _ IH].
  - intros w. unfold stage_of. simpl. now destruct w.
  - now apply teardown_once_step.
Qed.

Lemma rank_step a st w : reachable st -> rank (stage_of st w) <= rank (stage_of (step a st) w).
Proof.
  intros Hr.
  destruct (step_effect_holds a st w (reachable_teardown_once st Hr))
    as [[-> _]|[(Hlo & _)|(Hlo & Hhi & -> & _)]]; simpl; lia.
Qed.

Lemma rank_run l st w : reachable st -> rank (stage_of st w) <= rank (stage_of (run l st) w).
Proof.
  revert st; induction l as [|a l IH]; intros st Hr; simpl; auto.
  etransitivity; [apply (rank_step a st w Hr)|]. apply IH. now constructor.
Qed.

(** *** Keys of [device_commands] *)

Lemma py_eq_refl (d : json) : hashable d = true -> py_eq d d = true.
Proof.
  destruct d as [|b|z|s| |]; simpl; intros H; try discriminate; auto.
  - now destruct b.
  - apply Z.eqb_refl.
  - apply String.eqb_refl.
Qed.

Lemma py_eq_sym (a b : json) :
  hashable a = true -> hashable b = true -> py_eq a b = py_eq b a.
Proof.
  destruct a as [|x|x|x| |], b as [|y|y|y| |]; simpl; intros Ha Hb;
    try discriminate; auto.
  - now destruct x, y.
  - apply Z.eqb_sym.
  - apply Z.eqb_sym.
  - apply Z.eqb_sym.
  - apply String.eqb_sym.
Qed.

Lemma py_eq_trans (a b c : json) :
  hashable a = true -> hashable b = true -> hashable c = true ->
  py_eq a b = true -> py_eq b c = true -> py_eq a c = true.
Proof.
  destruct a as [|x|x|x| |], b as [|y|y|y| |], c as [|z|z|z| |]; simpl;
    intros Ha Hb Hc Hab Hbc; try discriminate; auto;
    repeat match goal with
           | H : Bool.eqb _ _ = true |- _ => apply Bool.eqb_prop in H
           | H : Z.eqb _ _ = true |- _ => apply Z.eqb_eq in H
           | H : String.eqb _ _ = true |- _ => apply String.eqb_eq in H
           end;
    subst;
    try apply Z.eqb_refl; try apply String.eqb_refl;
    try (destruct x; destruct z; simpl in *; congruence);
    try (destruct y; reflexivity);
    try (destruct z; reflexivity).
Qed.

Lemma backlog_find_set {V : Type} (d : json) (v : V) (cmds : list (json * V)) :
  hashable d = true -> backlog_find d (backlog_set d v cmds) = Some v.
Proof.
  intros Hd. induction cmds as [|[k w] cmds IH]; simpl.
  - now rewrite py_eq_refl.
  - destruct (py_eq k d) eqn:E; simpl; now rewrite E.
Qed.

Lemma enqueue_tail (d : json) (q : queued) (cmds : list (json * list queued)) :
  hashable d = true ->
  exists cmds',
    enqueue d q cmds = Ok cmds' /\
    backlog_find d cmds' =
      Some (match backlog_find d cmds with Some l => l | None => [] end ++ [q]).
Proof.
  intros Hd. unfold enqueue, backlog_contains. rewrite Hd. cbn [bind].
  destruct (backlog_find d cmds) as [l|] eqn:E.
  - rewrite E. eexists; split; [reflexivity|]. now apply backlog_find_set.
  - rewrite backlog_find_set by exact Hd.
    eexists; split; [reflexivity|]. now apply backlog_find_set.
Qed.

(** *** The three outcomes of [send_command] *)

Lemma send_command_miss items now io st :
  let device := dict_get items "device_id" (JStr "default") in
  let q := {| command := dict_get items "command" JNull;
              params := dict_get items "params" (JObj []);
              timestamp := now |} in
  find_target (connected_clients st) device = None ->
  hashable device = true ->
  exists cmds',
    enqueue device q (device_commands st) = Ok cmds' /\
    send_command (Some (JObj items)) now io st = (with_commands cmds' st, queued_response) /\
    backlog_of device (with_commands cmds' st) = backlog_of device st ++ [q].
Proof.
  intros device q Hmiss Hd.
  destruct (enqueue_tail device q (device_commands st) Hd) as (cmds' & He & Hfind).
  exists cmds'. split_and; [exact He| |].
  - unfold send_command, send_command_try. cbn [bind py_get].
    fold device. rewrite Hmiss. fold q. rewrite He. reflexivity.
  - unfold backlog_of at 1. simpl device_commands. now rewrite Hfind.
Qed.

Lemma send_command_hit items now st target_ws :
  let device := dict_get items "device_id" (JStr "default") in
  let cmd := dict_get items "command" JNull in
  let prm := dict_get items "params" (JObj []) in
  find_target (connected_clients st) device = Some target_ws ->
  send_command (Some (JObj items)) now None st =
    (print (print_command_sent device cmd) (send_str target_ws (command_msg cmd prm now) st),
     sent_response cmd).
Proof.
  intros device cmd prm Hhit.
  unfold send_command, send_command_try. cbn [bind py_get].
  fold device. now rewrite Hhit.
Qed.

Lemma send_command_send_fails items now e st target_ws :
  find_target (connected_clients st) (dict_get items "device_id" (JStr "default"))
    = Some target_ws ->
  send_command (Some (JObj items)) now (Some e) st =
    (print (print_command_error e) st, error_response e).
Proof.
  intros Hhit.
  unfold send_command, send_command_try. cbn [bind py_get].
  now rewrite Hhit.
Qed.

Lemma find_target_registered clients d ws :
  find_target clients d = Some ws ->
  exists i, In (ws, i) clients /\ py_eq (device_id i) d = true.
Proof.
  induction clients as [|[w i] clients IH]; simpl; [discriminate|].
  destruct (py_eq (device_id i) d) eqn:E.
  - intros [= ->]. exists i. auto.
  - intros H. destruct (IH H) as (i' & Hin & Heq). exists i'. auto.
Qed.

Lemma find_target_some clients d ws i :
  In (ws, i) clients -> py_eq (device_id i) d = true -> find_target clients d <> None.
Proof.
  induction clients as [|[w j] clients IH]; simpl; [tauto|].
  intros [Heq|Hin] Hd.
  - inversion Heq; subst. now rewrite Hd.
  - destruct (py_eq (device_id j) d); [discriminate | auto].
Qed.

(** *** A registration that succeeds, and the replay that follows *)


Lemma close_calls_update n f l :
  (forall k, close_called (f k) = close_called k) ->
  map close_called (update_nth n f l) = map close_called l.
Proof.
  intros Hf. revert n; induction l as [|k l IH]; intros [|n]; simpl; auto.
  - now rewrite Hf.
  - now rewrite IH.
Qed.

Lemma close_calls_suspend ws s st : close_calls (suspend ws s st) = close_calls st.
Proof. unfold close_calls, suspend; simpl. now apply close_calls_update. Qed.

Lemma close_calls_send_str ws m st : close_calls (send_str ws m st) = close_calls st.
Proof. unfold close_calls, send_str; simpl. now apply close_calls_update. Qed.

Lemma stage_of_suspended ws s st :
  stage_of st ws <> None -> stage_of (suspend ws s st) ws = Some s.
Proof.
  intros H. rewrite stage_of_suspend, Nat.eqb_refl.
  destruct (stage_of st ws); congruence.
Qed.

Lemma sent_to_sent ws m st :
  stage_of st ws <> None -> sent_to (send_str ws m st) ws = sent_to st ws ++ [m].
Proof.
  intros H. rewrite sent_to_send_str, Nat.eqb_refl.
  destruct (stage_of st ws); congruence.
Qed.

Lemma untouched_suspend_send ws s m st st1 :
  sockets st1 = sockets st -> untouched_but ws st (suspend ws s (send_str ws m st1)).
Proof.
  intros Hs w Hne.
  rewrite stage_of_suspend, sent_to_suspend, stage_of_send_str, sent_to_send_str.
  destruct (Nat.eqb_spec ws w); [congruence|].
  unfold stage_of, sent_to. now rewrite Hs.
Qed.

Lemma untouched_suspend ws s st st1 :
  sockets st1 = sockets st -> untouched_but ws st (suspend ws s st1).
Proof.
  intros Hs w Hne. rewrite stage_of_suspend, sent_to_suspend.
  destruct (Nat.eqb_spec ws w); [congruence|].
  unfold stage_of, sent_to. now rewrite Hs.
Qed.

Lemma registration_accepts ws t items now st :
  let device := dict_get items "device_id"
                  (JStr ("device_" ++ str_nat (length (connected_clients st)))) in
  let entry := {| device_id := device; connected_at := now; address := remote_of st ws |} in
  let st' := registration ws (Some (t, TEXT (Some (JObj items)))) now None st in
  stage_of st ws = Some AwaitingRegistration ->
  ~ In ws (registered st) ->
  (t < 10000)%N ->
  hashable device = true ->
  connected_clients st' = connected_clients st ++ [(ws, entry)] /\
  untouched_but ws st st' /\
  close_calls st' = close_calls st /\
  match backlog_find device (device_commands st) with
  | Some (cmd :: rest) =>
      stage_of st' ws = Some (SendingQueued device (S (length rest)) rest) /\
      sent_to st' ws = sent_to st ws ++ [replayed cmd] /\
      device_commands st' = device_commands st
  | Some [] =>
      stage_of st' ws = Some (Listening device) /\
      sent_to st' ws = sent_to st ws /\
      device_commands st' = backlog_remove device (device_commands st)
  | None =>
      stage_of st' ws = Some (Listening device) /\
      sent_to st' ws = sent_to st ws /\
      device_commands st' = device_commands st
  end.
Proof.
  intros device entry st' Hs Hfresh Ht Hd.
  assert (Hsome : stage_of st ws <> None) by congruence.
  unfold st', registration, wait_for.
  apply N.ltb_lt in Ht. rewrite Ht. cbn [bind py_get]. fold device. fold entry.
  set (st1 := print _ (with_clients _ st)).
  change (device_commands st1) with (device_commands st).
  unfold backlog_contains. rewrite Hd.
  assert (Hc1 : connected_clients st1 = connected_clients st ++ [(ws, entry)]).
  { unfold st1; simpl. now apply dict_set_fresh. }
  assert (Hs1 : stage_of st1 ws <> None) by exact Hsome.
  destruct (backlog_find device (device_commands st)) as [[|cmd rest]|] eqn:Ef.
  - unfold replay, backlog_del.
    change (device_commands st1) with (device_commands st). rewrite Hd, Ef.
    split_and; try reflexivity.
    + exact Hc1.
    + now apply untouched_suspend.
    + now rewrite close_calls_suspend.
    + now rewrite stage_of_suspended.
    + now rewrite sent_to_suspend.
  - unfold replay. split_and; try reflexivity.
    + exact Hc1.
    + now apply untouched_suspend_send.
    + now rewrite close_calls_suspend, close_calls_send_str.
    + rewrite stage_of_suspended; auto. now rewrite stage_of_send_str.
    + rewrite sent_to_suspend. now rewrite sent_to_sent.
  - split_and; try reflexivity.
    + exact Hc1.
    + now apply untouched_suspend.
    + now rewrite close_calls_suspend.
    + now rewrite stage_of_suspended.
    + now rewrite sent_to_suspend.
Qed.

Lemma replay_completes rest : forall ws d n st,
  let st' := run (repeat (Resume ws (SendDone None)) (S (length rest))) st in
  stage_of st ws = Some (SendingQueued d n rest) ->
  hashable d = true ->
  backlog_find d (device_commands st) <> None ->
  stage_of st' ws = Some (Listening d) /\
  sent_to st' ws = sent_to st ws ++ map replayed rest /\
  device_commands st' = backlog_remove d (device_commands st) /\
  connected_clients st' = connected_clients st /\
  untouched_but ws st st' /\
  close_calls st' = close_calls st.
Proof.
  induction rest as [|cmd rest IH]; intros ws d n st st' Hs Hd Hq.
  - unfold st'. simpl. unfold websocket_handler. rewrite Hs.
    unfold replay, backlog_del. rewrite Hd.
    destruct (backlog_find d (device_commands st)); [|congruence].
    assert (Hsome : stage_of st ws <> None) by congruence.
    split_and; try reflexivity.
    + now rewrite stage_of_suspended.
    + rewrite sent_to_suspend. simpl. now rewrite app_nil_r.
    + now apply untouched_suspend.
    + now rewrite close_calls_suspend.
  - unfold st'.
    change (repeat (Resume ws (SendDone None)) (S (length (cmd :: rest))))
      with (Resume ws (SendDone None) :: repeat (Resume ws (SendDone None)) (S (length rest))).
    rewrite run_cons. cbn [step]. unfold websocket_handler. rewrite Hs. cbn [replay].
    set (st1 := suspend ws _ (send_str ws _ st)).
    assert (Hsome : stage_of st ws <> None) by congruence.
    assert (Hs1 : stage_of st1 ws = Some (SendingQueued d n rest)).
    { unfold st1. rewrite stage_of_suspended; auto. now rewrite stage_of_send_str. }
    destruct (IH ws d n st1 Hs1 Hd Hq) as (H1 & H2 & H3 & H4 & H5 & H6).
    split_and; auto.
    + rewrite H2. unfold st1. rewrite sent_to_suspend, sent_to_sent by exact Hsome.
      simpl. now rewrite <- app_assoc.
    + intros w Hne. destruct (H5 w Hne) as [-> ->].
      now apply (untouched_suspend_send ws _ _ st st).
    + rewrite H6. unfold st1. now rewrite close_calls_suspend, close_calls_send_str.
Qed.

(** *** [device_commands] stays a dictionary *)

Lemma backlog_find_equiv (k d : json) (cmds : list (json * list queued)) :
  keys_ok cmds -> hashable k = true -> hashable d = true -> py_eq k d = true ->
  backlog_find k cmds = None -> backlog_find d cmds = None.
Proof.
  intros Hok Hk Hd Hkd. induction cmds as [|[k' w] cmds IH]; simpl; auto.
  destruct Hok as (Hk' & _ & Hok).
  destruct (py_eq k' k) eqn:E; [discriminate|]. intros Hnone.
  destruct (py_eq k' d) eqn:E'; [|now apply IH].
  rewrite (py_eq_trans k' d k) in E; auto; [discriminate|].
  rewrite py_eq_sym; auto.
Qed.

Lemma backlog_find_remove_other (k d : json) (cmds : list (json * list queued)) :
  backlog_find k cmds = None -> backlog_find k (backlog_remove d cmds) = None.
Proof.
  induction cmds as [|[k' w] cmds IH]; simpl; auto.
  destruct (py_eq k' k) eqn:E; [discriminate|]. intros Hnone.
  destruct (py_eq k' d); simpl; auto. rewrite E. auto.
Qed.

Lemma backlog_find_set_other (k d : json) (v : list queued) (cmds : list (json * list queued)) :
  py_eq d k = false ->
  backlog_find k cmds = None -> backlog_find k (backlog_set d v cmds) = None.
Proof.
  intros Hdk. induction cmds as [|[k' w] cmds IH]; simpl.
  - now rewrite Hdk.
  - destruct (py_eq k' k) eqn:E; [discriminate|]. intros Hnone.
    destruct (py_eq k' d); simpl; rewrite E; auto.
Qed.

Lemma backlog_find_removed (d : json) (cmds : list (json * list queued)) :
  keys_ok cmds -> hashable d = true -> backlog_find d (backlog_remove d cmds) = None.
Proof.
  intros Hok Hd. induction cmds as [|[k w] cmds IH]; simpl; auto.
  destruct Hok as (Hk & Hnone & Hok).
  destruct (py_eq k d) eqn:E.
  - now apply backlog_find_equiv with (k := k).
  - simpl. rewrite E. now apply IH.
Qed.

Lemma keys_ok_remove (d : json) (cmds : list (json * list queued)) :
  keys_ok cmds -> keys_ok (backlog_remove d cmds).
Proof.
  induction cmds as [|[k w] cmds IH]; simpl; auto.
  intros (Hk & Hnone & Hok). destruct (py_eq k d); simpl; auto.
  split_and; auto. now apply backlog_find_remove_other.
Qed.

Lemma keys_ok_set (d : json) (v : list queued) (cmds : list (json * list queued)) :
  hashable d = true -> keys_ok cmds -> keys_ok (backlog_set d v cmds).
Proof.
  intros Hd. induction cmds as [|[k w] cmds IH]; simpl; auto.
  intros (Hk & Hnone & Hok). destruct (py_eq k d) eqn:E; simpl; auto.
  split_and; auto. apply backlog_find_set_other; auto.
  rewrite py_eq_sym; auto.
Qed.

Lemma enqueue_hashable (d : json) (q : queued) (cmds cmds' : list (json * list queued)) :
  enqueue d q cmds = Ok cmds' -> hashable d = true.
Proof.
  unfold enqueue, backlog_contains. destruct (hashable d); [reflexivity | discriminate].
Qed.

Lemma keys_ok_enqueue (d : json) (q : queued) (cmds cmds' : list (json * list queued)) :
  enqueue d q cmds = Ok cmds' -> keys_ok cmds -> keys_ok cmds'.
Proof.
  intros He Hok. pose proof (enqueue_hashable _ _ _ _ He) as Hd.
  revert He. unfold enqueue, backlog_contains. rewrite Hd. cbn [bind].
  destruct (backlog_find d cmds) as [l|] eqn:E.
  - rewrite E. intros [= <-]. now apply keys_ok_set.
  - rewrite backlog_find_set by exact Hd. intros [= <-].
    apply keys_ok_set; auto. now apply keys_ok_set.
Qed.

Lemma enqueue_other (d k : json) (q : queued) (cmds cmds' : list (json * list queued)) :
  enqueue d q cmds = Ok cmds' -> py_eq d k = false ->
  backlog_find k cmds = None -> backlog_find k cmds' = None.
Proof.
  intros He Hdk Hnone. pose proof (enqueue_hashable _ _ _ _ He) as Hd.
  revert He. unfold enqueue, backlog_contains. rewrite Hd. cbn [bind].
  destruct (backlog_find d cmds) as [l|] eqn:E.
  - rewrite E. intros [= <-]. now apply backlog_find_set_other.
  - rewrite backlog_find_set by exact Hd. intros [= <-].
    apply backlog_find_set_other; auto. now apply backlog_find_set_other.
Qed.

(** What [step] can do to [device_commands]. *)
Lemma replay_commands ws d n rest io st :
  device_commands (replay ws d n rest io st) = device_commands st \/
  device_commands (replay ws d n rest io st) = backlog_remove d (device_commands st).
Proof.
  unfold replay, except_block. destruct rest as [|cmd rest'].
  - destruct (backlog_del d (device_commands st)) as [cmds|e] eqn:E.
    + right. simpl. revert E. unfold backlog_del.
      destruct (hashable d); [|discriminate].
      destruct (backlog_find d (device_commands st)); [|discriminate]. now intros [= <-].
    + left. now rewrite finally_block_commands.
  - left. destruct io; [now rewrite finally_block_commands | reflexivity].
Qed.

Lemma registration_commands ws arrival now io st :
  device_commands (registration ws arrival now io st) = device_commands st \/
  exists d, device_commands (registration ws arrival now io st)
            = backlog_remove d (device_commands st).
Proof.
  unfold registration, except_block.
  destruct (wait_for 10000%N arrival) as [m|]; [|left; now rewrite finally_block_commands].
  destruct m as [data| | | | | | |]; try (left; reflexivity).
  destruct data as [reg_data|]; cbn [bind]; [|left; now rewrite finally_block_commands].
  destruct reg_data as [| | | | |items]; cbn [bind py_get];
    try (left; now rewrite finally_block_commands).
  set (device := dict_get items "device_id" _).
  set (st1 := print _ (with_clients _ st)).
  destruct (backlog_contains device (device_commands st1)) as [[|]|e];
    try (left; now rewrite ?finally_block_commands).
  destruct (backlog_find device (device_commands st1)) as [cmds|];
    [|left; now rewrite finally_block_commands].
  destruct (replay_commands ws device (length cmds) cmds io st1) as [->| ->]; eauto.
Qed.

Lemma on_message_commands ws d m disk_ok st :
  device_commands (on_message ws d m disk_ok st) = device_commands st.
Proof.
  destruct m as [data| | | | | | |]; unfold on_message; auto;
    try now rewrite finally_block_commands.
  now destruct (print_all_rest (route d data disk_ok) st) as (_ & -> & _).
Qed.

Lemma send_command_commands request now io st :
  device_commands (fst (send_command request now io st)) = device_commands st \/
  exists items q,
    request = Some (JObj items) /\
    find_target (connected_clients st) (dict_get items "device_id" (JStr "default")) = None /\
    enqueue (dict_get items "device_id" (JStr "default")) q (device_commands st)
      = Ok (device_commands (fst (send_command request now io st))).
Proof.
  unfold send_command, send_command_try.
  destruct request as [data|]; simpl; auto.
  destruct data as [| | | | |items]; simpl; auto.
  destruct (find_target _ _) as [target_ws|] eqn:Ef.
  - destruct io; simpl; auto.
  - destruct (enqueue _ _ _) eqn:E; simpl; auto.
    right. exists items. eexists. split_and; eauto.
Qed.

Lemma step_commands a st :
  device_commands (step a st) = device_commands st \/
  (exists d, device_commands (step a st) = backlog_remove d (device_commands st)) \/
  (exists d q, enqueue d q (device_commands st) = Ok (device_commands (step a st))).
Proof.
  destruct a as [addr|ws r|request now io]; simpl; auto.
  - unfold websocket_handler.
    destruct (stage_of st ws) as [[| |d n rest|d|]|]; destruct r; auto.
    + destruct (registration_commands ws arrival now io st) as [H|H]; auto.
    + left. apply after_close_commands.
    + destruct (replay_commands ws d n rest io st) as [H|H]; eauto.
    + left. apply on_message_commands.
  - destruct (send_command_commands request now io st) as [H|(items & q & _ & _ & H)]; eauto.
Qed.

Lemma reachable_keys_ok st : reachable st -> keys_ok (device_commands st).
Proof.
  induction 1 as [|a st _ IH]; simpl; auto.
  destruct (step_commands a st) as [->|[[d ->]|(d & q & He)]]; auto.
  - now apply keys_ok_remove.
  - eapply keys_ok_enqueue; eauto.
Qed.

(** *** A socket that listens has no backlog *)

Lemma find_target_none clients d ws i :
  find_target clients d = None -> In (ws, i) clients -> py_eq (device_id i) d = false.
Proof.
  intros Hnone Hin. destruct (py_eq (device_id i) d) eqn:E; auto.
  now elim (find_target_some clients d ws i Hin E).
Qed.

Lemma queue_ok_frame st st' :
  queue_ok st ->
  (forall w i, In (w, i) (connected_clients st') ->
     In (w, i) (connected_clients st) /\
     (forall d, stage_of st' w = Some (Listening d) -> stage_of st w = Some (Listening d)) /\
     (backlog_find (device_id i) (device_commands st) = None ->
      backlog_find (device_id i) (device_commands st') = None)) ->
  queue_ok st'.
Proof.
  intros Q H w i Hin. destruct (H w i Hin) as (Hin0 & Hst & Hf).
  destruct (Q w i Hin0) as [Hh Hl]. split; auto.
  intros d Hd. apply Hf. eapply Hl; eauto.
Qed.

Lemma queue_ok_finally ws d st st0 :
  queue_ok st ->
  (forall e, In e (dict_del ws (connected_clients st0)) -> In e (connected_clients st)) ->
  (forall w, stage_of st0 w = stage_of st w) ->
  device_commands st0 = device_commands st ->
  queue_ok (finally_block ws d st0).
Proof.
  intros Q Hc Hs Hq. apply queue_ok_frame with (st := st); auto.
  intros w i Hin. rewrite finally_block_clients in Hin.
  rewrite finally_block_commands, Hq. split_and; auto.
  intros d'. rewrite finally_block_stage, Hs.
  destruct (Nat.eqb ws w); auto. destruct (stage_of st w); discriminate.
Qed.

Lemma queue_ok_refuse ws st : queue_ok st -> queue_ok (suspend ws AwaitingClose (close ws st)).
Proof.
  intros Q. apply queue_ok_frame with (st := st); auto.
  intros w i Hin. simpl in Hin. split_and; auto.
  intros d. rewrite stage_of_suspend, stage_of_close.
  destruct (Nat.eqb ws w); auto. destruct (stage_of st w); discriminate.
Qed.

Lemma queue_ok_after_close ws io st : queue_ok st -> queue_ok (after_close ws io st).
Proof.
  intros Q. unfold after_close, except_block.
  destruct io as [e|]; apply queue_ok_finally with (st := st); auto;
    intros e'; apply dict_del_In.
Qed.

Lemma queue_ok_replay ws d n rest io st st1 :
  queue_ok st -> keys_ok (device_commands st) ->
  hashable d = true ->
  (forall w i, In (w, i) (connected_clients st1) ->
               (w = ws /\ device_id i = d) \/ (w <> ws /\ In (w, i) (connected_clients st))) ->
  (forall e, In e (dict_del ws (connected_clients st1)) -> In e (connected_clients st)) ->
  (forall w, w <> ws -> stage_of st1 w = stage_of st w) ->
  device_commands st1 = device_commands st ->
  queue_ok (replay ws d n rest io st1).
Proof.
  intros Q Hk Hd Hc Hdel Hs Hq. unfold replay, except_block.
  assert (Hfin : forall e, queue_ok (finally_block ws d (print e st1))).
  { intros e w i Hin. rewrite finally_block_clients in Hin. simpl in Hin.
    rewrite finally_block_commands. simpl. rewrite Hq.
    destruct (Q w i (Hdel _ Hin)) as [Hh Hl]. split; auto.
    intros d'. rewrite finally_block_stage.
    destruct (Nat.eqb_spec ws w) as [->|Hne].
    - change (stage_of (print e st1) w) with (stage_of st1 w).
      destruct (stage_of st1 w); discriminate.
    - change (stage_of (print e st1) w) with (stage_of st1 w).
      rewrite Hs by congruence. apply Hl. }
  destruct rest as [|cmd rest'].
  - destruct (backlog_del d (device_commands st1)) as [cmds|e] eqn:E; [|apply Hfin].
    assert (cmds = backlog_remove d (device_commands st)) as ->.
    { revert E. unfold backlog_del. rewrite Hd, Hq.
      destruct (backlog_find d (device_commands st)); [|discriminate]. now intros [= <-]. }
    intros w i Hin. simpl in Hin. simpl device_commands.
    destruct (Hc w i Hin) as [[-> Hid]|[Hne Hin0]].
    + rewrite Hid. split; auto. intros _ _. now apply backlog_find_removed.
    + destruct (Q w i Hin0) as [Hh Hl]. split; auto.
      intros d'. rewrite stage_of_suspend.
      destruct (Nat.eqb_spec ws w); [congruence|].
      change (stage_of (print ?e ?s) w) with (stage_of s w).
      change (stage_of (with_commands ?c st1) w) with (stage_of st1 w).
      rewrite Hs by exact Hne. intros Hl'.
      apply backlog_find_remove_other. eapply Hl; eauto.
  - destruct io as [e|]; [apply Hfin|].
    intros w i Hin. simpl in Hin.
    change (device_commands (suspend ?a ?b (send_str ?c ?m st1))) with (device_commands st1).
    rewrite Hq. rewrite stage_of_suspend, stage_of_send_str.
    destruct (Hc w i Hin) as [[-> Hid]|[Hne Hin0]].
    + rewrite Hid, Nat.eqb_refl. split; auto.
      intros d'. destruct (stage_of st1 ws); discriminate.
    + destruct (Q w i Hin0) as [Hh Hl]. split; auto.
      destruct (Nat.eqb_spec ws w); [congruence|]. rewrite Hs by exact Hne. apply Hl.
Qed.

Lemma queue_ok_registration ws arrival now io st :
  registry_ok st -> keys_ok (device_commands st) -> queue_ok st ->
  stage_of st ws = Some AwaitingRegistration ->
  queue_ok (registration ws arrival now io st).
Proof.
  intros Hok Hk Q Hstage.
  assert (Hfresh : ~ In ws (registered st)).
  { apply registry_ok_unregistered; auto. now rewrite Hstage. }
  unfold registration, except_block.
  assert (Hfin : forall d st0, connected_clients st0 = connected_clients st ->
                              (forall w, stage_of st0 w = stage_of st w) ->
                              device_commands st0 = device_commands st ->
                              queue_ok (finally_block ws d st0)).
  { intros d st0 Hc Hs Hq. apply queue_ok_finally with (st := st); auto.
    intros e. rewrite Hc. apply dict_del_In. }
  destruct (wait_for 10000%N arrival) as [m|]; [|now apply Hfin].
  destruct m as [data| | | | | | |];
    try exact Q; try (now apply queue_ok_refuse).
  destruct data as [reg_data|]; cbn [bind]; [|now apply Hfin].
  destruct reg_data as [| | | | |items]; cbn [bind py_get]; try now apply Hfin.
  set (device := dict_get items "device_id" _).
  set (entry := {| device_id := device; connected_at := now; address := remote_of st ws |}).
  set (st1 := print _ (with_clients _ st)).
  assert (Hc1 : connected_clients st1 = connected_clients st ++ [(ws, entry)]).
  { unfold st1; simpl. now apply dict_set_fresh. }
  assert (Hdel : forall e, In e (dict_del ws (connected_clients st1)) ->
                           In e (connected_clients st)).
  { intros e. rewrite Hc1, dict_del_last by exact Hfresh. auto. }
  assert (Hin1 : forall w i, In (w, i) (connected_clients st1) ->
                   (w = ws /\ device_id i = device) \/
                   (w <> ws /\ In (w, i) (connected_clients st))).
  { intros w i Hin. rewrite Hc1 in Hin. apply in_app_or in Hin as [Hin|[Heq|[]]].
    - right. split; auto. intros ->. apply Hfresh.
      change ws with (fst (ws, i)). now apply in_map.
    - left. now inversion Heq. }
  assert (Hfin1 : forall e, queue_ok (finally_block ws device (print e st1))).
  { intros e. apply queue_ok_finally with (st := st); auto. }
  destruct (backlog_contains device (device_commands st1)) as [[|]|e] eqn:Eb;
    try apply Hfin1.
  - assert (Hd : hashable device = true).
    { revert Eb. unfold backlog_contains. destruct (hashable device); [auto | discriminate]. }
    destruct (backlog_find device (device_commands st1)) as [cmds|]; [|apply Hfin1].
    apply queue_ok_replay with (st := st); auto.
  - assert (Hd : hashable device = true).
    { revert Eb. unfold backlog_contains. destruct (hashable device); [auto | discriminate]. }
    assert (Hnone : backlog_find device (device_commands st) = None).
    { revert Eb. unfold backlog_contains. rewrite Hd.
      change (device_commands st1) with (device_commands st).
      destruct (backlog_find device (device_commands st)); [discriminate | auto]. }
    intros w i Hin. simpl in Hin. change (dict_set ws entry (connected_clients st))
      with (connected_clients st1) in Hin.
    change (device_commands (suspend ?a ?b st1)) with (device_commands st).
    destruct (Hin1 w i Hin) as [[-> Hid]|[Hne Hin0]].
    + rewrite Hid. auto.
    + destruct (Q w i Hin0) as [Hh Hl]. split; auto.
      intros d'. rewrite stage_of_suspend.
      destruct (Nat.eqb_spec ws w); [congruence|]. apply Hl.
Qed.

Lemma queue_ok_step a st :
  registry_ok st -> keys_ok (device_commands st) -> queue_ok st -> queue_ok (step a st).
Proof.
  intros Hok Hk Q. destruct a as [addr|ws r|request now io]; simpl.
  - apply queue_ok_frame with (st := st); auto.
    intros w i Hin. simpl in Hin. split_and; auto.
    intros d. rewrite stage_of_accept_old; auto.
    destruct Hok as [_ H2]. specialize (H2 w i Hin).
    destruct (stage_of st w); [discriminate | elim H2].
  - unfold websocket_handler.
    destruct (stage_of st ws) as [[| |d n rest|d|]|] eqn:Hs; destruct r; auto.
    + now apply queue_ok_registration.
    + now apply queue_ok_after_close.
    + assert (Hid : forall i, In (ws, i) (connected_clients st) -> device_id i = d).
      { intros i Hin. destruct Hok as [_ H2]. specialize (H2 _ _ Hin).
        rewrite Hs in H2. now simpl in H2. }
      destruct (in_dec Nat.eq_dec ws (registered st)) as [Hreg|Hunreg].
      * apply in_map_iff in Hreg as ([w i] & Hw & Hin); simpl in Hw; subst w.
        destruct (Q ws i Hin) as [Hh _]. rewrite (Hid i Hin) in Hh.
        apply queue_ok_replay with (st := st); auto.
        -- intros w j Hj. destruct (Nat.eq_dec w ws) as [->|Hne]; auto.
        -- intros e. apply dict_del_In.
      * (* no entry: whatever the block does, the others are kept as they are *)
        unfold replay, except_block.
        assert (Hfin : forall e, queue_ok (finally_block ws d (print e st))).
        { intros e. apply queue_ok_finally with (st := st); auto.
          intros e'. apply dict_del_In. }
        assert (Hother : forall w i, In (w, i) (connected_clients st) -> w <> ws).
        { intros w i Hin ->. apply Hunreg. change ws with (fst (ws, i)). now apply in_map. }
        destruct rest as [|cmd rest'].
        -- destruct (backlog_del d (device_commands st)) as [cmds|e] eqn:E; [|apply Hfin].
           apply queue_ok_frame with (st := st); auto.
           intros w i Hin. simpl in Hin. split_and; auto.
           ++ intros d'. rewrite stage_of_suspend.
              destruct (Nat.eqb_spec ws w) as [->|_]; auto.
              now elim (Hother _ _ Hin).
           ++ simpl. revert E. unfold backlog_del.
              destruct (hashable d); [|discriminate].
              destruct (backlog_find d (device_commands st)); [|discriminate].
              intros [= <-]. apply backlog_find_remove_other.
        -- destruct io as [e|]; [apply Hfin|].
           apply queue_ok_frame with (st := st); auto.
           intros w i Hin. simpl in Hin. split_and; auto.
           intros d'. rewrite stage_of_suspend, stage_of_send_str.
           destruct (Nat.eqb_spec ws w) as [->|_]; auto.
           now elim (Hother _ _ Hin).
    + destruct m as [data| | | | | | |]; unfold on_message; auto;
        try (apply queue_ok_finally with (st := st); auto; intros e; apply dict_del_In).
      destruct (print_all_rest (route d data disk_ok) st) as (Hc & Hq & Hsock).
      apply queue_ok_frame with (st := st); auto.
      intros w i Hin. rewrite Hc in Hin. rewrite Hq. unfold stage_of. rewrite Hsock. auto.
  - apply queue_ok_frame with (st := st); auto.
    intros w i Hin. rewrite send_command_clients in Hin.
    rewrite send_command_stage. split_and; auto.
    destruct (send_command_commands request now io st)
      as [->|(items & q & _ & Hmiss & He)]; auto.
    apply (enqueue_other _ _ _ _ _ He).
    pose proof (enqueue_hashable _ _ _ _ He) as Hd.
    destruct (Q w i Hin) as [Hh _].
    rewrite py_eq_sym by auto. eapply find_target_none; eauto.
Qed.

Lemma reachable_queue_ok st : reachable st -> queue_ok st.
Proof.
  induction 1 as [|a st Hr IH].
  - intros w i [].
  - apply queue_ok_step; auto.
    + now apply reachable_registry_ok.
    + now apply reachable_keys_ok.
Qed.

(** *** What has been sent stays sent *)







(** *** Handshake and replay, from the first frame to the listening loop *)

Lemma handshake_delivers ws t items now st :
  let device := dict_get items "device_id"
                  (JStr ("device_" ++ str_nat (length (connected_clients st)))) in
  let entry := {| device_id := device; connected_at := now; address := remote_of st ws |} in
  let st' := run (Resume ws (FirstFrame (Some (t, TEXT (Some (JObj items)))) now None)
                  :: repeat (Resume ws (SendDone None)) (length (backlog_of device st))) st in
  stage_of st ws = Some AwaitingRegistration ->
  ~ In ws (registered st) ->
  keys_ok (device_commands st) ->
  (t < 10000)%N ->
  hashable device = true ->
  stage_of st' ws = Some (Listening device) /\
  sent_to st' ws = sent_to st ws ++ map replayed (backlog_of device st) /\
  backlog_find device (device_commands st') = None /\
  connected_clients st' = connected_clients st ++ [(ws, entry)] /\
  untouched_but ws st st' /\
  close_calls st' = close_calls st.
Proof.
  intros device entry st' Hs Hfresh Hk Ht Hd.
  destruct (registration_accepts ws t items now st Hs Hfresh Ht Hd)
    as (Hc & Hu & Hcl & Hcase).
  fold device in Hcase, Hc. fold entry in Hc.
  unfold st', backlog_of. rewrite run_cons. cbn [step].
  unfold websocket_handler. rewrite Hs.
  set (st1 := registration ws _ now None st) in *.
  destruct (backlog_find device (device_commands st)) as [[|cmd rest]|] eqn:Ef.
  - destruct Hcase as (H1 & H2 & H3). simpl. rewrite app_nil_r. split_and; auto.
    rewrite H3. now apply backlog_find_removed.
  - destruct Hcase as (H1 & H2 & H3).
    assert (Hq : backlog_find device (device_commands st1) <> None).
    { rewrite H3, Ef. discriminate. }
    destruct (replay_completes rest ws device (S (length rest)) st1 H1 Hd Hq)
      as (R1 & R2 & R3 & R4 & R5 & R6).
    simpl length. split_and; auto.
    + rewrite R2, H2. simpl. now rewrite <- app_assoc.
    + rewrite R3, H3. now apply backlog_find_removed.
    + now rewrite R4.
    + intros w Hne. destruct (R5 w Hne) as [-> ->]. now apply Hu.
    + now rewrite R6.
  - destruct Hcase as (H1 & H2 & H3). simpl. rewrite app_nil_r. split_and; auto.
    now rewrite H3.
Qed.

Lemma accept_fresh addr st :
  reachable st ->
  let ws := length (sockets st) in
  stage_of (accept addr st) ws = Some AwaitingRegistration /\
  sent_to (accept addr st) ws = [] /\
  remote_of (accept addr st) ws = addr /\
  ~ In ws (registered (accept addr st)).
Proof.
  intros Hr ws.
  assert (Hn : nth_error (sockets (accept addr st)) ws =
               Some {| remote := addr; at_line := AwaitingRegistration;
                       sent := []; close_called := false |}).
  { unfold accept, ws; simpl. rewrite nth_error_app2 by lia. now rewrite Nat.sub_diag. }
  unfold stage_of, sent_to, remote_of. rewrite Hn. split_and; auto.
  change (registered (accept addr st)) with (registered st).
  apply registry_ok_unregistered; [now apply reachable_registry_ok|].
  unfold stage_of. replace (nth_error (sockets st) ws) with (@None socket); auto.
  symmetry. apply nth_error_None. unfold ws. lia.
Qed.

Lemma connect_delivers st addr t reg now device :
  let ws := length (sockets st) in
  let st' := run (Connect addr
                  :: Resume ws (FirstFrame (Some (t, TEXT (Some (JObj reg)))) now None)
                  :: repeat (Resume ws (SendDone None)) (length (backlog_of device st))) st in
  reachable st ->
  (t < 10000)%N ->
  items_get "device_id" reg = Some device ->
  hashable device = true ->
  stage_of st' ws = Some (Listening device) /\
  sent_to st' ws = map replayed (backlog_of device st) /\
  backlog_find device (device_commands st') = None /\
  connected_clients st' =
    connected_clients st ++
      [(ws, {| device_id := device; connected_at := now; address := addr |})] /\
  close_calls st' = close_calls st ++ [false].
Proof.
  intros ws st' Hr Ht Hreg Hd.
  destruct (accept_fresh addr st Hr) as (Hs & Hsent & Hrem & Hfresh). fold ws in Hs, Hsent, Hrem, Hfresh.
  pose proof (handshake_delivers ws t reg now (accept addr st)) as H. cbv zeta in H.
  assert (Hdev : dict_get reg "device_id"
                   (JStr ("device_" ++ str_nat (length (connected_clients (accept addr st)))))
                 = device).
  { unfold dict_get. now rewrite Hreg. }
  rewrite Hdev, Hrem, Hsent in H.
  change (backlog_of device (accept addr st)) with (backlog_of device st) in H.
  destruct (H Hs Hfresh (reachable_keys_ok st Hr) Ht Hd) as (H1 & H2 & H3 & H4 & _ & H6).
  unfold st'. rewrite run_cons. cbn [step]. split_and; auto.
  rewrite H6. unfold close_calls, accept; simpl. now rewrite map_app.
Qed.

Lemma find_target_app clients more d :
  find_target clients d <> None -> find_target (clients ++ more) d = find_target clients d.
Proof.
  induction clients as [|[w i] clients IH]; simpl; [congruence|].
  destruct (py_eq (device_id i) d); auto.
Qed.


Lemma find_target_live st d ws :
  reachable st -> find_target (connected_clients st) d = Some ws -> stage_of st ws <> None.
Proof.
  intros Hr Ef. destruct (find_target_registered _ _ _ Ef) as (i & Hin & _).
  pose proof (reachable_registry_ok st Hr) as [_ Hserve].
  specialize (Hserve ws i Hin).
  destruct (stage_of st ws); [discriminate | elim Hserve].
Qed.

Lemma registration_rejects ws arrival now io st :
  stage_of st ws = Some AwaitingRegistration ->
  ~ In ws (registered st) ->
  handshake_fails arrival = true ->
  stage_of (registration ws arrival now io st) ws
    = Some (if refused arrival then AwaitingClose else Returned) /\
  connected_clients (registration ws arrival now io st) = connected_clients st /\
  closed_by_server (registration ws arrival now io st) ws
    = (refused arrival || closed_by_server st ws)%bool.
Proof.
  intros Hs Hfresh Hfail. unfold handshake_fails in Hfail.
  unfold registration, except_block, refused.
  assert (Hfin : forall d st0, stage_of st0 ws = stage_of st ws ->
                   connected_clients st0 = connected_clients st ->
                   sockets st0 = sockets st ->
                   stage_of (finally_block ws d st0) ws = Some Returned /\
                   connected_clients (finally_block ws d st0) = connected_clients st /\
                   closed_by_server (finally_block ws d st0) ws = closed_by_server st ws).
  { intros d st0 H0 Hc Hk.
    rewrite finally_block_stage, finally_block_clients, Nat.eqb_refl, H0, Hs, Hc.
    split_and; auto; [now apply dict_del_fresh|].
    unfold closed_by_server, finally_block, suspend.
    destruct (dict_contains ws (connected_clients st0)); simpl;
      rewrite nth_error_update_nth, Nat.eqb_refl, Hk;
      now destruct (nth_error (sockets st) ws). }
  assert (Hclose : closed_by_server (suspend ws AwaitingClose (close ws st)) ws = true).
  { unfold closed_by_server, suspend, close; simpl.
    rewrite !nth_error_update_nth, Nat.eqb_refl.
    unfold stage_of in Hs. now destruct (nth_error (sockets st) ws). }
  destruct (wait_for 10000%N arrival) as [m|]; [|now apply Hfin].
  destruct m as [data| | | | | | |]; try discriminate;
    try (rewrite stage_of_suspend, stage_of_close, Nat.eqb_refl, Hs, Hclose;
         split_and; reflexivity).
  destruct data as [reg_data|]; cbn [bind]; [|now apply Hfin].
  destruct reg_data as [| | | | |items]; cbn [bind py_get]; try now apply Hfin.
  discriminate.
Qed.

Lemma rank_not_live s : rank s <= 1 \/ 3 <= rank s -> live s = false.
Proof. destruct s as [[]|]; simpl; auto; lia. Qed.

Lemma dict_set_other {V : Type} (key : nat) (v : V) (d : list (nat * V)) (e : nat * V) :
  In e d -> fst e <> key -> In e (dict_set key v d).
Proof.
  induction d as [|[k w] d IH]; simpl; auto.
  intros [<-|Hin] Hne; simpl in *.
  - destruct (Nat.eqb_spec k key); [congruence | now left].
  - destruct (Nat.eqb k key); simpl; auto.
Qed.

Lemma finally_block_keeps ws d st w i :
  w <> ws -> In (w, i) (connected_clients st) ->
  In (w, i) (connected_clients (finally_block ws d st)).
Proof.
  intros Hne Hin. rewrite finally_block_clients. now apply dict_del_other.
Qed.

Lemma replay_keeps ws d n rest io st w i :
  w <> ws -> In (w, i) (connected_clients st) ->
  In (w, i) (connected_clients (replay ws d n rest io st)).
Proof.
  intros Hne Hin. unfold replay, except_block.
  destruct rest as [|cmd rest'].
  - destruct (backlog_del d (device_commands st)); auto.
    now apply finally_block_keeps.
  - destruct io; auto. now apply finally_block_keeps.
Qed.

Lemma resume_keeps ws r st w i :
  w <> ws -> In (w, i) (connected_clients st) ->
  In (w, i) (connected_clients (websocket_handler ws r st)).
Proof.
  intros Hne Hin. unfold websocket_handler.
  destruct (stage_of st ws) as [[| |d n rest|d|]|]; destruct r; auto.
  - unfold registration, except_block.
    destruct (wait_for 10000%N arrival) as [m|]; [|now apply finally_block_keeps].
    destruct m as [data| | | | | | |]; try exact Hin.
    destruct data as [reg_data|]; cbn [bind]; [|now apply finally_block_keeps].
    destruct reg_data as [| | | | |items]; cbn [bind py_get];
      try now apply finally_block_keeps.
    set (device := dict_get items "device_id" _).
    set (st1 := print _ (with_clients _ st)).
    assert (Hin1 : In (w, i) (connected_clients st1)).
    { unfold st1; simpl. now apply dict_set_other. }
    destruct (backlog_contains device (device_commands st1)) as [[|]|e]; auto;
      try now apply finally_block_keeps.
    destruct (backlog_find device (device_commands st1)) as [cmds|];
      [now apply replay_keeps | now apply finally_block_keeps].
  - rewrite after_close_clients. now apply dict_del_other.
  - now apply replay_keeps.
  - destruct m as [data| | | | | | |]; unfold on_message; auto;
      try now apply finally_block_keeps.
    now destruct (print_all_rest (route d data disk_ok) st) as (-> & _ & _).
Qed.

Lemma closes_returns ws s r st :
  stage_of st ws = Some s -> ~ In ws (registered st) \/ s <> AwaitingRegistration ->
  closes s r = true ->
  stage_of (websocket_handler ws r st) ws = Some Returned.
Proof.
  intros Hs Hfresh Hc. unfold websocket_handler. rewrite Hs.
  assert (Hfin : forall d st0, stage_of st0 ws = stage_of st ws ->
                               stage_of (finally_block ws d st0) ws = Some Returned).
  { intros d st0 H0. now rewrite finally_block_stage, Nat.eqb_refl, H0, Hs. }
  destruct s as [| |d n [|cmd rest]|d|]; destruct r as [arrival now io|io'|[e|]|m disk_ok];
    simpl in Hc; try discriminate.
  - destruct Hfresh as [Hfresh|Hne]; [|congruence].
    apply andb_true_iff in Hc as [Hfail Hnot]. apply negb_true_iff in Hnot.
    destruct (registration_rejects ws arrival now io st Hs Hfresh Hfail) as (H & _).
    now rewrite Hnot in H.
  - now rewrite after_close_stage, Nat.eqb_refl, Hs.
  - unfold replay, except_block. now apply Hfin.
  - destruct m; try discriminate; unfold on_message; now apply Hfin.
Qed.



Lemma replay_advances j : forall rest ws d n st,
  let st' := run (repeat (Resume ws (SendDone None)) j) st in
  stage_of st ws = Some (SendingQueued d n rest) ->
  j <= length rest ->
  stage_of st' ws = Some (SendingQueued d n (skipn j rest)) /\
  sent_to st' ws = sent_to st ws ++ map replayed (firstn j rest) /\
  connected_clients st' = connected_clients st /\
  device_commands st' = device_commands st /\
  untouched_but ws st st'.
Proof.
  induction j as [|j IH]; intros rest ws d n st st' Hs Hj.
  - unfold st'. simpl. rewrite app_nil_r. split_and; auto. now intros w _.
  - destruct rest as [|cmd rest]; [simpl in Hj; lia|].
    unfold st'. cbn [repeat]. rewrite run_cons. cbn [step].
    unfold websocket_handler. rewrite Hs. cbn [replay].
    set (st1 := suspend ws _ (send_str ws _ st)).
    assert (Hsome : stage_of st ws <> None) by congruence.
    assert (Hs1 : stage_of st1 ws = Some (SendingQueued d n rest)).
    { unfold st1. rewrite stage_of_suspended; auto. now rewrite stage_of_send_str. }
    simpl in Hj. destruct (IH rest ws d n st1 Hs1 ltac:(lia)) as (R1 & R2 & R3 & R4 & R5).
    split_and; auto.
    + rewrite R2. unfold st1. rewrite sent_to_suspend, sent_to_sent by exact Hsome.
      simpl. now rewrite <- app_assoc.
    + intros w Hne. destruct (R5 w Hne) as [-> ->].
      now apply (untouched_suspend_send ws _ _ st st).
Qed.


Lemma replay_console_grows ws d n rest io st :
  exists more, console (replay ws d n rest io st) = console st ++ more.
Proof.
  unfold replay, except_block. destruct rest as [|cmd rest'].
  - destruct (backlog_del d (device_commands st)).
    + simpl. eauto.
    + rewrite finally_block_console. simpl. rewrite <- app_assoc. eauto.
  - destruct io as [e|].
    + rewrite finally_block_console. simpl. rewrite <- app_assoc. eauto.
    + exists []. simpl. now rewrite app_nil_r.
Qed.

(** ** Properties of the server *)

(** C1, as the code has it (one entry per socket).  [connected_clients] is
    keyed by the WebSocket object, so a socket has at most one entry at any
    time; a second socket registering a device id that is already held is
    added after the first: both entries are listed for that id, nothing is
    closed, and [send_command] goes on addressing the earlier one. *)
Theorem one_entry_per_socket st ws1 i1 ws2 t items now :
  reachable st ->
  In (ws1, i1) (connected_clients st) ->
  stage_of st ws2 = Some AwaitingRegistration ->
  (t < 10000)%N ->
  items_get "device_id" items = Some (device_id i1) ->
  let st' := step (Resume ws2 (FirstFrame (Some (t, TEXT (Some (JObj items)))) now None)) st in
  NoDup (registered st) /\
  NoDup (registered st') /\
  In ws1 (sessions_of (device_id i1) st) /\
  sessions_of (device_id i1) st' = sessions_of (device_id i1) st ++ [ws2] /\
  In (ws1, i1) (connected_clients st') /\
  close_calls st' = close_calls st /\
  find_target (connected_clients st') (device_id i1)
    = find_target (connected_clients st) (device_id i1).
Proof.
  intros Hr Hin Hs Ht Hreg st'.
  pose proof (reachable_registry_ok st Hr) as Hok.
  destruct (reachable_queue_ok st Hr ws1 i1 Hin) as [Hd _].
  assert (Hfresh : ~ In ws2 (registered st)).
  { apply registry_ok_unregistered; auto. now rewrite Hs. }
  pose proof (registration_accepts ws2 t items now st Hs Hfresh Ht) as H. cbv zeta in H.
  assert (Hdev : dict_get items "device_id"
                   (JStr ("device_" ++ str_nat (length (connected_clients st)))) = device_id i1).
  { unfold dict_get. now rewrite Hreg. }
  rewrite Hdev in H. destruct (H Hd) as (Hc & _ & Hcl & _).
  assert (Hst' : st' = registration ws2 (Some (t, TEXT (Some (JObj items)))) now None st).
  { unfold st'. cbn [step]. unfold websocket_handler. now rewrite Hs. }
  rewrite <- Hst' in Hc, Hcl.
  assert (Hself : py_eq (device_id i1) (device_id i1) = true) by now apply py_eq_refl.
  split_and.
  - apply Hok.
  - apply (reachable_registry_ok st'). unfold st'. now constructor.
  - unfold sessions_of. change ws1 with (fst (ws1, i1)). apply in_map.
    apply filter_In. auto.
  - unfold sessions_of. rewrite Hc, filter_app, map_app. simpl. now rewrite Hself.
  - rewrite Hc. apply in_or_app. now left.
  - exact Hcl.
  - rewrite Hc. apply find_target_app. eapply find_target_some; eauto.
Qed.

(** C2, as the code has it (send failure during dispatch).  When the lookup
    hits and [send_str] raises, [send_command] changes neither
    [connected_clients] nor [device_commands] nor any socket: the session is
    not evicted and the command is not queued.  The error is printed and the
    operator gets [{'error': str(e)}] with status 500. *)
Theorem send_failure_is_reported st items now e target_ws :
  find_target (connected_clients st) (dict_get items "device_id" (JStr "default"))
    = Some target_ws ->
  let r := send_command (Some (JObj items)) now (Some e) st in
  connected_clients (fst r) = connected_clients st /\
  device_commands (fst r) = device_commands st /\
  sockets (fst r) = sockets st /\
  console (fst r) = console st ++ [print_command_error e] /\
  snd r = json_response (JObj [("error", JStr (str_exn e))]) 500.
Proof.
  intros Hhit r. unfold r. rewrite (send_command_send_fails items now e st target_ws Hhit).
  repeat split.
Qed.



(** C5, as the code has it (handshake failure never registers).  If the
    wait of line 171 ends without a registration (nothing but pings and
    pongs within the 10 seconds of [wait_for], or a message that is not
    TEXT, or a TEXT message that is not a JSON object), the handler returns,
    which ends the connection: at once, or once the [ws.close()] it calls
    for a message that is not TEXT is through.  [connected_clients] is left
    as it was, and the socket is in [connected_clients] at no point of the
    run, before or after.  A ping or a pong that comes first does not end
    the wait: the state is as before, and a TEXT frame that follows in time
    registers the socket. *)
Theorem handshake_failure_never_registers before after ws arrival now io io' :
  let fails := Resume ws (FirstFrame arrival now io) in
  let st := run before startup in
  let st' := step fails st in
  stage_of st ws = Some AwaitingRegistration ->
  handshake_fails arrival = true ->
  (if refused arrival
   then stage_of st' ws = Some AwaitingClose /\
        closed_by_server st' ws = true /\
        stage_of (step (Resume ws (CloseDone io')) st') ws = Some Returned
   else stage_of st' ws = Some Returned) /\
  connected_clients st' = connected_clients st /\
  (forall k, ~ In ws (registered (run (firstn k (before ++ fails :: after)) startup))) /\
  (forall t m, (t < 10000)%N -> m = PING \/ m = PONG ->
     handshake_fails (Some (t, m)) = false /\
     step (Resume ws (FirstFrame (Some (t, m)) now io)) st = st).
Proof.
  intros fails st st' Hs Hfail.
  assert (Hr : reachable st) by (apply reachable_run; constructor).
  assert (Hfresh : ~ In ws (registered st)).
  { apply registry_ok_unregistered; [now apply reachable_registry_ok | now rewrite Hs]. }
  assert (Hstep : st' = registration ws arrival now io st).
  { unfold st', fails. cbn [step]. unfold websocket_handler. now rewrite Hs. }
  destruct (registration_rejects ws arrival now io st Hs Hfresh Hfail) as (H1 & H2 & H3).
  rewrite <- Hstep in H1, H2, H3.
  assert (Hrank : 3 <= rank (stage_of st' ws)).
  { rewrite H1. destruct (refused arrival); simpl; lia. }
  split_and; auto.
  - destruct (refused arrival); auto. split_and; auto.
    cbn [step]. unfold websocket_handler. rewrite H1.
    now rewrite after_close_stage, Nat.eqb_refl, H1.
  - intros k.
    destruct (Nat.le_gt_cases k (length before)) as [Hle|Hgt].
    + rewrite firstn_app. replace (k - length before) with 0 by lia.
      rewrite firstn_O, app_nil_r.
      set (sk := run (firstn k before) startup).
      assert (Hrk : reachable sk) by (apply reachable_run; constructor).
      apply registry_ok_unregistered; [now apply reachable_registry_ok|].
      apply rank_not_live. left.
      pose proof (rank_run (skipn k before) sk ws Hrk) as Hmono.
      unfold sk in Hmono. rewrite <- run_app, firstn_skipn in Hmono.
      fold st in Hmono. rewrite Hs in Hmono. exact Hmono.
    + rewrite firstn_app, firstn_all2 by lia.
      destruct (k - length before) as [|m] eqn:Em; [lia|].
      rewrite firstn_cons, run_app, run_cons. fold st. fold st'.
      assert (Hr' : reachable st') by (unfold st'; now constructor).
      apply registry_ok_unregistered; [apply reachable_registry_ok; now apply reachable_run|].
      apply rank_not_live. right.
      pose proof (rank_run (firstn m after) st' ws Hr') as Hmono. lia.
  - intros t m Ht Hm. apply N.ltb_lt in Ht.
    unfold handshake_fails. cbn [step]. unfold websocket_handler. rewrite Hs.
    unfold registration, wait_for. rewrite Ht.
    destruct Hm as [-> | ->]; split; reflexivity.
Qed.


(** C7 (teardown exactly once, own entry only).  In every state of a run
    the [finally] block of a socket has run once if its handler has returned
    and not at all otherwise; a failed handshake (for a frame that is not
    TEXT, the end of the [ws.close()] it leads to), a failed replay send, a
    close frame and an error frame all make the handler return, with the
    block run once and the socket out of [connected_clients]; and the entry
    of a socket is removed by nothing but its own coroutine: it survives the
    return of any other socket, even one registered under the same device
    id. *)
Theorem teardown_once_own_entry_only st :
  reachable st ->
  (forall ws, teardowns ws (console st) =
              match stage_of st ws with Some Returned => 1 | _ => 0 end) /\
  (forall ws s r,
     stage_of st ws = Some s -> closes s r = true ->
     let st' := step (Resume ws r) st in
     stage_of st' ws = Some Returned /\
     teardowns ws (console st') = 1 /\
     ~ In ws (registered st')) /\
  (forall a w i,
     (forall r, a <> Resume w r) -> In (w, i) (connected_clients st) ->
     In (w, i) (connected_clients (step a st))).
Proof.
  intros Hr.
  assert (Hcount : forall st0, reachable st0 -> forall ws,
            teardowns ws (console st0) =
            match stage_of st0 ws with Some Returned => 1 | _ => 0 end).
  { intros st0 Hr0 ws. rewrite (reachable_teardown_once st0 Hr0 ws).
    now destruct (stage_of st0 ws) as [[]|]. }
  split_and.
  - now apply Hcount.
  - intros ws s r Hs Hc st'.
    assert (Hr' : reachable st') by (unfold st'; now constructor).
    assert (Hret : stage_of st' ws = Some Returned).
    { unfold st'. cbn [step]. apply closes_returns with (s := s); auto.
      destruct s; try (right; discriminate). left.
      apply registry_ok_unregistered; [now apply reachable_registry_ok | now rewrite Hs]. }
    split_and; auto.
    + rewrite (Hcount st' Hr' ws). now rewrite Hret.
    + apply registry_ok_unregistered; [now apply reachable_registry_ok | now rewrite Hret].
  - intros a w i Hother Hin. destruct a as [addr|ws r|request now io]; cbn [step].
    + exact Hin.
    + apply resume_keeps; auto. intros ->. now apply (Hother r).
    + now rewrite send_command_clients.
Qed.

(** C8 (fallback identifier).  A registration message without a
    ['device_id'] item announces its socket as ["device_<n>"], where [<n>]
    is the decimal numeral of the size [n] of [connected_clients] before the
    new entry is inserted; unless the first replayed command cannot be sent,
    the socket is then registered under that id and served for it. *)
Theorem fallback_device_id st ws t items now io :
  reachable st ->
  stage_of st ws = Some AwaitingRegistration ->
  (t < 10000)%N ->
  items_get "device_id" items = None ->
  let n := length (connected_clients st) in
  let numeral := NilEmpty.string_of_uint (Nat.to_uint n) in
  let fallback := JStr ("device_" ++ numeral) in
  let st' := step (Resume ws (FirstFrame (Some (t, TEXT (Some (JObj items)))) now io)) st in
  NilEmpty.uint_of_string numeral = Some (Nat.to_uint n) /\
  Nat.of_uint (Nat.to_uint n) = n /\
  In (print_connected fallback (remote_of st ws)) (console st') /\
  (io = None ->
   connected_clients st' =
     connected_clients st ++
       [(ws, {| device_id := fallback; connected_at := now; address := remote_of st ws |})] /\
   length (connected_clients st') = S n /\
   serves (stage_of st' ws) fallback).
Proof.
  intros Hr Hs Ht Hmissing n numeral fallback st'.
  assert (Hfresh : ~ In ws (registered st)).
  { apply registry_ok_unregistered; [now apply reachable_registry_ok | now rewrite Hs]. }
  change fallback with (JStr ("device_" ++ str_nat (length (connected_clients st)))) in *.
  set (fb := JStr ("device_" ++ str_nat (length (connected_clients st)))) in *.
  assert (Hdev : dict_get items "device_id" fb = fb).
  { unfold dict_get. now rewrite Hmissing. }
  assert (Hst' : st' = registration ws (Some (t, TEXT (Some (JObj items)))) now io st).
  { unfold st'. cbn [step]. unfold websocket_handler. now rewrite Hs. }
  split_and.
  - apply NilEmpty.usu.
  - apply DecimalNat.Unsigned.of_to.
  - rewrite Hst'. unfold registration, wait_for.
    apply N.ltb_lt in Ht. rewrite Ht. cbn [bind py_get]. fold fb. rewrite Hdev.
    set (st1 := print (print_connected fb (remote_of st ws)) _).
    assert (Hgrow : forall st2, (exists more, console st2 = console st1 ++ more) ->
                                In (print_connected fb (remote_of st ws)) (console st2)).
    { intros st2 [more ->]. apply in_or_app. left. unfold st1. simpl.
      apply in_or_app. right. now left. }
    unfold backlog_contains. simpl hashable. cbv iota.
    destruct (backlog_find fb (device_commands st1)) as [cmds|].
    + apply Hgrow. apply replay_console_grows.
    + apply Hgrow. exists []. now rewrite app_nil_r.
  - intros ->.
    pose proof (registration_accepts ws t items now st Hs Hfresh Ht) as H.
    cbv zeta in H. fold fb in H. rewrite Hdev in H.
    destruct (H eq_refl) as (Hc & _ & _ & Hcase).
    rewrite Hst'. split_and; [exact Hc| |].
    + rewrite Hc, length_app. simpl. unfold n. lia.
    + destruct (backlog_find fb (device_commands st)) as [[|cmd rest]|];
        destruct Hcase as (-> & _); reflexivity.
Qed.


(** C10 (timestamps through the queue).  A command queued at time
    [t_enqueue] is stored with that time, and the replay sends every stored
    command as the object that holds its own command, params and timestamp,
    whatever the time [t_connect] of the registration, so that the command
    just queued goes out last, with [t_enqueue]; a command sent at once
    carries the time [t_send] of that call. *)
Theorem timestamps_through_the_queue st items t_enqueue addr t reg t_connect :
  let device := dict_get items "device_id" (JStr "default") in
  let cmd := dict_get items "command" JNull in
  let prm := dict_get items "params" (JObj []) in
  let st1 := fst (send_command (Some (JObj items)) t_enqueue None st) in
  let ws := length (sockets st) in
  let st2 := run (Connect addr
                  :: Resume ws (FirstFrame (Some (t, TEXT (Some (JObj reg)))) t_connect None)
                  :: repeat (Resume ws (SendDone None)) (length (backlog_of device st1))) st1 in
  let on_the_wire (c p : json) (ts : string) :=
    JObj [("type", JStr "remote_command"); ("command", c);
          ("params", p); ("timestamp", JStr ts)] in
  reachable st ->
  find_target (connected_clients st) device = None ->
  hashable device = true ->
  (t < 10000)%N ->
  items_get "device_id" reg = Some device ->
  backlog_of device st1 =
    backlog_of device st ++ [{| command := cmd; params := prm; timestamp := t_enqueue |}] /\
  sent_to st2 ws =
    map (fun q => on_the_wire (command q) (params q) (timestamp q)) (backlog_of device st)
    ++ [on_the_wire cmd prm t_enqueue] /\
  forall items' t_send target,
    find_target (connected_clients st2) (dict_get items' "device_id" (JStr "default"))
      = Some target ->
    sent_to (fst (send_command (Some (JObj items')) t_send None st2)) target =
      sent_to st2 target ++
        [on_the_wire (dict_get items' "command" JNull) (dict_get items' "params" (JObj []))
           t_send].
Proof.
  intros device cmd prm st1 ws st2 on_the_wire Hr Hmiss Hd Ht Hreg.
  assert (Hr1 : reachable st1).
  { unfold st1. change (reachable (step (PostCommand (Some (JObj items)) t_enqueue None) st)).
    now constructor. }
  assert (Hsock : sockets st1 = sockets st /\
                  backlog_of device st1 =
                    backlog_of device st ++
                      [{| command := cmd; params := prm; timestamp := t_enqueue |}]).
  { destruct (send_command_miss items t_enqueue None st Hmiss Hd) as (cmds' & He & Hsend & Hb).
    unfold st1. rewrite Hsend. cbn [fst]. split; auto. }
  destruct Hsock as [Hsock Hb].
  split_and; auto.
  - pose proof (connect_delivers st1 addr t reg t_connect device Hr1 Ht Hreg Hd) as (_ & H2 & _).
    rewrite Hsock in H2. fold ws in H2. fold st2 in H2.
    rewrite H2, Hb, map_app. reflexivity.
  - intros items' t_send target Ef.
    rewrite (send_command_hit items' t_send st2 target Ef). cbn [fst].
    change (sent_to (print ?e ?s) target) with (sent_to s target).
    apply sent_to_sent. apply find_target_live with (d := dict_get items' "device_id" (JStr "default")); auto.
    unfold st2. now apply reachable_run.
Qed.

(** ** Further properties *)

(** *** What happens to the sockets *)

Lemma update_nth_compose {A : Type} (f g : A -> A) (l : list A) (n : nat) :
  update_nth n f (update_nth n g l) = update_nth n (fun x => f (g x)) l.
Proof.
  revert n; induction l as [|x l IH]; intros [|n]; simpl; auto. now rewrite IH.
Qed.

Lemma update_nth_same {A : Type} (l : list A) (n : nat) : update_nth n (fun x => x) l = l.
Proof.
  revert n; induction l as [|x l IH]; intros [|n]; simpl; auto. now rewrite IH.
Qed.

Lemma Forall_update_nth {A : Type} (P : A -> Prop) (f : A -> A) (l : list A) (n : nat) :
  Forall P l ->
  (forall x, nth_error l n = Some x -> P x -> P (f x)) ->
  Forall P (update_nth n f l).
Proof.
  intros Hl. revert n. induction Hl as [|x l Hx Hl IH]; intros [|n] Hf; simpl; auto.
Qed.

Lemma socket_ok_stage s k :
  socket_ok k -> at_line k <> Returned ->
  s <> AwaitingRegistration -> s <> AwaitingClose ->
  s = Returned \/ at_line k <> AwaitingClose ->
  socket_ok (with_stage s k).
Proof.
  intros (H1 & H2 & H3 & H4) Hk Hs Hs' Hor. unfold socket_ok; simpl. split_and; auto.
  - intros Heq; congruence.
  - intros Hc. destruct (H3 Hc) as [[Hr|Hr] Hsent]; [|congruence].
    destruct Hor as [->|Hor]; [auto | congruence].
Qed.

Lemma socket_ok_sent_stage s cmd prm ts k :
  socket_ok k -> at_line k <> Returned -> at_line k <> AwaitingClose ->
  s <> AwaitingRegistration -> s <> AwaitingClose ->
  socket_ok (with_stage s (with_sent (command_msg cmd prm ts) k)).
Proof.
  intros (H1 & H2 & H3 & H4) Hk Hk' Hs Hs'. unfold socket_ok; simpl. split_and.
  - apply Forall_app. split; auto. repeat constructor. now exists cmd, prm, ts.
  - intros Heq. congruence.
  - intros Hc. destruct (H3 Hc) as [[Hr|Hr] _]; congruence.
  - intros Heq. congruence.
Qed.

Lemma socket_ok_sent cmd prm ts k :
  socket_ok k -> live (Some (at_line k)) = true ->
  socket_ok (with_sent (command_msg cmd prm ts) k).
Proof.
  intros (H1 & H2 & H3 & H4) Hl. unfold socket_ok; simpl. split_and; auto.
  - apply Forall_app. split; auto. repeat constructor. now exists cmd, prm, ts.
  - intros Heq. rewrite Heq in Hl. discriminate.
  - intros Hc. destruct (H3 Hc) as [[Hr|Hr] _]; rewrite Hr in Hl; discriminate.
Qed.

Lemma socket_ok_refused k :
  socket_ok k -> at_line k = AwaitingRegistration ->
  socket_ok (with_stage AwaitingClose (with_close k)).
Proof.
  intros (H1 & H2 & H3 & H4) Hk. destruct (H2 Hk) as [Hsent _].
  unfold socket_ok; simpl. split_and; auto; discriminate.
Qed.

Lemma finally_block_sockets ws d st :
  sockets (finally_block ws d st) = update_nth ws (with_stage Returned) (sockets st).
Proof.
  unfold finally_block. destruct (dict_contains ws (connected_clients st)); reflexivity.
Qed.

Lemma after_close_sockets ws io st :
  sockets (after_close ws io st) = update_nth ws (with_stage Returned) (sockets st).
Proof. unfold after_close, except_block. destruct io; now rewrite finally_block_sockets. Qed.

Lemma socket_change_finally s0 ws d st st0 :
  s0 <> Returned -> sockets st0 = sockets st ->
  socket_change s0 ws st (finally_block ws d st0).
Proof.
  intros Hs Hsock. exists (with_stage Returned). rewrite finally_block_sockets, Hsock.
  split; auto. intros k Hk Hat. apply socket_ok_stage; auto; congruence.
Qed.

Lemma socket_change_suspend s0 s ws st st0 :
  s0 <> Returned -> s0 <> AwaitingClose ->
  s <> AwaitingRegistration -> s <> AwaitingClose -> sockets st0 = sockets st ->
  socket_change s0 ws st (suspend ws s st0).
Proof.
  intros Hs Hs0 Hs' Hs'' Hsock. exists (with_stage s). unfold suspend; simpl. rewrite Hsock.
  split; auto. intros k Hk Hat. apply socket_ok_stage; auto; try congruence.
  right. congruence.
Qed.

Lemma socket_change_replay s0 ws d n rest io st st0 :
  s0 <> Returned -> s0 <> AwaitingClose -> sockets st0 = sockets st ->
  socket_change s0 ws st (replay ws d n rest io st0).
Proof.
  intros Hs Hs0 Hsock. unfold replay, except_block.
  destruct rest as [|cmd rest'].
  - destruct (backlog_del d (device_commands st0)).
    + apply socket_change_suspend; auto; discriminate.
    + now apply socket_change_finally.
  - destruct io as [e|]; [now apply socket_change_finally|].
    exists (fun k => with_stage (SendingQueued d n rest')
                       (with_sent (command_msg (command cmd) (params cmd) (timestamp cmd)) k)).
    unfold suspend, send_str; simpl. rewrite update_nth_compose, Hsock. split; auto.
    intros k Hk Hat. apply socket_ok_sent_stage; auto; congruence.
Qed.

Lemma socket_change_none s0 ws st st' :
  sockets st' = sockets st -> socket_change s0 ws st st'.
Proof.
  intros Hsock. exists (fun k => k). rewrite update_nth_same. auto.
Qed.

Lemma socket_change_registration ws arrival now io st :
  socket_change AwaitingRegistration ws st (registration ws arrival now io st).
Proof.
  assert (Hne : AwaitingRegistration <> Returned) by discriminate.
  assert (Hne' : AwaitingRegistration <> AwaitingClose) by discriminate.
  unfold registration, except_block.
  destruct (wait_for 10000%N arrival) as [m|]; [|now apply socket_change_finally].
  destruct m as [data| | | | | | |];
    try (now apply socket_change_none);
    try (exists (fun k => with_stage AwaitingClose (with_close k));
         unfold suspend, close; simpl;
         rewrite update_nth_compose; split; auto;
         intros k Hk Hat; now apply socket_ok_refused).
  destruct data as [reg_data|]; cbn [bind]; [|now apply socket_change_finally].
  destruct reg_data as [| | | | |items]; cbn [bind py_get];
    try now apply socket_change_finally.
  set (device := dict_get items "device_id" _).
  set (st1 := print _ (with_clients _ st)).
  destruct (backlog_contains device (device_commands st1)) as [[|]|e].
  - destruct (backlog_find device (device_commands st1)) as [cmds|].
    + now apply socket_change_replay.
    + now apply socket_change_finally.
  - apply socket_change_suspend; auto; discriminate.
  - now apply socket_change_finally.
Qed.

Lemma websocket_handler_sockets ws r st :
  exists f, sockets (websocket_handler ws r st) = update_nth ws f (sockets st) /\
            forall k, nth_error (sockets st) ws = Some k -> socket_ok k -> socket_ok (f k).
Proof.
  assert (Hgen : forall s0, stage_of st ws = Some s0 ->
                   socket_change s0 ws st (websocket_handler ws r st) ->
                   exists f, sockets (websocket_handler ws r st) = update_nth ws f (sockets st) /\
                             forall k, nth_error (sockets st) ws = Some k ->
                                       socket_ok k -> socket_ok (f k)).
  { intros s0 Hs (f & Hf & Hgood). exists f. split; auto.
    intros k Hk Hok. apply Hgood; auto.
    unfold stage_of in Hs. rewrite Hk in Hs. simpl in Hs. congruence. }
  unfold websocket_handler in *.
  destruct (stage_of st ws) as [[| |d n rest|d|]|] eqn:Hs; destruct r;
    try (exists (fun k => k); rewrite update_nth_same; auto; fail).
  - apply (Hgen AwaitingRegistration eq_refl). apply socket_change_registration.
  - apply (Hgen AwaitingClose eq_refl). unfold after_close, except_block.
    destruct io; apply socket_change_finally; auto; discriminate.
  - apply (Hgen (SendingQueued d n rest) eq_refl).
    apply socket_change_replay; auto; discriminate.
  - apply (Hgen (Listening d) eq_refl).
    destruct m as [data| | | | | | |]; unfold on_message;
      try (apply socket_change_finally; auto; discriminate);
      try (now apply socket_change_none).
    apply socket_change_none.
    now destruct (print_all_rest (route d data disk_ok) st) as (_ & _ & ->).
Qed.

Lemma send_command_sockets request now io st :
  sockets (fst (send_command request now io st)) = sockets st \/
  exists target cmd prm d,
    find_target (connected_clients st) d = Some target /\
    sockets (fst (send_command request now io st))
      = update_nth target (with_sent (command_msg cmd prm now)) (sockets st).
Proof.
  unfold send_command, send_command_try.
  destruct request as [data|]; simpl; auto.
  destruct data as [| | | | |items]; simpl; auto.
  destruct (find_target _ _) as [target_ws|] eqn:Ef.
  - destruct io; simpl; auto. right. eauto 8.
  - destruct (enqueue _ _ _); simpl; auto.
Qed.

Lemma reachable_sockets_ok st : reachable st -> Forall socket_ok (sockets st).
Proof.
  induction 1 as [|a st Hr IH]; [constructor|].
  destruct a as [addr|ws r|request now io]; cbn [step].
  - unfold accept; simpl. apply Forall_app. split; auto.
    constructor; [|constructor]. unfold socket_ok; simpl. split_and; auto; discriminate.
  - destruct (websocket_handler_sockets ws r st) as (f & -> & Hgood).
    now apply Forall_update_nth.
  - destruct (send_command_sockets request now io st)
      as [->|(target & cmd & prm & d & Ef & ->)]; auto.
    apply Forall_update_nth; auto.
    intros k Hk Hok. apply socket_ok_sent; auto.
    destruct (find_target_registered _ _ _ Ef) as (i & Hin & _).
    pose proof (reachable_registry_ok st Hr) as [_ Hserve].
    specialize (Hserve target i Hin). unfold stage_of in Hserve. rewrite Hk in Hserve.
    simpl in Hserve. now destruct (at_line k).
Qed.

Lemma socket_at st ws k : nth_error (sockets st) ws = Some k ->
  stage_of st ws = Some (at_line k) /\ sent_to st ws = sent k /\
  closed_by_server st ws = close_called k.
Proof. intros H. unfold stage_of, sent_to, closed_by_server. now rewrite H. Qed.

Lemma returned_is_idle ws r st :
  stage_of st ws = Some Returned -> websocket_handler ws r st = st.
Proof. intros Hs. unfold websocket_handler. rewrite Hs. now destruct r. Qed.

Lemma step_leaves_returned a st ws :
  reachable st -> stage_of st ws = Some Returned ->
  nth_error (sockets (step a st)) ws = nth_error (sockets st) ws.
Proof.
  intros Hr Hs. destruct a as [addr|ws' r|request now io]; cbn [step].
  - unfold accept; simpl. apply nth_error_app1. apply stage_of_bound. congruence.
  - destruct (Nat.eq_dec ws' ws) as [->|Hne]; [now rewrite returned_is_idle|].
    destruct (websocket_handler_sockets ws' r st) as (f & -> & _).
    rewrite nth_error_update_nth. destruct (Nat.eqb_spec ws' ws); [congruence | reflexivity].
  - destruct (send_command_sockets request now io st)
      as [->|(target & cmd & prm & d & Ef & ->)]; auto.
    rewrite nth_error_update_nth. destruct (Nat.eqb_spec target ws) as [->|]; auto.
    destruct (find_target_registered _ _ _ Ef) as (i & Hin & _).
    pose proof (reachable_registry_ok st Hr) as [_ Hserve].
    specialize (Hserve ws i Hin). rewrite Hs in Hserve. elim Hserve.
Qed.

Lemma dict_set_key {V : Type} (key : nat) (v : V) (d : list (nat * V)) :
  In key (map fst (dict_set key v d)).
Proof.
  induction d as [|[k w] d IH]; simpl; auto.
  destruct (Nat.eqb_spec k key) as [->|]; simpl; auto.
Qed.

Lemma finally_block_not_live ws d st : live (stage_of (finally_block ws d st) ws) = false.
Proof.
  rewrite finally_block_stage, Nat.eqb_refl. now destruct (stage_of st ws).
Qed.

Lemma replay_live_clients ws d n rest io st :
  live (stage_of (replay ws d n rest io st) ws) = true ->
  connected_clients (replay ws d n rest io st) = connected_clients st.
Proof.
  unfold replay, except_block. destruct rest as [|cmd rest'].
  - destruct (backlog_del d (device_commands st)); auto.
    now rewrite finally_block_not_live.
  - destruct io; auto. now rewrite finally_block_not_live.
Qed.

Lemma handler_live_registered ws r st :
  (live (stage_of st ws) = true -> In ws (registered st)) ->
  live (stage_of (websocket_handler ws r st) ws) = true ->
  In ws (registered (websocket_handler ws r st)).
Proof.
  intros IH. unfold websocket_handler.
  destruct (stage_of st ws) as [[| |d n rest|d|]|] eqn:Hs; destruct r; auto;
    try (rewrite Hs; discriminate).
  - unfold registration, except_block.
    destruct (wait_for 10000%N arrival) as [m|]; [|now rewrite finally_block_not_live].
    destruct m as [data| | | | | | |];
      try (rewrite Hs; discriminate);
      try (rewrite stage_of_suspend, Nat.eqb_refl, stage_of_close, Hs; discriminate).
    destruct data as [reg_data|]; cbn [bind]; [|now rewrite finally_block_not_live].
    destruct reg_data as [| | | | |items]; cbn [bind py_get];
      try now rewrite finally_block_not_live.
    set (device := dict_get items "device_id" _).
    set (entry := {| device_id := device; connected_at := now; address := remote_of st ws |}).
    set (st1 := print _ (with_clients _ st)).
    assert (H1 : In ws (registered st1)) by apply dict_set_key.
    destruct (backlog_contains device (device_commands st1)) as [[|]|e];
      try now rewrite finally_block_not_live.
    + destruct (backlog_find device (device_commands st1)) as [cmds|];
        [|now rewrite finally_block_not_live].
      intros Hl. unfold registered. now rewrite (replay_live_clients _ _ _ _ _ _ Hl).
    + intros _. exact H1.
  - rewrite after_close_stage, Nat.eqb_refl, Hs. discriminate.
  - intros Hl. unfold registered. rewrite (replay_live_clients _ _ _ _ _ _ Hl).
    now apply IH.
  - destruct m as [data| | | | | | |]; unfold on_message;
      try now rewrite finally_block_not_live.
    + intros _. unfold registered.
      destruct (print_all_rest (route d data disk_ok) st) as (-> & _ & _). now apply IH.
    + intros _. now apply IH.
    + intros _. now apply IH.
    + intros _. now apply IH.
Qed.

Lemma websocket_handler_other ws r st w :
  w <> ws -> stage_of (websocket_handler ws r st) w = stage_of st w.
Proof.
  intros Hne. destruct (websocket_handler_sockets ws r st) as (f & Hf & _).
  unfold stage_of. rewrite Hf, nth_error_update_nth.
  destruct (Nat.eqb_spec ws w); [congruence | reflexivity].
Qed.

Lemma reachable_live_registered st ws :
  reachable st -> live (stage_of st ws) = true -> In ws (registered st).
Proof.
  intros Hr. revert ws. induction Hr as [|a st Hr IH]; intros ws.
  - unfold stage_of. simpl. now destruct ws.
  - destruct a as [addr|ws' r|request now io]; cbn [step].
    + rewrite stage_of_accept. change (registered (accept addr st)) with (registered st).
      destruct (Nat.ltb (ws) (length (sockets st))); [apply IH|].
      destruct (Nat.eqb ws (length (sockets st))); discriminate.
    + destruct (Nat.eq_dec ws ws') as [->|Hne].
      * apply handler_live_registered. apply IH.
      * rewrite websocket_handler_other by exact Hne. intros Hl.
        specialize (IH ws Hl). unfold registered in *.
        apply in_map_iff in IH as ([w i] & Hw & Hin). simpl in Hw. subst w.
        change ws with (fst (ws, i)). apply in_map. now apply resume_keeps.
    + rewrite send_command_stage. unfold registered. rewrite send_command_clients. apply IH.
Qed.

(** X1 (the listings count the live handlers).  In every state of a run a
    socket has an entry in [connected_clients] exactly when its handler is
    past the registration and has not returned; so the ['count'] of
    [list_devices] and the ['clients'] of [index] are the number of such
    handlers, and both list one device per handler. *)
Theorem listings_count_live_handlers st now :
  reachable st ->
  (forall ws, In ws (registered st) <-> live (stage_of st ws) = true) /\
  answer (list_devices st) "count" = Some (JInt (Z.of_nat (length (live_sockets st)))) /\
  answer (index now st) "clients" = Some (JInt (Z.of_nat (length (live_sockets st)))) /\
  (exists devices, answer (list_devices st) "devices" = Some (JArr devices) /\
                   length devices = length (live_sockets st)) /\
  (exists devices, answer (index now st) "devices" = Some (JArr devices) /\
                   length devices = length (live_sockets st)).
Proof.
  intros Hr.
  assert (Hiff : forall ws, In ws (registered st) <-> live (stage_of st ws) = true).
  { intros ws. split; [|now apply reachable_live_registered].
    intros Hin. apply in_map_iff in Hin as ([w i] & Hw & Hin). simpl in Hw. subst w.
    pose proof (reachable_registry_ok st Hr) as [_ Hserve]. specialize (Hserve ws i Hin).
    now destruct (stage_of st ws) as [[]|]. }
  assert (Hlen : length (connected_clients st) = length (live_sockets st)).
  { rewrite <- (length_map fst). apply Permutation_length. apply NoDup_Permutation.
    - apply (reachable_registry_ok st Hr).
    - apply NoDup_filter, seq_NoDup.
    - intros ws. fold (registered st). rewrite Hiff. unfold live_sockets.
      rewrite filter_In, in_seq. split; [|tauto].
      intros Hl. split; auto. split; [lia|]. simpl. apply stage_of_bound.
      destruct (stage_of st ws); [discriminate | discriminate]. }
  split_and; auto.
  - unfold answer, list_devices; simpl. now rewrite length_map, Hlen.
  - unfold answer, index; simpl. now rewrite Hlen.
  - eexists. split; [reflexivity|]. now rewrite length_map.
  - eexists. split; [reflexivity|]. now rewrite length_map.
Qed.

(** X2 (only command messages are sent).  Whatever the run, every message
    the server has sent on a socket is a
    [{'type': 'remote_command', 'command', 'params', 'timestamp'}] object. *)
Theorem only_remote_commands_are_sent st ws m :
  reachable st ->
  In m (sent_to st ws) ->
  exists cmd prm ts,
    m = JObj [("type", JStr "remote_command"); ("command", cmd);
              ("params", prm); ("timestamp", JStr ts)].
Proof.
  intros Hr Hin. pose proof (reachable_sockets_ok st Hr) as Hok.
  unfold sent_to in Hin. destruct (nth_error (sockets st) ws) as [k|] eqn:Hk; [|elim Hin].
  rewrite Forall_forall in Hok. destruct (Hok k (nth_error_In _ _ Hk)) as (Hsent & _).
  rewrite Forall_forall in Hsent. exact (Hsent m Hin).
Qed.

(** X3 (nothing is sent before the registration).  A socket whose handler
    still waits for the registration frame has been sent nothing, and
    [close] has not been called on it. *)
Theorem nothing_sent_before_registration st ws :
  reachable st ->
  stage_of st ws = Some AwaitingRegistration ->
  sent_to st ws = [] /\ closed_by_server st ws = false /\ ~ In ws (registered st).
Proof.
  intros Hr Hs. pose proof (reachable_sockets_ok st Hr) as Hok.
  unfold stage_of in Hs. destruct (nth_error (sockets st) ws) as [k|] eqn:Hk; [|discriminate].
  simpl in Hs. injection Hs as Hs.
  rewrite Forall_forall in Hok. destruct (Hok k (nth_error_In _ _ Hk)) as (_ & Hwait & _).
  destruct (Hwait Hs) as [Hsent Hclose].
  destruct (socket_at st ws k Hk) as (Hstage & -> & ->). split_and; auto.
  apply registry_ok_unregistered; [now apply reachable_registry_ok|].
  rewrite Hstage, Hs. reflexivity.
Qed.

(** X4 (a returned handler is left alone).  Once the handler of a socket
    has returned, no action changes that socket again: it is sent nothing
    more, stays returned, and never comes back into [connected_clients]. *)
Theorem returned_socket_is_left_alone st ws later :
  reachable st ->
  stage_of st ws = Some Returned ->
  nth_error (sockets (run later st)) ws = nth_error (sockets st) ws /\
  sent_to (run later st) ws = sent_to st ws /\
  stage_of (run later st) ws = Some Returned /\
  ~ In ws (registered (run later st)).
Proof.
  intros Hr Hs.
  assert (Hsock : nth_error (sockets (run later st)) ws = nth_error (sockets st) ws).
  { revert st Hr Hs. induction later as [|a later IH]; intros st Hr Hs; auto.
    rewrite run_cons.
    pose proof (step_leaves_returned a st ws Hr Hs) as Hstep.
    rewrite IH; auto.
    - now constructor.
    - unfold stage_of. now rewrite Hstep. }
  assert (Hs' : stage_of (run later st) ws = Some Returned).
  { unfold stage_of. rewrite Hsock. exact Hs. }
  split_and; auto.
  - unfold sent_to. now rewrite Hsock.
  - apply registry_ok_unregistered.
    + apply reachable_registry_ok. now apply reachable_run.
    + now rewrite Hs'.
Qed.

Lemma closed_by_server_same st st' ws :
  sockets st' = sockets st -> closed_by_server st' ws = closed_by_server st ws.
Proof. unfold closed_by_server. now intros ->. Qed.

Lemma closed_by_server_update (f : socket -> socket) w st st' ws :
  sockets st' = update_nth w f (sockets st) ->
  (forall k, close_called (f k) = close_called k) ->
  closed_by_server st' ws = closed_by_server st ws.
Proof.
  intros Hs Hf. unfold closed_by_server. rewrite Hs, nth_error_update_nth.
  destruct (Nat.eqb w ws); auto.
  destruct (nth_error (sockets st) ws); simpl; auto.
Qed.

Lemma closed_by_server_finally w d st ws :
  closed_by_server (finally_block w d st) ws = closed_by_server st ws.
Proof.
  apply closed_by_server_update with (f := with_stage Returned) (w := w); auto.
  apply finally_block_sockets.
Qed.

Lemma closed_by_server_suspend w s st ws :
  closed_by_server (suspend w s st) ws = closed_by_server st ws.
Proof. now apply closed_by_server_update with (f := with_stage s) (w := w). Qed.

Lemma closed_by_server_send_str w m st ws :
  closed_by_server (send_str w m st) ws = closed_by_server st ws.
Proof. now apply closed_by_server_update with (f := with_sent m) (w := w). Qed.

Lemma closed_by_server_replay w d n rest io st ws :
  closed_by_server (replay w d n rest io st) ws = closed_by_server st ws.
Proof.
  unfold replay, except_block. destruct rest as [|cmd rest'].
  - destruct (backlog_del d (device_commands st)).
    + now rewrite closed_by_server_suspend.
    + now rewrite closed_by_server_finally.
  - destruct io as [e|].
    + now rewrite closed_by_server_finally.
    + now rewrite closed_by_server_suspend, closed_by_server_send_str.
Qed.

Lemma closed_by_server_registration ws arrival now io st :
  stage_of st ws <> None ->
  closed_by_server (registration ws arrival now io st) ws
    = (refused arrival || closed_by_server st ws)%bool.
Proof.
  intros Hs. unfold registration, except_block, refused.
  destruct (wait_for 10000%N arrival) as [m|]; [|now rewrite closed_by_server_finally].
  destruct m as [data| | | | | | |]; auto;
    try (rewrite closed_by_server_suspend; unfold closed_by_server, close; simpl;
         rewrite nth_error_update_nth, Nat.eqb_refl;
         unfold stage_of in Hs; now destruct (nth_error (sockets st) ws)).
  destruct data as [reg_data|]; cbn [bind]; [|now rewrite closed_by_server_finally].
  destruct reg_data as [| | | | |items]; cbn [bind py_get];
    try now rewrite closed_by_server_finally.
  set (device := dict_get items "device_id" _).
  set (st1 := print _ (with_clients _ st)).
  change (closed_by_server st ws) with (closed_by_server st1 ws).
  destruct (backlog_contains device (device_commands st1)) as [[|]|e];
    try now rewrite ?closed_by_server_finally, ?closed_by_server_suspend.
  destruct (backlog_find device (device_commands st1)) as [cmds|];
    [apply closed_by_server_replay | now rewrite closed_by_server_finally].
Qed.

Lemma closed_by_server_step a st ws :
  closed_by_server (step a st) ws =
  match a with
  | Resume w (FirstFrame arrival _ _) =>
      if Nat.eqb w ws
      then match stage_of st ws with
           | Some AwaitingRegistration => (refused arrival || closed_by_server st ws)%bool
           | _ => closed_by_server st ws
           end
      else closed_by_server st ws
  | _ => closed_by_server st ws
  end.
Proof.
  destruct a as [addr|w r|request now io]; cbn [step].
  - unfold closed_by_server, accept; simpl.
    destruct (Nat.ltb_spec ws (length (sockets st))) as [Hlt|Hge].
    + now rewrite nth_error_app1.
    + rewrite nth_error_app2 by exact Hge.
      replace (nth_error (sockets st) ws) with (@None socket)
        by (symmetry; now apply nth_error_None).
      destruct (ws - length (sockets st)) as [|[|k]]; reflexivity.
  - assert (Hother : w <> ws ->
              closed_by_server (websocket_handler w r st) ws = closed_by_server st ws).
    { intros Hne. destruct (websocket_handler_sockets w r st) as (f & Hf & _).
      unfold closed_by_server. rewrite Hf, nth_error_update_nth.
      destruct (Nat.eqb_spec w ws); [congruence | reflexivity]. }
    destruct (Nat.eqb_spec w ws) as [->|Hne].
    2:{ rewrite (Hother Hne). now destruct r. }
    unfold websocket_handler.
    destruct (stage_of st ws) as [[| |d n rest|d|]|] eqn:Hs; destruct r; auto.
    + apply closed_by_server_registration. congruence.
    + unfold after_close, except_block. destruct io; now rewrite closed_by_server_finally.
    + apply closed_by_server_replay.
    + destruct m as [data| | | | | | |]; unfold on_message; auto;
        try now rewrite closed_by_server_finally.
      apply closed_by_server_same.
      now destruct (print_all_rest (route d data disk_ok) st) as (_ & _ & ->).
  - destruct (send_command_sockets request now io st)
      as [H|(target & cmd & prm & d & _ & H)].
    + now apply closed_by_server_same.
    + now apply closed_by_server_update with (f := with_sent (command_msg cmd prm now))
                                            (w := target).
Qed.

(** X5 (the server closes only sockets it refuses).  [ws.close()] is
    called when the message that ends the wait for the registration comes
    in time and is not a TEXT frame, and in no other case: an action makes
    [close] called on a socket exactly when it resumes the waiting handler
    of that socket with such a message.  A socket on which [close] has been
    called was never sent anything and is not registered, and its handler
    is waiting inside [close] or has returned; a handler that waits inside
    [close] has called it. *)
Theorem server_closes_only_refused_sockets st ws a :
  reachable st ->
  (closed_by_server st ws = true ->
   (stage_of st ws = Some AwaitingClose \/ stage_of st ws = Some Returned) /\
   sent_to st ws = [] /\ ~ In ws (registered st)) /\
  (stage_of st ws = Some AwaitingClose -> closed_by_server st ws = true) /\
  (closed_by_server st ws = false ->
   (closed_by_server (step a st) ws = true <->
    stage_of st ws = Some AwaitingRegistration /\
    exists t m now io,
      a = Resume ws (FirstFrame (Some (t, m)) now io) /\
      (t < 10000)%N /\
      (m = BINARY \/ m = CLOSE \/ m = CLOSING \/ m = CLOSED \/ m = ERROR))).
Proof.
  intros Hr. pose proof (reachable_sockets_ok st Hr) as Hok.
  rewrite Forall_forall in Hok. split_and.
  - intros Hc. unfold closed_by_server in Hc.
    destruct (nth_error (sockets st) ws) as [k|] eqn:Hk; [|discriminate].
    destruct (Hok k (nth_error_In _ _ Hk)) as (_ & _ & Hclosed & _).
    destruct (Hclosed Hc) as [Hat Hsent].
    destruct (socket_at st ws k Hk) as (Hstage & -> & _). rewrite Hstage.
    split_and; auto.
    + destruct Hat as [-> | ->]; auto.
    + apply registry_ok_unregistered; [now apply reachable_registry_ok|].
      rewrite Hstage. now destruct Hat as [-> | ->].
  - intros Hs. unfold stage_of in Hs.
    destruct (nth_error (sockets st) ws) as [k|] eqn:Hk; [|discriminate].
    destruct (Hok k (nth_error_In _ _ Hk)) as (_ & _ & _ & Hwait).
    destruct (socket_at st ws k Hk) as (_ & _ & ->). apply Hwait.
    simpl in Hs. congruence.
  - intros Hopen. rewrite closed_by_server_step. split.
    + destruct a as [addr|w r|request now io]; try congruence.
      destruct r as [arrival now io|io|io|m disk_ok]; try congruence.
      destruct (Nat.eqb_spec w ws) as [->|Hne]; [|congruence].
      destruct (stage_of st ws) as [[| | | |]|]; try congruence.
      rewrite Hopen, orb_false_r. unfold refused, wait_for.
      destruct arrival as [[t m]|]; [|discriminate].
      destruct (N.ltb_spec t 10000) as [Ht|_]; [|discriminate].
      intros Href. split; auto. exists t, m, now, io.
      destruct m; try discriminate; tauto.
    + intros (Hs & t & m & now & io & -> & Ht & Hm).
      rewrite Nat.eqb_refl, Hs. unfold refused, wait_for.
      apply N.ltb_lt in Ht. rewrite Ht.
      now destruct Hm as [->|[->|[->|[->| ->]]]].
Qed.

(** *** What happens to the backlogs *)

Lemma py_eq_unhashable (a b : json) :
  hashable a = true -> hashable b = false -> py_eq a b = false.
Proof.
  destruct a; simpl; try discriminate; destruct b; simpl; try discriminate; auto.
Qed.

Lemma find_target_unhashable st d :
  reachable st -> hashable d = false -> find_target (connected_clients st) d = None.
Proof.
  intros Hr Hd. pose proof (reachable_queue_ok st Hr) as Q.
  assert (Hall : forall w i, In (w, i) (connected_clients st) -> hashable (device_id i) = true).
  { intros w i Hin. now destruct (Q w i Hin). }
  clear Q. induction (connected_clients st) as [|[w i] clients IH]; simpl; auto.
  rewrite (py_eq_unhashable _ _ (Hall w i (or_introl eq_refl)) Hd). apply IH.
  intros w' i' Hin. apply (Hall w' i'). now right.
Qed.

Lemma backlog_find_same (k d : json) (cmds : list (json * list queued)) :
  keys_ok cmds -> hashable k = true -> hashable d = true -> py_eq k d = true ->
  backlog_find k cmds = backlog_find d cmds.
Proof.
  intros Hok Hk Hd Hkd. induction cmds as [|[k' w] cmds IH]; simpl; auto.
  destruct Hok as (Hk' & _ & Hok).
  destruct (py_eq k' k) eqn:E, (py_eq k' d) eqn:E'; auto.
  - rewrite (py_eq_trans k' k d) in E'; auto. discriminate.
  - rewrite (py_eq_trans k' d k) in E; auto; [discriminate|].
    rewrite py_eq_sym; auto.
Qed.

Lemma backlog_find_set_apart (k d : json) (v : list queued) (cmds : list (json * list queued)) :
  keys_ok cmds -> hashable k = true -> hashable d = true -> py_eq d k = false ->
  backlog_find k (backlog_set d v cmds) = backlog_find k cmds.
Proof.
  intros Hok Hk Hd Hdk. induction cmds as [|[k' w] cmds IH]; simpl.
  - now rewrite Hdk.
  - destruct Hok as (Hk' & _ & Hok).
    destruct (py_eq k' d) eqn:E; simpl.
    + destruct (py_eq k' k) eqn:E'; auto.
      rewrite (py_eq_trans d k' k) in Hdk; auto; [discriminate|].
      rewrite py_eq_sym; auto.
    + destruct (py_eq k' k); auto.
Qed.

Lemma backlog_find_remove_apart (k d : json) (cmds : list (json * list queued)) :
  keys_ok cmds -> hashable k = true -> hashable d = true -> py_eq d k = false ->
  backlog_find k (backlog_remove d cmds) = backlog_find k cmds.
Proof.
  intros Hok Hk Hd Hdk. induction cmds as [|[k' w] cmds IH]; simpl; auto.
  destruct Hok as (Hk' & _ & Hok).
  destruct (py_eq k' d) eqn:E; simpl.
  - destruct (py_eq k' k) eqn:E'; auto.
    rewrite (py_eq_trans d k' k) in Hdk; auto; [discriminate|].
    rewrite py_eq_sym; auto.
  - destruct (py_eq k' k); auto.
Qed.

Lemma enqueue_apart (d k : json) (q : queued) (cmds cmds' : list (json * list queued)) :
  keys_ok cmds -> hashable k = true ->
  enqueue d q cmds = Ok cmds' -> py_eq d k = false ->
  backlog_find k cmds' = backlog_find k cmds.
Proof.
  intros Hok Hk He Hdk. pose proof (enqueue_hashable _ _ _ _ He) as Hd.
  revert He. unfold enqueue, backlog_contains. rewrite Hd. cbn [bind].
  destruct (backlog_find d cmds) as [l|] eqn:E.
  - rewrite E. intros [= <-]. now apply backlog_find_set_apart.
  - rewrite backlog_find_set by exact Hd. intros [= <-].
    rewrite backlog_find_set_apart; auto.
    + now apply backlog_find_set_apart.
    + now apply keys_ok_set.
Qed.

Lemma no_empty_backlog_set (d : json) (v : list queued) (cmds : list (json * list queued)) :
  v <> [] -> no_empty_backlog cmds -> no_empty_backlog (backlog_set d v cmds).
Proof.
  intros Hv H. induction H as [|[k w] cmds Hk H IH]; simpl.
  - repeat constructor. exact Hv.
  - destruct (py_eq k d); constructor; auto.
Qed.

Lemma no_empty_backlog_reset (d : json) (v v0 : list queued) (cmds : list (json * list queued)) :
  hashable d = true -> v <> [] -> no_empty_backlog cmds ->
  no_empty_backlog (backlog_set d v (backlog_set d v0 cmds)).
Proof.
  intros Hd Hv H. induction H as [|[k w] cmds Hk H IH]; simpl.
  - rewrite py_eq_refl by exact Hd. repeat constructor. exact Hv.
  - destruct (py_eq k d) eqn:E; simpl; rewrite E; constructor; auto.
Qed.

Lemma no_empty_backlog_remove (d : json) (cmds : list (json * list queued)) :
  no_empty_backlog cmds -> no_empty_backlog (backlog_remove d cmds).
Proof.
  intros H. induction H as [|[k w] cmds Hk H IH]; simpl; [constructor|].
  destruct (py_eq k d); auto. constructor; auto.
Qed.

Lemma no_empty_backlog_enqueue (d : json) (q : queued) (cmds cmds' : list (json * list queued)) :
  enqueue d q cmds = Ok cmds' -> no_empty_backlog cmds -> no_empty_backlog cmds'.
Proof.
  intros He H. pose proof (enqueue_hashable _ _ _ _ He) as Hd.
  assert (Hne : forall l : list queued, l ++ [q] <> []) by (intros [|x l]; discriminate).
  revert He. unfold enqueue, backlog_contains. rewrite Hd. cbn [bind].
  destruct (backlog_find d cmds) as [l|] eqn:E.
  - rewrite E. intros [= <-]. now apply no_empty_backlog_set.
  - rewrite backlog_find_set by exact Hd. intros [= <-].
    now apply no_empty_backlog_reset.
Qed.

Lemma reachable_no_empty_backlog st : reachable st -> no_empty_backlog (device_commands st).
Proof.
  induction 1 as [|a st _ IH]; [constructor|].
  destruct (step_commands a st) as [->|[[d ->]|(d & q & He)]]; auto.
  - now apply no_empty_backlog_remove.
  - eapply no_empty_backlog_enqueue; eauto.
Qed.

Lemma backlog_find_In {V : Type} (d : json) (l : V) (cmds : list (json * V)) :
  backlog_find d cmds = Some l -> exists k, In (k, l) cmds.
Proof.
  induction cmds as [|[k w] cmds IH]; simpl; [discriminate|].
  destruct (py_eq k d).
  - intros [= ->]. eauto.
  - intros H. destruct (IH H) as [k' Hin]. eauto.
Qed.

Lemma py_eq_hashable_l (a b : json) :
  hashable b = true -> py_eq a b = true -> hashable a = true.
Proof.
  destruct a; simpl; auto; destruct b; simpl; discriminate.
Qed.

Lemma backlog_find_remove_unrelated (k d : json) (cmds : list (json * list queued)) :
  keys_ok cmds -> hashable k = true -> py_eq d k = false ->
  backlog_find k (backlog_remove d cmds) = backlog_find k cmds.
Proof.
  intros Hok Hk Hdk. destruct (hashable d) eqn:Hd.
  - now apply backlog_find_remove_apart.
  - induction cmds as [|[k' w] cmds IH]; simpl; auto.
    destruct Hok as (Hk' & _ & Hok).
    rewrite (py_eq_unhashable k' d Hk' Hd). simpl. now rewrite IH.
Qed.

Lemma awaiting_nothing_sent st ws :
  reachable st -> stage_of st ws = Some AwaitingRegistration -> sent_to st ws = [].
Proof.
  intros Hr Hs. pose proof (reachable_sockets_ok st Hr) as Hok.
  unfold stage_of in Hs. unfold sent_to.
  destruct (nth_error (sockets st) ws) as [k|] eqn:Hk; [|reflexivity].
  simpl in Hs. injection Hs as Hs.
  rewrite Forall_forall in Hok. destruct (Hok k (nth_error_In _ _ Hk)) as (_ & Hwait & _).
  now destruct (Hwait Hs).
Qed.

(** X6 (a refused request has no effect).  [send_command] never changes
    [connected_clients]; it answers with status 200 or 500; and an answer
    with status 500 means that no backlog and no socket has changed: the
    only trace is the printed error, whose text is the ['error'] of the
    answer.  An answer with status 200 says ['sent'] or ['queued']. *)
Theorem refused_request_has_no_effect st request now io :
  let r := send_command request now io st in
  connected_clients (fst r) = connected_clients st /\
  (status (snd r) = 200 \/ status (snd r) = 500) /\
  (status (snd r) = 500 ->
   device_commands (fst r) = device_commands st /\
   sockets (fst r) = sockets st /\
   answer (snd r) "status" = None /\
   exists e, console (fst r) = console st ++ [print_command_error e] /\
             answer (snd r) "error" = Some (JStr (str_exn e))) /\
  (status (snd r) = 200 ->
   answer (snd r) "status" = Some (JStr "sent") \/
   answer (snd r) "status" = Some (JStr "queued")).
Proof.
  intros r. subst r. split; [apply send_command_clients|].
  unfold send_command.
  destruct (send_command_try request now io st) as [[st' resp]|e] eqn:E.
  - assert (Hresp : resp = queued_response \/ exists cmd, resp = sent_response cmd).
    { revert E. unfold send_command_try.
      destruct request as [data|]; cbn [bind]; [|discriminate].
      destruct data as [| | | | |items]; cbn [bind py_get]; try discriminate.
      destruct (find_target _ _).
      - destruct io; [discriminate|]. intros [= _ <-]. eauto.
      - destruct (enqueue _ _ _); cbn [bind]; [|discriminate]. intros [= _ <-]. auto. }
    destruct Hresp as [->|[cmd ->]]; cbn [fst snd]; split_and; auto; discriminate.
  - cbn [fst snd]. split_and; auto; try discriminate.
    intros _. split_and; auto. exists e. auto.
Qed.

(** X7 (requests that cannot be looked up).  A body that is not JSON, a
    JSON body that is not an object, and an object whose ['device_id'] is a
    list or an object are all answered with status 500 and only printed:
    the first two whatever the state, the third because no registered
    device id is ever unhashable, so that the lookup misses and the
    dictionary test at line 76 raises. *)
Theorem malformed_requests_are_refused st now io :
  reachable st ->
  send_command None now io st
    = (print (print_command_error JSONDecodeError) st, error_response JSONDecodeError) /\
  (forall data, (forall items, data <> JObj items) ->
     send_command (Some data) now io st
       = (print (print_command_error AttributeError) st, error_response AttributeError)) /\
  (forall items,
     hashable (dict_get items "device_id" (JStr "default")) = false ->
     send_command (Some (JObj items)) now io st
       = (print (print_command_error TypeError) st, error_response TypeError)).
Proof.
  intros Hr. split_and.
  - reflexivity.
  - intros data Hdata. destruct data as [| | | | |items]; try reflexivity.
    now elim (Hdata items).
  - intros items Hd. unfold send_command, send_command_try. cbn [bind py_get].
    rewrite (find_target_unhashable st _ Hr Hd).
    unfold enqueue, backlog_contains. rewrite Hd. reflexivity.
Qed.

(** X8 (a device id that cannot be a key).  A registration message whose
    ['device_id'] is a list or an object makes the handler register the
    socket, fail at the dictionary test of line 188 and return in the same
    block: [connected_clients] and [device_commands] are as before, the
    socket was sent nothing, and the three lines printed are the
    connection, the error and the disconnection.  Hence every device id in
    [connected_clients] is hashable, in every state of a run. *)
Theorem unhashable_registration_is_dropped st ws t items now io d :
  reachable st ->
  stage_of st ws = Some AwaitingRegistration ->
  (t < 10000)%N ->
  items_get "device_id" items = Some d ->
  hashable d = false ->
  let st' := step (Resume ws (FirstFrame (Some (t, TEXT (Some (JObj items)))) now io)) st in
  stage_of st' ws = Some Returned /\
  connected_clients st' = connected_clients st /\
  device_commands st' = device_commands st /\
  sent_to st' ws = [] /\
  console st' = console st ++ [print_connected d (remote_of st ws);
                               print_ws_exception TypeError;
                               print_disconnected ws d (remote_of st ws)] /\
  (forall w i, In (w, i) (connected_clients st) -> hashable (device_id i) = true).
Proof.
  intros Hr Hs Ht Hitem Hd st'.
  assert (Hfresh : ~ In ws (registered st)).
  { apply registry_ok_unregistered; [now apply reachable_registry_ok | now rewrite Hs]. }
  assert (Hst' : st' = registration ws (Some (t, TEXT (Some (JObj items)))) now io st).
  { unfold st'. cbn [step]. unfold websocket_handler. now rewrite Hs. }
  assert (Hdev : forall fallback, dict_get items "device_id" fallback = d).
  { intros fallback. unfold dict_get. now rewrite Hitem. }
  assert (Hraise : forall cmds : list (json * list queued),
             backlog_contains d cmds = Raise TypeError).
  { intros cmds. unfold backlog_contains. now rewrite Hd. }
  rewrite Hst'. unfold registration, wait_for.
  apply N.ltb_lt in Ht. rewrite Ht. cbn [bind py_get].
  rewrite Hdev, Hraise. cbv beta iota zeta. unfold except_block.
  set (entry := {| device_id := d; connected_at := now; address := remote_of st ws |}).
  set (st1 := print (print_ws_exception TypeError) _).
  split_and.
  - rewrite finally_block_stage, Nat.eqb_refl.
    change (stage_of st1 ws) with (stage_of st ws). now rewrite Hs.
  - rewrite finally_block_clients. unfold st1; simpl.
    rewrite dict_set_fresh by exact Hfresh. now apply dict_del_last.
  - now rewrite finally_block_commands.
  - rewrite finally_block_sent. change (sent_to st1 ws) with (sent_to st ws).
    now apply awaiting_nothing_sent.
  - rewrite finally_block_console. unfold st1; simpl. now rewrite <- !app_assoc.
  - intros w i Hin. now destruct (reachable_queue_ok st Hr w i Hin).
Qed.

Lemma registration_keeps_commands ws arrival now io st :
  no_empty_backlog (device_commands st) ->
  device_commands (registration ws arrival now io st) = device_commands st.
Proof.
  intros Hne. unfold registration, except_block.
  destruct (wait_for 10000%N arrival) as [m|]; [|now rewrite finally_block_commands].
  destruct m as [data| | | | | | |]; try reflexivity.
  destruct data as [reg_data|]; cbn [bind]; [|now rewrite finally_block_commands].
  destruct reg_data as [| | | | |items]; cbn [bind py_get];
    try now rewrite finally_block_commands.
  set (device := dict_get items "device_id" _).
  set (st1 := print _ (with_clients _ st)).
  destruct (backlog_contains device (device_commands st1)) as [[|]|e];
    try now rewrite ?finally_block_commands.
  destruct (backlog_find device (device_commands st1)) as [cmds|] eqn:Ef;
    [|now rewrite finally_block_commands].
  destruct cmds as [|cmd rest].
  - exfalso. destruct (backlog_find_In device [] _ Ef) as [k Hin].
    unfold no_empty_backlog in Hne. rewrite Forall_forall in Hne.
    now apply (Hne _ Hin).
  - unfold replay, except_block. destruct io; [now rewrite finally_block_commands | reflexivity].
Qed.

(** What makes [device_commands] change: a request that is queued, or the
    deletion that ends a replay. *)
Lemma step_commands_cause a st :
  no_empty_backlog (device_commands st) ->
  device_commands (step a st) = device_commands st \/
  (exists ws d n io,
     a = Resume ws (SendDone io) /\
     stage_of st ws = Some (SendingQueued d n []) /\
     hashable d = true /\
     device_commands (step a st) = backlog_remove d (device_commands st)) \/
  (exists items now io,
     a = PostCommand (Some (JObj items)) now io /\
     find_target (connected_clients st) (dict_get items "device_id" (JStr "default")) = None /\
     enqueue (dict_get items "device_id" (JStr "default"))
       {| command := dict_get items "command" JNull;
          params := dict_get items "params" (JObj []); timestamp := now |}
       (device_commands st) = Ok (device_commands (step a st))).
Proof.
  intros Hne. destruct a as [addr|ws r|request now io]; cbn [step]; auto.
  - unfold websocket_handler.
    destruct (stage_of st ws) as [[| |d n rest|d|]|] eqn:Hs; destruct r; auto.
    + left. now apply registration_keeps_commands.
    + left. apply after_close_commands.
    + unfold replay, except_block. destruct rest as [|cmd rest'].
      * destruct (backlog_del d (device_commands st)) as [cmds|e] eqn:E;
          [|left; now rewrite finally_block_commands].
        right; left. exists ws, d, n, io. revert E. unfold backlog_del.
        destruct (hashable d); [|discriminate].
        destruct (backlog_find d (device_commands st)); [|discriminate].
        intros [= <-]. auto.
      * left. destruct io; [now rewrite finally_block_commands | reflexivity].
    + left. apply on_message_commands.
  - unfold send_command, send_command_try.
    destruct request as [data|]; simpl; auto.
    destruct data as [| | | | |items]; simpl; auto.
    destruct (find_target _ _) as [target_ws|] eqn:Ef.
    + destruct io; simpl; auto.
    + destruct (enqueue _ _ _) as [cmds|e] eqn:E; simpl; auto.
      right; right. exists items, now, io. auto.
Qed.

(** X9 (a backlog grows at its tail or goes whole).  For a hashable device
    id, one action leaves the device's backlog as it is, or appends one
    command at its end, or removes it whole.  The command appended is the
    one of the [send_command] call that the action is, made for this device
    id while no socket is registered under it; the removal is the deletion
    of line 198 by a socket that serves this device id and has no command
    left to replay.  So commands are never reordered, replaced or dropped
    one by one, and what is posted for one device never shows up in the
    backlog of another. *)
Theorem backlog_grows_at_the_tail_or_goes st d a :
  reachable st ->
  hashable d = true ->
  backlog_of d (step a st) = backlog_of d st \/
  (exists items now io,
     a = PostCommand (Some (JObj items)) now io /\
     py_eq (dict_get items "device_id" (JStr "default")) d = true /\
     find_target (connected_clients st) (dict_get items "device_id" (JStr "default")) = None /\
     backlog_of d (step a st) =
       backlog_of d st ++ [{| command := dict_get items "command" JNull;
                              params := dict_get items "params" (JObj []);
                              timestamp := now |}]) \/
  (exists ws d' n io,
     a = Resume ws (SendDone io) /\
     stage_of st ws = Some (SendingQueued d' n []) /\
     py_eq d' d = true /\
     backlog_of d (step a st) = []).
Proof.
  intros Hr Hd. pose proof (reachable_keys_ok st Hr) as Hk.
  destruct (step_commands_cause a st (reachable_no_empty_backlog st Hr))
    as [Hq|[(ws & d0 & n & io & -> & Hs & Hd0 & Hq)|(items & now & io & -> & Hmiss & He)]].
  - left. unfold backlog_of. now rewrite Hq.
  - destruct (py_eq d0 d) eqn:E.
    + right; right. exists ws, d0, n, io. split_and; auto.
      unfold backlog_of. rewrite Hq.
      rewrite <- (backlog_find_same d0 d); auto.
      * now rewrite backlog_find_removed.
      * now apply keys_ok_remove.
    + left. unfold backlog_of. rewrite Hq. now rewrite backlog_find_remove_unrelated.
  - pose proof (enqueue_hashable _ _ _ _ He) as Hd0.
    set (d0 := dict_get items "device_id" (JStr "default")) in *.
    set (q := {| command := dict_get items "command" JNull;
                 params := dict_get items "params" (JObj []); timestamp := now |}) in *.
    destruct (py_eq d0 d) eqn:E.
    + right; left. exists items, now, io. fold d0 q. split_and; auto.
      destruct (enqueue_tail d0 q (device_commands st) Hd0) as (cmds' & He' & Hfind).
      rewrite He in He'. injection He' as <-.
      unfold backlog_of.
      rewrite <- (backlog_find_same d0 d (device_commands (step _ st))); auto.
      * cbn [step]. rewrite Hfind. now rewrite (backlog_find_same d0 d (device_commands st)).
      * eapply keys_ok_enqueue; eauto.
    + left. unfold backlog_of. now rewrite (enqueue_apart d0 d q _ _ Hk Hd He E).
Qed.

(** X10 (no empty backlog).  A key is in [device_commands] only with a
    non-empty list: the list is created and appended to in the same block
    (lines 76-82) and the key is deleted with it (line 198), so a socket
    that finds its id at line 188 is always sent at least one command. *)
Theorem no_backlog_is_empty st d cmds :
  reachable st ->
  backlog_find d (device_commands st) = Some cmds ->
  cmds <> [] /\ map replayed cmds <> [].
Proof.
  intros Hr Hfind.
  destruct (backlog_find_In d cmds _ Hfind) as [k Hin].
  pose proof (reachable_no_empty_backlog st Hr) as H.
  unfold no_empty_backlog in H. rewrite Forall_forall in H.
  pose proof (H _ Hin) as Hne. simpl in Hne. split; auto.
  destruct cmds; [congruence | discriminate].
Qed.

(** *** The list being replayed *)

Lemma finally_block_not_replaying ws d st d' n rest :
  stage_of (finally_block ws d st) ws <> Some (SendingQueued d' n rest).
Proof.
  intros H. pose proof (finally_block_not_live ws d st) as Hl. now rewrite H in Hl.
Qed.

Lemma suspend_stage_inv ws s st s' :
  stage_of (suspend ws s st) ws = Some s' -> s' = s.
Proof.
  rewrite stage_of_suspend, Nat.eqb_refl. destruct (stage_of st ws); congruence.
Qed.

Lemma replay_replaying ws d0 n0 rest0 io st d n rest :
  stage_of (replay ws d0 n0 rest0 io st) ws = Some (SendingQueued d n rest) ->
  d = d0 /\ (exists cmd, rest0 = cmd :: rest) /\
  device_commands (replay ws d0 n0 rest0 io st) = device_commands st.
Proof.
  unfold replay, except_block. destruct rest0 as [|cmd rest'].
  - destruct (backlog_del d0 (device_commands st)).
    + intros H. apply suspend_stage_inv in H. discriminate.
    + intros H. now apply finally_block_not_replaying in H.
  - destruct io as [e|].
    + intros H. now apply finally_block_not_replaying in H.
    + intros H. apply suspend_stage_inv in H. injection H as -> _ ->. eauto.
Qed.

Lemma registration_replaying ws arrival now io st d n rest :
  stage_of st ws = Some AwaitingRegistration ->
  stage_of (registration ws arrival now io st) ws = Some (SendingQueued d n rest) ->
  (exists cmd, backlog_find d (device_commands st) = Some (cmd :: rest)) /\
  device_commands (registration ws arrival now io st) = device_commands st.
Proof.
  intros Hs0. unfold registration, except_block.
  destruct (wait_for 10000%N arrival) as [m|];
    [|intros H; now apply finally_block_not_replaying in H].
  destruct m as [data| | | | | | |];
    try (intros H; congruence);
    try (intros H; apply suspend_stage_inv in H; discriminate).
  destruct data as [reg_data|]; cbn [bind];
    [|intros H; now apply finally_block_not_replaying in H].
  destruct reg_data as [| | | | |items]; cbn [bind py_get];
    try (intros H; now apply finally_block_not_replaying in H).
  set (device := dict_get items "device_id" _).
  set (st1 := print _ (with_clients _ st)).
  destruct (backlog_contains device (device_commands st1)) as [[|]|e];
    try (intros H; now apply finally_block_not_replaying in H).
  - destruct (backlog_find device (device_commands st1)) as [cmds|] eqn:Ef;
      [|intros H; now apply finally_block_not_replaying in H].
    intros H. destruct (replay_replaying _ _ _ _ _ _ _ _ _ H) as (-> & [cmd ->] & Hq).
    split; [|exact Hq]. exists cmd. exact Ef.
  - intros H. apply suspend_stage_inv in H. discriminate.
Qed.

Lemma on_message_not_replaying ws d0 m disk_ok st d n rest :
  stage_of st ws = Some (Listening d0) ->
  stage_of (on_message ws d0 m disk_ok st) ws <> Some (SendingQueued d n rest).
Proof.
  intros Hs. destruct m as [data| | | | | | |]; unfold on_message;
    try apply finally_block_not_replaying; try (rewrite Hs; discriminate).
  destruct (print_all_rest (route d0 data disk_ok) st) as (_ & _ & Hsock).
  unfold stage_of in *. rewrite Hsock, Hs. discriminate.
Qed.

Lemma step_commands_miss a st :
  device_commands (step a st) = device_commands st \/
  (exists d, device_commands (step a st) = backlog_remove d (device_commands st)) \/
  (exists d q, find_target (connected_clients st) d = None /\
               enqueue d q (device_commands st) = Ok (device_commands (step a st))).
Proof.
  destruct a as [addr|ws r|request now io]; simpl; auto.
  - unfold websocket_handler.
    destruct (stage_of st ws) as [[| |d n rest|d|]|]; destruct r; auto.
    + destruct (registration_commands ws arrival now io st) as [H|H]; auto.
    + left. apply after_close_commands.
    + destruct (replay_commands ws d n rest io st) as [H|H]; eauto.
    + left. apply on_message_commands.
  - destruct (send_command_commands request now io st) as [H|(items & q & _ & Hmiss & H)];
      eauto 6.
Qed.

Lemma backlog_find_after_remove (d d0 : json) (cmds : list (json * list queued)) l :
  keys_ok cmds -> hashable d = true ->
  backlog_find d (backlog_remove d0 cmds) = Some l -> backlog_find d cmds = Some l.
Proof.
  intros Hk Hd. destruct (py_eq d0 d) eqn:E.
  - pose proof (py_eq_hashable_l d0 d Hd E) as Hd0.
    rewrite <- (backlog_find_same d0 d); auto; [|now apply keys_ok_remove].
    rewrite backlog_find_removed; auto. discriminate.
  - now rewrite backlog_find_remove_unrelated.
Qed.

Lemma replaying_backlog_is_stable a st ws d n rest l :
  reachable st ->
  stage_of st ws = Some (SendingQueued d n rest) ->
  backlog_find d (device_commands (step a st)) = Some l ->
  backlog_find d (device_commands st) = Some l.
Proof.
  intros Hr Hs.
  assert (Hreg : In ws (registered st)).
  { apply reachable_live_registered; auto. now rewrite Hs. }
  apply in_map_iff in Hreg as ([w i] & Hw & Hin). simpl in Hw. subst w.
  pose proof (reachable_registry_ok st Hr) as [_ Hserve].
  specialize (Hserve ws i Hin). rewrite Hs in Hserve. simpl in Hserve. subst d.
  destruct (reachable_queue_ok st Hr ws i Hin) as [Hd _].
  pose proof (reachable_keys_ok st Hr) as Hk.
  destruct (step_commands_miss a st) as [->|[[d0 ->]|(d0 & q & Hmiss & He)]]; auto.
  - now apply backlog_find_after_remove.
  - pose proof (enqueue_hashable _ _ _ _ He) as Hd0.
    rewrite (enqueue_apart d0 (device_id i) q _ _ Hk Hd He); auto.
    rewrite py_eq_sym by auto. eapply find_target_none; eauto.
Qed.

Lemma replaying_ok_step a st : reachable st -> replaying_ok st -> replaying_ok (step a st).
Proof.
  intros Hr IH ws d n rest l Hs' Hf'.
  assert (Hsame : stage_of st ws = Some (SendingQueued d n rest) -> exists done, l = done ++ rest).
  { intros Hs. apply (IH ws d n rest l Hs). eapply replaying_backlog_is_stable; eauto. }
  destruct a as [addr|ws' r|request now io]; cbn [step] in *.
  - apply Hsame. rewrite stage_of_accept in Hs'.
    destruct (Nat.ltb ws (length (sockets st))); auto.
    destruct (Nat.eqb ws (length (sockets st))); discriminate.
  - destruct (Nat.eq_dec ws ws') as [<-|Hne].
    2:{ apply Hsame. now rewrite websocket_handler_other in Hs'. }
    unfold websocket_handler in Hs', Hf'.
    destruct (stage_of st ws) as [[| |d0 n0 rest0|d0|]|] eqn:Hs; destruct r;
      try congruence; try (apply Hsame; rewrite <- Hs; exact Hs').
    + destruct (registration_replaying _ _ _ _ _ _ _ _ Hs Hs') as ([cmd Hfind] & Hq).
      rewrite Hq, Hfind in Hf'. injection Hf' as <-. now exists [cmd].
    + rewrite after_close_stage, Nat.eqb_refl, Hs in Hs'. discriminate.
    + destruct (replay_replaying _ _ _ _ _ _ _ _ _ Hs') as (-> & [cmd ->] & Hq).
      rewrite Hq in Hf'. destruct (IH ws d0 n0 (cmd :: rest) l Hs Hf') as [done ->].
      exists (done ++ [cmd]). now rewrite <- app_assoc.
    + now elim (on_message_not_replaying ws d0 m disk_ok st d n rest Hs).
  - apply Hsame. now rewrite send_command_stage in Hs'.
Qed.

Lemma reachable_replaying_ok st : reachable st -> replaying_ok st.
Proof.
  induction 1 as [|a st Hr IH].
  - intros ws d n rest l Hs. unfold stage_of in Hs. simpl in Hs. now destruct ws.
  - now apply replaying_ok_step.
Qed.

(** X11 (a failed replay loses no queued command).  When a replayed
    command cannot be sent, the handler returns and its socket leaves
    [connected_clients], but [device_commands] is untouched: the list still
    stored under the device id holds the commands not yet replayed after
    those already sent, and the next socket that registers under the id
    with working sends is sent all of them, the already sent ones again. *)
Theorem failed_replay_keeps_the_backlog st ws d n cmd rest e :
  reachable st ->
  stage_of st ws = Some (SendingQueued d n (cmd :: rest)) ->
  let st' := step (Resume ws (SendDone (Some e))) st in
  stage_of st' ws = Some Returned /\
  ~ In ws (registered st') /\
  device_commands st' = device_commands st /\
  (forall l, backlog_find d (device_commands st) = Some l ->
     (exists done, l = done ++ cmd :: rest) /\
     forall addr t reg now,
       (t < 10000)%N ->
       items_get "device_id" reg = Some d ->
       let ws2 := length (sockets st') in
       let st2 := run (Connect addr
                       :: Resume ws2 (FirstFrame (Some (t, TEXT (Some (JObj reg)))) now None)
                       :: repeat (Resume ws2 (SendDone None)) (length l)) st' in
       sent_to st2 ws2 = map replayed l).
Proof.
  intros Hr Hs st'.
  assert (Hr' : reachable st') by (unfold st'; now constructor).
  assert (Hst' : st' = finally_block ws d (print (print_ws_exception e) st)).
  { unfold st'. cbn [step]. unfold websocket_handler. now rewrite Hs. }
  assert (Hret : stage_of st' ws = Some Returned).
  { rewrite Hst', finally_block_stage, Nat.eqb_refl.
    change (stage_of (print ?x st) ws) with (stage_of st ws). now rewrite Hs. }
  assert (Hq : device_commands st' = device_commands st).
  { rewrite Hst'. now rewrite finally_block_commands. }
  split_and; auto.
  - apply registry_ok_unregistered; [now apply reachable_registry_ok | now rewrite Hret].
  - intros l Hfind. split.
    + now apply (reachable_replaying_ok st Hr ws d n (cmd :: rest) l).
    + intros addr t reg now Ht Hreg.
      assert (Hd : hashable d = true).
      { assert (Hreg' : In ws (registered st)).
        { apply reachable_live_registered; auto. now rewrite Hs. }
        apply in_map_iff in Hreg' as ([w i] & Hw & Hin). simpl in Hw. subst w.
        pose proof (reachable_registry_ok st Hr) as [_ Hserve].
        specialize (Hserve ws i Hin). rewrite Hs in Hserve. simpl in Hserve. subst d.
        now destruct (reachable_queue_ok st Hr ws i Hin). }
      assert (Hb : backlog_of d st' = l).
      { unfold backlog_of. now rewrite Hq, Hfind. }
      pose proof (connect_delivers st' addr t reg now d Hr' Ht Hreg Hd) as (_ & H2 & _).
      rewrite Hb in H2. exact H2.
Qed.

(** *** [upload_video] *)

Lemma read_fields_decodable fields : forall video_file camera_type timestamp,
  existsb undecodable fields = false ->
  read_fields fields video_file camera_type timestamp =
    inr (last_video fields video_file,
         last_text "camera_type" fields camera_type,
         last_text "timestamp" fields timestamp).
Proof.
  induction fields as [|field fields IH]; intros v c t Hok; [reflexivity|].
  simpl in Hok. apply orb_false_iff in Hok as [Hf Hok].
  unfold undecodable in Hf. cbn [read_fields last_video last_text fold_left].
  destruct (String.eqb_spec (part_name field) "video") as [Hn|_].
  - rewrite Hn. cbn. now apply IH.
  - destruct (String.eqb_spec (part_name field) "camera_type") as [Hn|_].
    + rewrite Hn in *. cbn in *.
      destruct (part_text field) as [message|text]; [discriminate|]. now apply IH.
    + destruct (String.eqb_spec (part_name field) "timestamp") as [Hn|_].
      * cbn in Hf. destruct (part_text field) as [message|text]; [discriminate|]. now apply IH.
      * now apply IH.
Qed.

Lemma read_fields_undecodable fields : forall video_file camera_type timestamp,
  existsb undecodable fields = true ->
  exists message, read_fields fields video_file camera_type timestamp = inl message.
Proof.
  induction fields as [|field fields IH]; intros v c t Hbad; [discriminate|].
  simpl in Hbad. cbn [read_fields].
  destruct (undecodable field) eqn:Hf.
  - unfold undecodable in Hf. apply andb_true_iff in Hf as [Hname Htext].
    destruct (part_text field) as [message|text]; [|discriminate].
    destruct (String.eqb_spec (part_name field) "video") as [Hn|_].
    + rewrite Hn in Hname. discriminate.
    + destruct (String.eqb (part_name field) "camera_type"); eauto.
      simpl in Hname. rewrite Hname. eauto.
  - simpl in Hbad. unfold undecodable in Hf.
    destruct (String.eqb (part_name field) "video"); [now apply IH|].
    destruct (String.eqb (part_name field) "camera_type").
    + simpl in Hf. destruct (part_text field); [discriminate | now apply IH].
    + destruct (String.eqb (part_name field) "timestamp").
      * simpl in Hf. destruct (part_text field); [discriminate | now apply IH].
      * now apply IH.
Qed.

Lemma last_video_has_video fields : forall before,
  last_video fields before =
  if has_video fields then last_video fields None else before.
Proof.
  induction fields as [|field fields IH]; intros before; [reflexivity|].
  unfold last_video, has_video in *. cbn [fold_left existsb].
  destruct (String.eqb (part_name field) "video"); simpl.
  - reflexivity.
  - apply IH.
Qed.

Lemma last_video_some fields : has_video fields = true -> last_video fields None <> None.
Proof.
  induction fields as [|field fields IH]; [discriminate|].
  unfold last_video, has_video in *. cbn [fold_left existsb].
  destruct (String.eqb (part_name field) "video"); simpl; auto.
  intros _. fold (last_video fields (Some (release field))). rewrite last_video_has_video.
  destruct (has_video fields) eqn:E; [|discriminate].
  now apply IH.
Qed.

Lemma last_video_none fields : has_video fields = false -> last_video fields None = None.
Proof. intros H. rewrite last_video_has_video. now rewrite H. Qed.

Lemma last_video_released fields : forall before video_file,
  last_video fields before = Some video_file ->
  before = Some video_file \/ part_chunks video_file = [].
Proof.
  induction fields as [|field fields IH]; intros before v; [now left|].
  unfold last_video in *. cbn [fold_left].
  destruct (String.eqb (part_name field) "video"); [|apply IH].
  intros H. right. destruct (IH _ _ H) as [[= <-]|Hv]; auto.
Qed.

(** X12 (when a file is written).  [upload_video] answers 200 exactly when
    the body is multipart, has a field named ['video'], every
    ['camera_type'] and ['timestamp'] field is UTF-8 and the file can be
    opened; otherwise nothing is written.  A multipart body whose
    ['camera_type'] and ['timestamp'] fields are UTF-8 and which has no
    ['video'] field is answered [{'error': 'No video file'}] with status
    400. *)
Theorem upload_writes_with_a_video_only request disk :
  let r := upload_video request disk in
  (status (snd r) = 200 <->
   exists fields, request = inr fields /\ has_video fields = true /\
                  existsb undecodable fields = false /\ disk = None) /\
  (status (snd r) <> 200 ->
   forall filepath content, ~ In (write_file filepath content) (fst r)) /\
  (forall fields,
     request = inr fields -> has_video fields = false ->
     existsb undecodable fields = false ->
     r = ([], json_response (JObj [("error", JStr "No video file")]) 400)).
Proof.
  intros r. subst r. unfold upload_video, upload_error.
  destruct request as [message|fields].
  { split_and.
    - split; [discriminate|]. intros (fields & H & _). discriminate.
    - intros _ filepath content [H|[]]. discriminate.
    - intros fields H. discriminate. }
  destruct (existsb undecodable fields) eqn:Hdec.
  { destruct (read_fields_undecodable fields None "unknown" EmptyString Hdec) as [message ->].
    split_and.
    - split; [discriminate|]. intros (fields' & [= <-] & _ & H & _). congruence.
    - intros _ filepath content [H|[]]. discriminate.
    - intros fields' [= <-] _ H. congruence. }
  rewrite (read_fields_decodable fields None "unknown" EmptyString Hdec).
  destruct (has_video fields) eqn:Hvid.
  - pose proof (last_video_some fields Hvid) as Hsome.
    destruct (last_video fields None) as [video_file|]; [|congruence].
    destruct disk as [message|]; cbn [fst snd status]; split_and.
    + split; [discriminate|]. intros (fields' & _ & _ & _ & H). discriminate.
    + intros _ filepath content [H|[]]. discriminate.
    + intros fields' [= <-]. congruence.
    + split; auto. intros _. exists fields. auto.
    + intros H. congruence.
    + intros fields' [= <-]. congruence.
  - rewrite (last_video_none fields Hvid). cbn [fst snd status]. split_and.
    + split; [discriminate|]. intros (fields' & [= <-] & H & _). congruence.
    + intros _ filepath content [].
    + reflexivity.
Qed.

(** X13 (the file that is written).  When a file is written it is
    [uploads/video_<camera_type>_<timestamp>.mp4], where the two texts are
    those of the last ['camera_type'] and the last ['timestamp'] field
    (["unknown"] and the empty text when there is none); the name starts
    with ["video_"], so [os.path.join] always puts the upload folder in
    front, and the ['filename'] of the answer is the name without it.  The
    file is empty, whatever the ['video'] field holds: the reader has
    released that part before line 146 reads it, so that the first
    [read_chunk()] returns the empty chunk and the size printed is 0. *)
Theorem upload_names_the_file fields :
  existsb undecodable fields = false ->
  has_video fields = true ->
  let camera_type := last_text "camera_type" fields "unknown" in
  let timestamp := last_text "timestamp" fields EmptyString in
  let filename := ("video_" ++ camera_type ++ "_" ++ timestamp ++ ".mp4")%string in
  upload_video (inr fields) None =
    ([write_file ("uploads/" ++ filename)%string [];
      print_upload camera_type filename 0],
     json_response (JObj [("status", JStr "uploaded"); ("filename", JStr filename)]) 200).
Proof.
  intros Hdec Hvid camera_type timestamp filename.
  unfold upload_video.
  rewrite (read_fields_decodable fields None "unknown" EmptyString Hdec).
  pose proof (last_video_some fields Hvid) as Hsome.
  destruct (last_video fields None) as [video_file|] eqn:Ev; [|congruence].
  destruct (last_video_released fields None video_file Ev) as [H|H]; [discriminate|].
  rewrite H. reflexivity.
Qed.

(** X14 (what reaches the file).  The loop of lines 145-149 writes the
    chunks in the order read and stops at the first empty one: a content
    cut into non-empty chunks is written whole, and whatever follows an
    empty chunk is not written. *)
Theorem read_chunks_stops_at_the_empty_chunk chunks more :
  Forall (fun chunk => chunk <> []) chunks ->
  read_chunks chunks = concat chunks /\
  read_chunks (chunks ++ [] :: more) = concat chunks.
Proof.
  intros H. induction H as [|chunk chunks Hc H [IH1 IH2]]; [auto|].
  destruct chunk as [|b chunk]; [congruence|].
  cbn [read_chunks concat app]. now rewrite IH1, IH2.
Qed.

(** *** How [connected_clients] changes *)




(** *** Two sockets registering one device id *)

(** X16 (two registrations racing for one backlog).  When two sockets
    register the same device id while its backlog is still stored, each of
    them is sent the whole backlog; the one that finishes its replay first
    deletes the key and goes on listening, the other one fails on the
    deletion of line 198 and its handler returns. *)
Theorem racing_registrations_both_replay st ws1 ws2 d cmd rest t reg now :
  reachable st ->
  ws1 <> ws2 ->
  stage_of st ws1 = Some AwaitingRegistration ->
  stage_of st ws2 = Some AwaitingRegistration ->
  (t < 10000)%N ->
  items_get "device_id" reg = Some d ->
  hashable d = true ->
  backlog_find d (device_commands st) = Some (cmd :: rest) ->
  let first ws := Resume ws (FirstFrame (Some (t, TEXT (Some (JObj reg)))) now None) in
  let sends ws := repeat (Resume ws (SendDone None)) (S (length rest)) in
  let st' := run ([first ws1; first ws2] ++ sends ws1 ++ sends ws2) st in
  sent_to st' ws1 = map replayed (cmd :: rest) /\
  sent_to st' ws2 = map replayed (cmd :: rest) /\
  stage_of st' ws1 = Some (Listening d) /\
  stage_of st' ws2 = Some Returned /\
  backlog_find d (device_commands st') = None.
Proof.
  intros Hr Hne Hs1 Hs2 Ht Hreg Hd Hfind first sends st'.
  pose proof (reachable_keys_ok st Hr) as Hk.
  assert (Hdev : forall fallback, dict_get reg "device_id" fallback = d).
  { intros fallback. unfold dict_get. now rewrite Hreg. }
  assert (Hf1 : ~ In ws1 (registered st)).
  { apply registry_ok_unregistered; [now apply reachable_registry_ok | now rewrite Hs1]. }
  assert (Hf2 : ~ In ws2 (registered st)).
  { apply registry_ok_unregistered; [now apply reachable_registry_ok | now rewrite Hs2]. }
  (* the first socket registers and is sent the head of the list *)
  pose proof (registration_accepts ws1 t reg now st Hs1 Hf1 Ht) as A. cbv zeta in A.
  rewrite Hdev, Hfind in A. destruct (A Hd) as (Ac & Au & _ & As & Asent & Aq). clear A.
  set (s1 := registration ws1 (Some (t, TEXT (Some (JObj reg)))) now None st) in *.
  (* so does the second *)
  destruct (Au ws2 ltac:(congruence)) as [Bs0 Bsent0].
  assert (Hf2' : ~ In ws2 (registered s1)).
  { unfold registered. rewrite Ac, map_app. simpl. intros Hin.
    apply in_app_or in Hin as [Hin|[Heq|[]]]; [now apply Hf2 | congruence]. }
  rewrite Hs2 in Bs0.
  pose proof (registration_accepts ws2 t reg now s1 Bs0 Hf2' Ht) as B. cbv zeta in B.
  rewrite Hdev, Aq, Hfind in B. destruct (B Hd) as (Bc & Bu & _ & Bs & Bsent & Bq). clear B.
  set (s2 := registration ws2 (Some (t, TEXT (Some (JObj reg)))) now None s1) in *.
  destruct (Bu ws1 Hne) as [Cs0 Csent0].
  (* the first one finishes its replay and deletes the key *)
  assert (Cq : backlog_find d (device_commands s2) <> None).
  { rewrite Bq, Hfind. discriminate. }
  rewrite As in Cs0.
  destruct (replay_completes rest ws1 d (S (length rest)) s2 Cs0 Hd Cq)
    as (C1 & C2 & C3 & _ & C5 & _).
  set (s3 := run (repeat (Resume ws1 (SendDone None)) (S (length rest))) s2) in *.
  destruct (C5 ws2 ltac:(congruence)) as [Ds0 Dsent0].
  rewrite Bs in Ds0.
  (* the second one sends the rest, then fails on the deletion *)
  destruct (replay_advances (length rest) rest ws2 d (S (length rest)) s3 Ds0 (le_n _))
    as (D1 & D2 & _ & D4 & D5).
  set (s4 := run (repeat (Resume ws2 (SendDone None)) (length rest)) s3) in *.
  rewrite skipn_all in D1. rewrite firstn_all in D2.
  assert (Hgone : backlog_find d (device_commands s4) = None).
  { rewrite D4, C3, Bq. now apply backlog_find_removed. }
  assert (Hlast : step (Resume ws2 (SendDone None)) s4
                  = except_block ws2 d KeyError s4).
  { cbn [step]. unfold websocket_handler. rewrite D1. unfold replay, backlog_del.
    now rewrite Hd, Hgone. }
  assert (Hst' : st' = step (Resume ws2 (SendDone None)) s4).
  { unfold st', sends, first. rewrite run_app. cbn [run fold_left step].
    unfold websocket_handler at 2. rewrite Hs1. fold s1.
    unfold websocket_handler at 1. rewrite Bs0. fold s2.
    rewrite run_app. fold (run (repeat (Resume ws1 (SendDone None)) (S (length rest))) s2).
    fold s3.
    replace (repeat (Resume ws2 (SendDone None)) (S (length rest)))
      with (repeat (Resume ws2 (SendDone None)) (length rest) ++ [Resume ws2 (SendDone None)])
      by (symmetry; apply (repeat_cons (length rest) (Resume ws2 (SendDone None)))).
    rewrite run_app. reflexivity. }
  rewrite Hst', Hlast. unfold except_block.
  rewrite !finally_block_sent, !finally_block_stage, finally_block_commands.
  change (sent_to (print ?e s4) ?w) with (sent_to s4 w).
  change (stage_of (print ?e s4) ?w) with (stage_of s4 w).
  change (device_commands (print ?e s4)) with (device_commands s4).
  destruct (D5 ws1 Hne) as [E1 E2].
  rewrite Nat.eqb_refl. destruct (Nat.eqb_spec ws2 ws1) as [|_]; [congruence|].
  rewrite E1, E2, D1, D2, C1, C2, Dsent0, Bsent, Csent0, Asent, Bsent0.
  rewrite (awaiting_nothing_sent st ws1 Hr Hs1), (awaiting_nothing_sent st ws2 Hr Hs2).
  split_and; auto.
Qed.

End Server.

(** ** Examples *)

(** C1, counterexample.  Two sockets register the id ["X"] one after the
    other: both are listed for it, and [close] has been called on neither. *)
Lemma duplicate_registration_keeps_both :
  let st := run no_image exn_text two_sockets_one_id startup in
  sessions_of (JStr "X") st = [0; 1] /\
  close_calls st = [false; false] /\
  stage_of st 0 = Some (Listening (JStr "X")) /\
  body (list_devices st) =
    JObj [("devices",
           JArr [JObj [("device_id", JStr "X"); ("connected_at", JStr "t1")];
                 JObj [("device_id", JStr "X"); ("connected_at", JStr "t2")]]);
          ("count", JInt 2)].
Proof. vm_compute. repeat split. Qed.

(** A second socket registers the id ["X"] while the first is listening. *)
Lemma one_entry_per_socket_witness :
  let st := run no_image exn_text (one_socket ++ [Connect "10.0.0.2"]) startup in
  let st' := step no_image exn_text (Resume 1 (registers "X" "t2")) st in
  sessions_of (JStr "X") st' = sessions_of (JStr "X") st ++ [1] /\
  close_calls st' = close_calls st.
Proof.
  intros st st'.
  destruct (one_entry_per_socket no_image exn_text st 0
              {| device_id := JStr "X"; connected_at := "t1"; address := "10.0.0.1" |}
              1 5%N [("device_id", JStr "X")] "t2")
    as (_ & _ & _ & H4 & _ & H6 & _).
  - apply reachable_run, reachable_startup.
  - vm_compute. now left.
  - reflexivity.
  - reflexivity.
  - reflexivity.
  - split; assumption.
Defined.

(** C2, counterexample.  The device is registered and the send raises: the
    socket is still registered, nothing has been queued, nothing has been
    sent, and the answer has status 500 and no ['status'] item. *)
Lemma send_failure_drops_command :
  let st := run no_image exn_text one_socket startup in
  let r := send_command exn_text (request_for "X" "lock") "t2" (Some TransportError) st in
  find_target (connected_clients st) (JStr "X") = Some 0 /\
  registered (fst r) = [0] /\
  device_commands (fst r) = [] /\
  sent_to (fst r) 0 = [] /\
  status (snd r) = 500 /\
  items_get "status" (match body (snd r) with JObj kv => kv | _ => [] end) = None.
Proof. vm_compute. repeat split. Qed.

(** The same call, seen through the theorem. *)
Lemma send_failure_is_reported_witness :
  let st := run no_image exn_text one_socket startup in
  let r := send_command exn_text (request_for "X" "lock") "t2" (Some TransportError) st in
  connected_clients (fst r) = connected_clients st /\
  device_commands (fst r) = device_commands st /\
  sockets (fst r) = sockets st /\
  console (fst r) = console st ++ [print_command_error TransportError] /\
  snd r = json_response (JObj [("error", JStr (exn_text TransportError))]) 500.
Proof.
  intros st r.
  apply (send_failure_is_reported exn_text st
           [("device_id", JStr "X"); ("command", JStr "lock"); ("params", JObj [])]
           "t2" TransportError 0).
  reflexivity.
Defined.





(** C5, counterexample.  The first frame of a connection is a ping, which
    is not a structured text message; a registration message follows one
    millisecond later.  The socket is registered and listening, and [close]
    has not been called on it. *)
Lemma ping_first_still_registers :
  let ping := Resume 0 (FirstFrame (Some (4%N, PING)) "t0" None) in
  let st := run no_image exn_text
              [Connect "10.0.0.1"; ping; Resume 0 (registers "X" "t1")] startup in
  registered st = [0] /\
  stage_of st 0 = Some (Listening (JStr "X")) /\
  close_calls st = [false] /\
  body (list_devices st) =
    JObj [("devices", JArr [JObj [("device_id", JStr "X"); ("connected_at", JStr "t1")]]);
          ("count", JInt 1)].
Proof. vm_compute. repeat split. Qed.

(** A socket whose first frame is binary. *)
Lemma handshake_failure_never_registers_witness :
  let binary := Resume 0 (FirstFrame (Some (5%N, BINARY)) "t1" None) in
  let closed := Resume 0 (CloseDone None) in
  let later := [closed; PostCommand (request_for "X" "lock") "t2" None] in
  let st' := run no_image exn_text [Connect "10.0.0.1"; binary] startup in
  stage_of st' 0 = Some AwaitingClose /\
  closed_by_server st' 0 = true /\
  stage_of (step no_image exn_text closed st') 0 = Some Returned /\
  ~ In 0 (registered
            (run no_image exn_text
               (firstn 4 ([Connect "10.0.0.1"] ++ binary :: later)) startup)).
Proof.
  intros binary closed later st'.
  destruct (handshake_failure_never_registers no_image exn_text
              [Connect "10.0.0.1"] later 0 (Some (5%N, BINARY)) "t1" None None)
    as (H1 & _ & H3 & _).
  - reflexivity.
  - reflexivity.
  - destruct H1 as (R1 & R2 & R3). split_and; [exact R1 | exact R2 | exact R3 | exact (H3 4)].
Defined.


(** The first of two sockets registered as ["X"] closes. *)
Lemma teardown_once_own_entry_only_witness :
  let st := run no_image exn_text two_sockets_one_id startup in
  let st' := step no_image exn_text (Resume 0 (Incoming CLOSE true)) st in
  stage_of st' 0 = Some Returned /\
  teardowns 0 (console st') = 1 /\
  In (1, {| device_id := JStr "X"; connected_at := "t2"; address := "10.0.0.2" |})
     (connected_clients st').
Proof.
  intros st st'.
  destruct (teardown_once_own_entry_only no_image exn_text st) as (_ & H2 & H3).
  - apply reachable_run, reachable_startup.
  - destruct (H2 0 (Listening (JStr "X")) (Incoming CLOSE true)) as (R1 & R2 & _).
    + reflexivity.
    + reflexivity.
    + split_and; [exact R1 | exact R2 |].
      apply H3; [intros r; discriminate|]. vm_compute. right. now left.
Defined.

(** The registration message [{}] with ten sockets already registered. *)
Lemma fallback_device_id_witness :
  let st := run no_image exn_text (ten_sockets ++ [Connect "10.0.0.2"]) startup in
  let st' := step no_image exn_text
               (Resume 10 (FirstFrame (Some (5%N, TEXT (Some (JObj [])))) "t2" None)) st in
  length (connected_clients st) = 10 /\
  In (print_connected (JStr "device_10") "10.0.0.2") (console st') /\
  connected_clients st' =
    connected_clients st ++
      [(10, {| device_id := JStr "device_10"; connected_at := "t2"; address := "10.0.0.2" |})].
Proof.
  intros st st'.
  destruct (fallback_device_id no_image exn_text st 10 5%N [] "t2" None) as (_ & _ & H3 & H4).
  - apply reachable_run, reachable_startup.
  - reflexivity.
  - reflexivity.
  - reflexivity.
  - split_and; [reflexivity | exact H3 | exact (proj1 (H4 eq_refl))].
Defined.


(** One command queued before the device connects, one sent after. *)
Lemma timestamps_through_the_queue_witness :
  let st1 := fst (send_command exn_text (request_for "X" "lock") "t_enqueue" None startup) in
  let st2 := run no_image exn_text
               [Connect "10.0.0.1"; Resume 0 (registers "X" "t_connect");
                Resume 0 (SendDone None)] st1 in
  sent_to st2 0 =
    [JObj [("type", JStr "remote_command"); ("command", JStr "lock");
           ("params", JObj []); ("timestamp", JStr "t_enqueue")]] /\
  sent_to (fst (send_command exn_text (request_for "X" "unlock") "t_send" None st2)) 0 =
    sent_to st2 0 ++
      [JObj [("type", JStr "remote_command"); ("command", JStr "unlock");
             ("params", JObj []); ("timestamp", JStr "t_send")]].
Proof.
  intros st1 st2.
  destruct (timestamps_through_the_queue no_image exn_text startup
              [("device_id", JStr "X"); ("command", JStr "lock"); ("params", JObj [])]
              "t_enqueue" "10.0.0.1" 5%N [("device_id", JStr "X")] "t_connect")
    as (_ & H2 & H3).
  - apply reachable_startup.
  - reflexivity.
  - reflexivity.
  - reflexivity.
  - reflexivity.
  - split; [exact H2|].
    apply (H3 [("device_id", JStr "X"); ("command", JStr "unlock"); ("params", JObj [])]
              "t_send" 0).
    reflexivity.
Defined.

(** Two sockets registered as ["X"]: both listings count two. *)
Lemma listings_count_live_handlers_witness :
  let st := run no_image exn_text two_sockets_one_id startup in
  answer (list_devices st) "count" = Some (JInt 2) /\
  answer (index "t9" st) "clients" = Some (JInt 2).
Proof.
  intros st.
  destruct (listings_count_live_handlers no_image exn_text st "t9") as (_ & H2 & H3 & _).
  - apply reachable_run, reachable_startup.
  - split; [exact H2 | exact H3].
Defined.

(** The first message of a replay of two commands. *)
Lemma only_remote_commands_are_sent_witness :
  exists cmd prm ts,
    command_msg (JStr "c1") (JObj []) "t1" =
      JObj [("type", JStr "remote_command"); ("command", cmd);
            ("params", prm); ("timestamp", JStr ts)].
Proof.
  apply (only_remote_commands_are_sent no_image exn_text
           (run no_image exn_text mid_replay startup) 0).
  - apply reachable_run, reachable_startup.
  - vm_compute. now left.
Defined.

(** A socket that has connected and not yet sent its first frame. *)
Lemma nothing_sent_before_registration_witness :
  let st := run no_image exn_text [Connect "10.0.0.1"] startup in
  sent_to st 0 = [] /\ closed_by_server st 0 = false /\ ~ In 0 (registered st).
Proof.
  intros st.
  apply (nothing_sent_before_registration no_image exn_text st 0).
  - apply reachable_run, reachable_startup.
  - reflexivity.
Defined.

(** A socket registered as ["X"] closes; a command for ["X"] and a late
    frame follow. *)
Lemma returned_socket_is_left_alone_witness :
  let st := run no_image exn_text (one_socket ++ [Resume 0 (Incoming CLOSE true)]) startup in
  let later := [PostCommand (request_for "X" "lock") "t2" None;
                Resume 0 (Incoming (TEXT None) true)] in
  sent_to (run no_image exn_text later st) 0 = sent_to st 0 /\
  stage_of (run no_image exn_text later st) 0 = Some Returned.
Proof.
  intros st later.
  destruct (returned_socket_is_left_alone no_image exn_text st 0 later) as (_ & H2 & H3 & _).
  - apply reachable_run, reachable_startup.
  - reflexivity.
  - split; [exact H2 | exact H3].
Defined.

(** A first frame that is binary. *)
Lemma server_closes_only_refused_sockets_witness :
  let st := run no_image exn_text [Connect "10.0.0.1"] startup in
  let binary := Resume 0 (FirstFrame (Some (5%N, BINARY)) "t1" None) in
  closed_by_server (step no_image exn_text binary st) 0 = true.
Proof.
  intros st binary.
  destruct (server_closes_only_refused_sockets no_image exn_text st 0 binary) as (_ & _ & H3).
  - apply reachable_run, reachable_startup.
  - apply H3; [reflexivity|]. split; [reflexivity|].
    exists 5%N, BINARY, "t1", None. split_and; [reflexivity | reflexivity | now left].
Defined.

(** A body that is not JSON. *)
Lemma refused_request_has_no_effect_witness :
  let r := send_command exn_text None "t1" None startup in
  connected_clients (fst r) = connected_clients startup /\
  (status (snd r) = 200 \/ status (snd r) = 500).
Proof.
  intros r.
  destruct (refused_request_has_no_effect exn_text startup None "t1" None) as (H1 & H2 & _).
  split; [exact H1 | exact H2].
Defined.

(** The request [{"device_id": []}]. *)
Lemma malformed_requests_are_refused_witness :
  send_command exn_text (Some (JObj [("device_id", JArr [])])) "t1" None startup
    = (print (print_command_error TypeError) startup, error_response exn_text TypeError).
Proof.
  destruct (malformed_requests_are_refused no_image exn_text startup "t1" None) as (_ & _ & H3).
  - apply reachable_startup.
  - apply H3. reflexivity.
Defined.

(** The registration message [{"device_id": []}]. *)
Lemma unhashable_registration_is_dropped_witness :
  let st := run no_image exn_text [Connect "10.0.0.1"] startup in
  let st' := step no_image exn_text
               (Resume 0 (FirstFrame (Some (5%N, TEXT (Some (JObj [("device_id", JArr [])]))))
                            "t1" None)) st in
  stage_of st' 0 = Some Returned /\
  connected_clients st' = connected_clients st /\
  device_commands st' = device_commands st.
Proof.
  intros st st'.
  destruct (unhashable_registration_is_dropped no_image exn_text st 0 5%N
              [("device_id", JArr [])] "t1" None (JArr []))
    as (H1 & H2 & H3 & _).
  - apply reachable_run, reachable_startup.
  - reflexivity.
  - reflexivity.
  - reflexivity.
  - reflexivity.
  - split_and; [exact H1 | exact H2 | exact H3].
Defined.

(** A command posted for ["X"], seen from the backlog of ["Y"]. *)
Lemma backlog_grows_at_the_tail_or_goes_witness :
  let a := post (JStr "X") (JStr "c1", JObj [], "t1") in
  let st' := step no_image exn_text a startup in
  backlog_of (JStr "Y") st' = backlog_of (JStr "Y") startup.
Proof.
  intros a st'.
  destruct (backlog_grows_at_the_tail_or_goes no_image exn_text startup (JStr "Y") a)
    as [H|[(items & now & io & Ha & Heq & _)|(ws & d' & n & io & Ha & _)]].
  - apply reachable_startup.
  - reflexivity.
  - exact H.
  - injection Ha as <- _ _. discriminate Heq.
  - discriminate Ha.
Defined.

(** The backlog of two commands that a socket has begun to replay. *)
Lemma no_backlog_is_empty_witness :
  let cmds := [{| command := JStr "c1"; params := JObj []; timestamp := "t1" |};
               {| command := JStr "c2"; params := JObj []; timestamp := "t2" |}] in
  cmds <> [] /\ map replayed cmds <> [].
Proof.
  intros cmds.
  apply (no_backlog_is_empty no_image exn_text
           (run no_image exn_text mid_replay startup) (JStr "X") cmds).
  - apply reachable_run, reachable_startup.
  - reflexivity.
Defined.

(** The second of two replayed commands cannot be sent. *)
Lemma failed_replay_keeps_the_backlog_witness :
  let st := run no_image exn_text mid_replay startup in
  let st' := step no_image exn_text (Resume 0 (SendDone (Some TransportError))) st in
  stage_of st' 0 = Some Returned /\
  ~ In 0 (registered st') /\
  device_commands st' = device_commands st.
Proof.
  intros st st'.
  destruct (failed_replay_keeps_the_backlog no_image exn_text st 0 (JStr "X") 2
              {| command := JStr "c2"; params := JObj []; timestamp := "t2" |} []
              TransportError)
    as (H1 & H2 & H3 & _).
  - apply reachable_run, reachable_startup.
  - reflexivity.
  - split_and; [exact H1 | exact H2 | exact H3].
Defined.

(** A body without a ['video'] field. *)
Lemma upload_writes_with_a_video_only_witness :
  upload_video
    (inr [{| part_name := "camera_type"; part_text := inr "front"; part_chunks := [] |}]) None
    = ([], json_response (JObj [("error", JStr "No video file")]) 400).
Proof.
  destruct (upload_writes_with_a_video_only
              (inr [{| part_name := "camera_type"; part_text := inr "front";
                       part_chunks := [] |}]) None)
    as (_ & _ & H3).
  apply (H3 _ eq_refl); reflexivity.
Defined.

(** A body with the fields ['camera_type'] and ['video'], the latter of
    three bytes in two chunks. *)
Lemma upload_names_the_file_witness :
  upload_video
    (inr [{| part_name := "camera_type"; part_text := inr "front"; part_chunks := [] |};
          {| part_name := "video"; part_text := inl "binary";
             part_chunks := [[Byte.x01; Byte.x02]; [Byte.x03]] |}]) None
    = ([write_file "uploads/video_front_.mp4" [];
        print_upload "front" "video_front_.mp4" 0],
       json_response (JObj [("status", JStr "uploaded");
                            ("filename", JStr "video_front_.mp4")]) 200).
Proof.
  apply (upload_names_the_file
           [{| part_name := "camera_type"; part_text := inr "front"; part_chunks := [] |};
            {| part_name := "video"; part_text := inl "binary";
               part_chunks := [[Byte.x01; Byte.x02]; [Byte.x03]] |}]).
  - reflexivity.
  - reflexivity.
Defined.

(** Two chunks, the empty chunk, and one more. *)
Lemma read_chunks_stops_at_the_empty_chunk_witness :
  read_chunks [[Byte.x01]; [Byte.x02]] = [Byte.x01; Byte.x02] /\
  read_chunks ([[Byte.x01]; [Byte.x02]] ++ [] :: [[Byte.x03]]) = [Byte.x01; Byte.x02].
Proof.
  apply (read_chunks_stops_at_the_empty_chunk [[Byte.x01]; [Byte.x02]] [[Byte.x03]]).
  repeat constructor; discriminate.
Defined.


(** Two commands wait for ["X"]; two sockets register as ["X"] before
    either has finished its replay. *)
Lemma racing_registrations_both_replay_witness :
  let st := run no_image exn_text
              [PostCommand (request_for "X" "c1") "t1" None;
               PostCommand (request_for "X" "c2") "t2" None;
               Connect "10.0.0.1"; Connect "10.0.0.2"] startup in
  let first ws := Resume ws (registers "X" "t3") in
  let sends ws := repeat (Resume ws (SendDone None)) 2 in
  let st' := run no_image exn_text ([first 0; first 1] ++ sends 0 ++ sends 1) st in
  sent_to st' 0 = [command_msg (JStr "c1") (JObj []) "t1";
                   command_msg (JStr "c2") (JObj []) "t2"] /\
  sent_to st' 1 = [command_msg (JStr "c1") (JObj []) "t1";
                   command_msg (JStr "c2") (JObj []) "t2"] /\
  stage_of st' 0 = Some (Listening (JStr "X")) /\
  stage_of st' 1 = Some Returned /\
  backlog_find (JStr "X") (device_commands st') = None.
Proof.
  intros st first sends st'.
  apply (racing_registrations_both_replay no_image exn_text st 0 1 (JStr "X")
           {| command := JStr "c1"; params := JObj []; timestamp := "t1" |}
           [{| command := JStr "c2"; params := JObj []; timestamp := "t2" |}]
           5%N [("device_id", JStr "X")] "t3").
  - apply reachable_run, reachable_startup.
  - discriminate.
  - reflexivity.
  - reflexivity.
  - reflexivity.
  - reflexivity.
  - reflexivity.
  - reflexivity.
Defined.
